(** * redis-models: a shallow embedding of the field system, the filter
    engine and the id allocator, with the properties checked against it.

    The Python sources are [redis_models/utils.py], [redis_models/fields.py]
    and [redis_models/core.py].  Python values are embedded as the inductive
    type [pyval]; an exception is a value of [exn]; a call that may raise
    returns a [res]; the Redis server is a finite map from keys to text. *)

From Stdlib Require Import ZArith String Ascii List Bool Lia Sorted.
From Stdlib Require Import DecimalString DecimalZ DecimalPos QArith SpecFloat.
From stdpp Require Import gmap strings.

Local Open Scope string_scope.
Local Open Scope Z_scope.

(** ** Exceptions and results *)

(** The exception classes the code raises or lets escape.  The text of a
    message is kept only where the source builds it from constants. *)
Inductive exn : Type :=
| RedisModelsException (msg : string)
| PyException (msg : string)      (* a bare [Exception], see [validate_type] *)
| TypeError
| ValueError
| AttributeError
| KeyError
| IndexError
| OverflowError
| JSONDecodeError
| InvalidOperation                (* [decimal.InvalidOperation] *)
| ResponseError                   (* [redis.ResponseError] *)
| Unmodelled (what : string).     (* not a Python exception: the call leaves
                                     the part of Python embedded here *)

Inductive res (A : Type) : Type :=
| Ok (a : A)
| Err (e : exn).
Arguments Ok {A} a.
Arguments Err {A} e.

Definition res_bind {A B} (r : res A) (k : A -> res B) : res B :=
  match r with
  | Ok a => k a
  | Err e => Err e
  end.

Definition is_ok {A} (r : res A) : bool :=
  match r with Ok _ => true | Err _ => false end.

Notation "'let*' x ':=' r 'in' k" := (res_bind r (fun x => k))
  (at level 10, x pattern, r at level 100, k at level 200).

(** A call that may also go on forever: [None] is "still running when the
    fuel ran out". *)
Definition fres (A : Type) : Type := option (res A).

Definition fres_bind {A B} (m : fres A) (k : A -> fres B) : fres B :=
  match m with
  | None => None
  | Some (Err e) => Some (Err e)
  | Some (Ok a) => k a
  end.

Notation "'let?' x ':=' m 'in' k" := (fres_bind m (fun x => k))
  (at level 10, x pattern, m at level 100, k at level 200).

(** ** Python's [str(int)] and [int(str)] *)

Definition py_str_of_int (z : Z) : string :=
  NilZero.string_of_int (Z.to_int z).

Definition is_lenient_char (c : ascii) : bool :=
  let n := nat_of_ascii c in
  ((n =? 32) || ((9 <=? n) && (n <=? 13)) || (n =? 43) || (n =? 95)
   || ((28 <=? n) && (n <=? 31)) || (n =? 133) || (n =? 160))%nat.

Fixpoint has_lenient_char (s : string) : bool :=
  match s with
  | EmptyString => false
  | String c rest => is_lenient_char c || has_lenient_char rest
  end.

(** [int(s)] for a text [s]: an optional minus sign and decimal digits.
    CPython also skips surrounding blanks and accepts a plus sign and
    underscores between digits; a text with such a character that does not
    read as above is left to Python. *)
Definition py_int_of_str (s : string) : res Z :=
  match NilZero.int_of_string s with
  | Some d => Ok (Z.of_int d)
  | None =>
      if has_lenient_char s
      then Err (Unmodelled "int(): blanks, a plus sign or underscores")
      else Err ValueError
  end.

(** ** Numbers: [float] and [decimal.Decimal] *)

(** A Python [float] is an IEEE binary64 number, here the specification
    type [spec_float] with 53 bits of precision. *)
Definition float_prec : Z := 53.
Definition float_emax : Z := 1024.

(** The binary64 number nearest (ties to even) to [num / den]. *)
Definition float_of_ratio (neg : bool) (num den : positive) : spec_float :=
  SFdiv float_prec float_emax (S754_finite neg num 0) (S754_finite false den 0).

(** A [decimal.Decimal]: coefficient times ten to the exponent, or one of
    the special values.  (A negative zero is not told apart from zero.) *)
Inductive pydecimal : Type :=
| DFinite (coef : Z) (exp : Z)
| DInfinity (neg : bool)
| DNaN.

(** [float(d)] for a Decimal [d]: the nearest binary64 number. *)
Definition float_of_decimal (d : pydecimal) : spec_float :=
  match d with
  | DNaN => S754_nan
  | DInfinity neg => S754_infinity neg
  | DFinite 0 _ => S754_zero false
  | DFinite (Zpos c) e =>
      if 0 <=? e then float_of_ratio false (c * Z.to_pos (10 ^ e)) 1
      else float_of_ratio false c (Z.to_pos (10 ^ (- e)))
  | DFinite (Zneg c) e =>
      if 0 <=? e then float_of_ratio true (c * Z.to_pos (10 ^ e)) 1
      else float_of_ratio true c (Z.to_pos (10 ^ (- e)))
  end.

(** The number of trailing zero bits of a mantissa. *)
Fixpoint trailing_zeros (m : positive) : Z :=
  match m with
  | xO m' => 1 + trailing_zeros m'
  | _ => 0
  end.

(** [decimal.Decimal(f)] for a float [f]: the exact value, written with
    the lowest terms of the binary fraction. *)
Definition decimal_of_float (f : spec_float) : pydecimal :=
  match f with
  | S754_nan => DNaN
  | S754_infinity neg => DInfinity neg
  | S754_zero _ => DFinite 0 0
  | S754_finite neg m e =>
      let sm := if neg then Zneg m else Zpos m in
      if 0 <=? e then DFinite (sm * 2 ^ e) 0
      else
        let k := Z.min (- e) (trailing_zeros m) in
        let e' := e + k in
        DFinite (sm / 2 ^ k * 5 ^ (- e')) e'
  end.

(** The value of a number on the extended rational line; comparisons
    between [int], [float] and [Decimal] are exact in Python. *)
Inductive xnum : Type :=
| XFin (q : Q)
| XInf (neg : bool)
| XNaN.

Definition Q_scale (base : Z) (c e : Z) : Q :=
  if 0 <=? e then inject_Z (c * base ^ e)
  else Qmake c (Z.to_pos (base ^ (- e))).

Definition xnum_of_float (f : spec_float) : xnum :=
  match f with
  | S754_nan => XNaN
  | S754_infinity neg => XInf neg
  | S754_zero _ => XFin 0
  | S754_finite neg m e => XFin (Q_scale 2 (if neg then Zneg m else Zpos m) e)
  end.

Definition xnum_of_decimal (d : pydecimal) : xnum :=
  match d with
  | DNaN => XNaN
  | DInfinity neg => XInf neg
  | DFinite c e => XFin (Q_scale 10 c e)
  end.

(** [None] when one side is a NaN (every ordered comparison is then false). *)
Definition xnum_compare (x y : xnum) : option comparison :=
  match x, y with
  | XNaN, _ | _, XNaN => None
  | XFin p, XFin q => Some (Qcompare p q)
  | XInf a, XInf b => Some (if a then (if b then Eq else Lt) else (if b then Gt else Eq))
  | XInf a, XFin _ => Some (if a then Lt else Gt)
  | XFin _, XInf b => Some (if b then Gt else Lt)
  end.

Definition xnum_is_zero (x : xnum) : bool :=
  match x with
  | XFin q => Qeq_bool q 0
  | _ => false
  end.

(** ** [datetime.date] and [datetime.datetime] *)

Record pydate : Type := {
  year : Z;
  month : Z;
  day : Z
}.

(** [tzinfo] is [None] for a naive value and otherwise the offset from UTC
    in minutes; [Some 0] is [datetime.timezone.utc]. *)
Record pydatetime : Type := {
  date_of : pydate;
  hour : Z;
  minute : Z;
  second : Z;
  microsecond : Z;
  tzinfo : option Z
}.

Definition utc : option Z := Some 0.

Definition is_leap (y : Z) : bool :=
  ((y mod 4 =? 0) && negb (y mod 100 =? 0)) || (y mod 400 =? 0).

Definition days_in_month (y m : Z) : Z :=
  if m =? 2 then (if is_leap y then 29 else 28)
  else if (m =? 4) || (m =? 6) || (m =? 9) || (m =? 11) then 30
  else 31.

(** The values the constructors of [date] and [datetime] accept. *)
Definition valid_date (d : pydate) : bool :=
  (1 <=? year d) && (year d <=? 9999) &&
  (1 <=? month d) && (month d <=? 12) &&
  (1 <=? day d) && (day d <=? days_in_month (year d) (month d)).

Definition valid_datetime (dt : pydatetime) : bool :=
  valid_date (date_of dt) &&
  (0 <=? hour dt) && (hour dt <=? 23) &&
  (0 <=? minute dt) && (minute dt <=? 59) &&
  (0 <=? second dt) && (second dt <=? 59) &&
  (0 <=? microsecond dt) && (microsecond dt <=? 999999) &&
  match tzinfo dt with
  | None => true
  | Some off => (-1440 <? off) && (off <? 1440)
  end.

(** [dt.replace(tzinfo=tz)]: the clock fields stay as they are. *)
Definition replace_tzinfo (dt : pydatetime) (tz : option Z) : pydatetime :=
  {| date_of := date_of dt; hour := hour dt; minute := minute dt;
     second := second dt; microsecond := microsecond dt; tzinfo := tz |}.

(** [date.toordinal]: days since 0001-01-01, which is day 1. *)
Definition days_before_year (y : Z) : Z :=
  let y1 := y - 1 in y1 * 365 + y1 / 4 - y1 / 100 + y1 / 400.

Fixpoint days_before_month_aux (y : Z) (m : nat) : Z :=
  match m with
  | O => 0
  | S m' => days_before_month_aux y m' + days_in_month y (Z.of_nat m)
  end.

Definition days_before_month (y m : Z) : Z :=
  days_before_month_aux y (Z.to_nat (m - 1)).

Definition toordinal (d : pydate) : Z :=
  days_before_year (year d) + days_before_month (year d) (month d) + day d.

(** Microseconds on the wall clock since 0001-01-01 00:00, and (for an
    aware value) the same on the UTC time line. *)
Definition wall_clock (dt : pydatetime) : Z :=
  (((toordinal (date_of dt) * 24 + hour dt) * 60 + minute dt) * 60 + second dt) * 1000000
  + microsecond dt.

Definition instant (dt : pydatetime) : option Z :=
  match tzinfo dt with
  | None => None
  | Some off => Some (wall_clock dt - off * 60 * 1000000)
  end.

(** *** Formatting *)

(** Decimal digits of [z], padded with zeros on the left to [width]. *)
Fixpoint add_zeros (n : nat) (s : string) : string :=
  match n with
  | O => s
  | S n' => add_zeros n' ("0" +:+ s)
  end.

Definition zero_padded (width : nat) (z : Z) : string :=
  let s := py_str_of_int z in
  add_zeros (width - String.length s) s.

(** [%Z]: the name of the time zone, empty for a naive value. *)
Definition tzname (tz : option Z) : string :=
  match tz with
  | None => ""
  | Some 0 => "UTC"
  | Some off =>
      let a := Z.abs off in
      "UTC" +:+ (if off <? 0 then "-" else "+") +:+
      zero_padded 2 (a / 60) +:+ ":" +:+ zero_padded 2 (a mod 60)
  end.

(** [d.strftime('%Y.%m.%d')].  [%Y] is left to the C library, which on
    Linux writes the digits of the year without padding: four digits from
    the year 1000 on, fewer below. *)
Definition strftime_date (d : pydate) : string :=
  py_str_of_int (year d) +:+ "." +:+ zero_padded 2 (month d) +:+ "." +:+
  zero_padded 2 (day d).

(** [dt.strftime('%Y.%m.%d-%H:%M:%S+%Z')] *)
Definition strftime_datetime (dt : pydatetime) : string :=
  strftime_date (date_of dt) +:+ "-" +:+
  zero_padded 2 (hour dt) +:+ ":" +:+ zero_padded 2 (minute dt) +:+ ":" +:+
  zero_padded 2 (second dt) +:+ "+" +:+ tzname (tzinfo dt).

(** *** Parsing *)

Definition digit_value (c : ascii) : option Z :=
  let n := Z.of_nat (nat_of_ascii c) in
  if (48 <=? n) && (n <=? 57) then Some (n - 48) else None.

(** Reads up to [most] decimal digits; gives their value, how many were
    read, and the rest of the text. *)
Fixpoint read_digits (most : nat) (acc : Z) (count : nat) (s : string) : Z * nat * string :=
  match most, s with
  | S most', String c rest =>
      match digit_value c with
      | Some d => read_digits most' (acc * 10 + d) (S count) rest
      | None => (acc, count, s)
      end
  | _, _ => (acc, count, s)
  end.

(** A directive of [strptime] that takes one or two digits and a value
    between [lo] and [hi]. *)
Definition read_number (lo hi : Z) (s : string) : option (Z * string) :=
  match read_digits 2 0 0 s with
  | (_, O, _) => None
  | (v, _, rest) => if (lo <=? v) && (v <=? hi) then Some (v, rest) else None
  end.

(** [%Y]: exactly four digits. *)
Definition read_year (s : string) : option (Z * string) :=
  match read_digits 4 0 0 s with
  | (v, 4%nat, rest) => Some (v, rest)
  | _ => None
  end.

(** [%d] also takes a blank followed by one digit. *)
Definition read_day (s : string) : option (Z * string) :=
  match s with
  | String c (String c' rest) =>
      if Ascii.eqb c " " then
        match digit_value c' with
        | Some d => if 1 <=? d then Some (d, rest) else None
        | None => None
        end
      else read_number 1 31 s
  | _ => read_number 1 31 s
  end.

Definition read_char (c : ascii) (s : string) : option string :=
  match s with
  | String c' rest => if Ascii.eqb c c' then Some rest else None
  | EmptyString => None
  end.

(** [str.lower] on one character; a character is a code point below 256. *)
Definition ascii_lower (c : ascii) : ascii :=
  let n := nat_of_ascii c in
  if ((65 <=? n) && (n <=? 90))%nat then ascii_of_nat (n + 32)
  else if ((192 <=? n) && (n <=? 222) && negb (n =? 215))%nat then ascii_of_nat (n + 32)
  else c.

Fixpoint py_lower (s : string) : string :=
  match s with
  | EmptyString => EmptyString
  | String c rest => String (ascii_lower c) (py_lower rest)
  end.

(** The date part [%Y.%m.%d] at the start of a text. *)
Definition read_date (s : string) : option (pydate * string) :=
  match read_year s with
  | None => None
  | Some (y, s1) =>
  match read_char "." s1 with
  | None => None
  | Some s2 =>
  match read_number 1 12 s2 with
  | None => None
  | Some (m, s3) =>
  match read_char "." s3 with
  | None => None
  | Some s4 =>
  match read_day s4 with
  | None => None
  | Some (d, s5) => Some ({| year := y; month := m; day := d |}, s5)
  end end end end end.

(** [datetime.datetime.strptime(s, '%Y.%m.%d')]: a naive datetime at
    midnight. *)
Definition strptime_date (s : string) : res pydatetime :=
  match read_date s with
  | Some (d, "") =>
      if valid_date d
      then Ok {| date_of := d; hour := 0; minute := 0; second := 0;
                 microsecond := 0; tzinfo := None |}
      else Err ValueError
  | _ => Err ValueError
  end.

(** [datetime.datetime.strptime(s, '%Y.%m.%d-%H:%M:%S+%Z')]: the zone name
    is read and dropped, the result is naive.  [%Z] takes UTC and GMT in any
    case, and the names of the local zone of the process, which are not
    part of this model. *)
Definition strptime_datetime (s : string) : res pydatetime :=
  match read_date s with
  | None => Err ValueError
  | Some (d, s1) =>
  match read_char "-" s1 with
  | None => Err ValueError
  | Some s2 =>
  match read_number 0 23 s2 with
  | None => Err ValueError
  | Some (h, s3) =>
  match read_char ":" s3 with
  | None => Err ValueError
  | Some s4 =>
  match read_number 0 59 s4 with
  | None => Err ValueError
  | Some (mi, s5) =>
  match read_char ":" s5 with
  | None => Err ValueError
  | Some s6 =>
  match read_number 0 61 s6 with
  | None => Err ValueError
  | Some (sec, s7) =>
  match read_char "+" s7 with
  | None => Err ValueError
  | Some zone =>
      let dt := {| date_of := d; hour := h; minute := mi; second := sec;
                   microsecond := 0; tzinfo := None |} in
      if String.eqb (py_lower zone) "utc" || String.eqb (py_lower zone) "gmt"
      then (if valid_datetime dt then Ok dt else Err ValueError)
      else Err (Unmodelled "strptime: local zone name")
  end end end end end end end end.

(** ** Python values *)

#[local] Set Warnings "-register-all".

(** The values the program handles.  [VModel cls fields attrs] is an
    instance of the [RedisModel] subclass [cls]: [fields] are the names of
    the class's fields and [attrs] the attributes set on the instance.
    [VQuerySet] is a [RedisQuerySet]; [VFunc r] is a function or builtin
    whose call returns [r]; [VObject cls text] is an object of any other
    class, with the text [str] gives for it. *)
Inductive pyval : Type :=
| VNone
| VBool (b : bool)
| VInt (z : Z)
| VFloat (f : spec_float)
| VStr (s : string)
| VList (items : list pyval)
| VTuple (items : list pyval)
| VDict (items : list (pyval * pyval))
| VDecimal (d : pydecimal)
| VDateTime (dt : pydatetime)
| VDate (d : pydate)
| VModel (cls : string) (fields : list string) (attrs : list (string * pyval))
| VQuerySet (cls : string) (results : list pyval)
| VFunc (result : pyval)
| VObject (cls : string) (text : string).

Fixpoint pyval_size (v : pyval) : nat :=
  match v with
  | VList l | VTuple l | VQuerySet _ l => S (list_sum (map pyval_size l))
  | VDict l => S (list_sum (map (fun kv => (pyval_size (fst kv) + pyval_size (snd kv))%nat) l))
  | VModel _ _ l => S (list_sum (map (fun kv => pyval_size (snd kv)) l))
  | VFunc r => S (pyval_size r)
  | _ => 1%nat
  end.

Definition is_none (v : pyval) : bool :=
  match v with VNone => true | _ => false end.

(** The classes named in [isinstance] checks. *)
Inductive pytype : Type :=
| TBool | TInt | TFloat | TStr | TList | TTuple | TDict
| TDecimal | TDateTime | TDate | TRedisModel.

(** [isinstance(v, t)]: [bool] is a subclass of [int] and [datetime] one
    of [date]. *)
Definition isinstance1 (v : pyval) (t : pytype) : bool :=
  match v, t with
  | VBool _, (TBool | TInt) => true
  | VInt _, TInt => true
  | VFloat _, TFloat => true
  | VStr _, TStr => true
  | VList _, TList => true
  | VTuple _, TTuple => true
  | VDict _, TDict => true
  | VDecimal _, TDecimal => true
  | VDateTime _, (TDateTime | TDate) => true
  | VDate _, TDate => true
  | VModel _ _ _, TRedisModel => true
  | _, _ => false
  end.

(** [isinstance(v, (t1, ..., tn))] *)
Definition isinstance (v : pyval) (ts : list pytype) : bool :=
  existsb (isinstance1 v) ts.

(** The truth value of [v], as in [if v] and [not v]. *)
Definition truthy (v : pyval) : bool :=
  match v with
  | VNone => false
  | VBool b => b
  | VInt z => negb (z =? 0)
  | VFloat (S754_zero _) => false
  | VFloat _ => true
  | VStr s => negb (String.eqb s "")
  | VList l | VTuple l => negb (Nat.eqb (length l) 0)
  | VDict l => negb (Nat.eqb (length l) 0)
  | VDecimal (DFinite 0 _) => false
  | VDecimal _ => true
  | VQuerySet _ l => negb (Nat.eqb (length l) 0)     (* [__len__] *)
  | VDateTime _ | VDate _ | VModel _ _ _ | VFunc _ | VObject _ _ => true
  end.

(** Whether [hash(v)] is defined.  [RedisModel] defines [__eq__] and no
    [__hash__], so an instance cannot be hashed. *)
Fixpoint hashable (v : pyval) : bool :=
  match v with
  | VList _ | VDict _ | VModel _ _ _ => false
  | VTuple l => forallb hashable l
  | _ => true
  end.

(** The number a value stands for in arithmetic comparisons. *)
Definition numeric (v : pyval) : option xnum :=
  match v with
  | VBool b => Some (XFin (inject_Z (if b then 1 else 0)))
  | VInt z => Some (XFin (inject_Z z))
  | VFloat f => Some (xnum_of_float f)
  | VDecimal d => Some (xnum_of_decimal d)
  | _ => None
  end.

Fixpoint lookup_attr (name : string) (attrs : list (string * pyval)) : option pyval :=
  match attrs with
  | [] => None
  | (k, v) :: rest => if String.eqb k name then Some v else lookup_attr name rest
  end.

(** What every [RedisModel] class defines besides its fields. *)
Definition redis_model_members : list string :=
  ["model_name"; "objects"; "get_class_fields"; "save"; "instance_key";
   "max_id_key"; "_fill_fields_values"; "_serialize_data"; "_save";
   "_async_save"; "__fields__"; "__model_data__"].

Definition mem_string (s : string) (l : list string) : bool :=
  existsb (String.eqb s) l.

(** [getattr(v, name)].  On an instance: the attribute set on it, else the
    field object of the class, else a member of [RedisModel].  Attributes
    of other values (the methods of [str], say) are not part of the model:
    asking for one is an [AttributeError] here. *)
Definition py_getattr (v : pyval) (name : string) : res pyval :=
  match v with
  | VModel cls fields attrs =>
      match lookup_attr name attrs with
      | Some a => Ok a
      | None =>
          if mem_string name fields then Ok (VObject "RedisField" (cls +:+ "." +:+ name))
          else if mem_string name redis_model_members then Ok (VObject "member" name)
          else Err AttributeError
      end
  | _ => Err AttributeError
  end.

Definition py_hasattr (v : pyval) (name : string) : bool :=
  is_ok (py_getattr v name).

(** *** Equality: [x == y] *)

Definition datetime_eq (a b : pydatetime) : bool :=
  match tzinfo a, tzinfo b with
  | None, None => wall_clock a =? wall_clock b
  | Some oa, Some ob => (wall_clock a - oa * 60000000) =? (wall_clock b - ob * 60000000)
  | _, _ => false     (* naive against aware: unequal, no exception *)
  end.

Definition date_eq (a b : pydate) : bool :=
  (year a =? year b) && (month a =? month b) && (day a =? day b).

Section Equality.
(** [eq] is the comparison of the parts, one level down. *)
Variable eq : pyval -> pyval -> res bool.

(** Elementwise, after the lengths were found equal. *)
Fixpoint seq_eq (xs ys : list pyval) : res bool :=
  match xs, ys with
  | [], [] => Ok true
  | x :: xs', y :: ys' =>
      let* e := eq x y in
      if e then seq_eq xs' ys' else Ok false
  | _, _ => Ok false
  end.

(** The value stored under a key equal to [k], if any. *)
Fixpoint dict_get (k : pyval) (d : list (pyval * pyval)) : res (option pyval) :=
  match d with
  | [] => Ok None
  | (k', v) :: rest =>
      let* e := eq k' k in
      if e then Ok (Some v) else dict_get k rest
  end.

Fixpoint dict_eq_items (xs ys : list (pyval * pyval)) : res bool :=
  match xs with
  | [] => Ok true
  | (k, v) :: xs' =>
      let* found := dict_get k ys in
      match found with
      | None => Ok false
      | Some w =>
          let* e := eq v w in
          if e then dict_eq_items xs' ys else Ok false
      end
  end.

(** [RedisModel.__eq__]:
    [all((getattr(self, k) == getattr(other, k)) for k in fields)] *)
Fixpoint model_eq_fields (self other : pyval) (names : list string) : res bool :=
  match names with
  | [] => Ok true
  | k :: rest =>
      let* a := py_getattr self k in
      let* b := py_getattr other k in
      let* e := eq a b in
      if e then model_eq_fields self other rest else Ok false
  end.

Definition py_eq_step (x y : pyval) : res bool :=
  match x, y with
  | VModel _ fields _, _ => model_eq_fields x y fields
  | _, VModel _ fields _ => model_eq_fields y x fields    (* reflected call *)
  | VNone, VNone => Ok true
  | VStr a, VStr b => Ok (String.eqb a b)
  | VList a, VList b | VTuple a, VTuple b =>
      if Nat.eqb (length a) (length b) then seq_eq a b else Ok false
  | VDict a, VDict b =>
      if Nat.eqb (length a) (length b) then dict_eq_items a b else Ok false
  | VDateTime a, VDateTime b => Ok (datetime_eq a b)
  | VDate a, VDate b => Ok (date_eq a b)
  | VObject c s, VObject c' s' => Ok (String.eqb c c' && String.eqb s s')
  | _, _ =>
      match numeric x, numeric y with
      | Some a, Some b =>
          Ok match xnum_compare a b with Some Eq => true | _ => false end
      | _, _ => Ok false
      end
  end.
End Equality.

Fixpoint py_eq_fuel (fuel : nat) (x y : pyval) : res bool :=
  match fuel with
  | O => Err (Unmodelled "py_eq: depth")
  | S fuel' => py_eq_step (py_eq_fuel fuel') x y
  end.

(** [x == y].  Equal objects are not short-cut by identity: values here
    have no identity. *)
Definition py_eq (x y : pyval) : res bool :=
  py_eq_fuel (pyval_size x + pyval_size y) x y.

(** *** Order: [x < y] and the like *)

Definition compare_Z (a b : Z) : comparison := Z.compare a b.

Section Order.
Variable order : pyval -> pyval -> res (option comparison).

(** Lists and tuples: the first pair of unequal elements decides, else
    the lengths do. *)
Fixpoint seq_order (xs ys : list pyval) : res (option comparison) :=
  match xs, ys with
  | [], [] => Ok (Some Eq)
  | [], _ :: _ => Ok (Some Lt)
  | _ :: _, [] => Ok (Some Gt)
  | x :: xs', y :: ys' =>
      let* e := py_eq x y in
      if e then seq_order xs' ys' else order x y
  end.

Definition py_order_step (x y : pyval) : res (option comparison) :=
  match x, y with
  | VStr a, VStr b => Ok (Some (String.compare a b))
  | VList a, VList b | VTuple a, VTuple b => seq_order a b
  | VDateTime a, VDateTime b =>
      match tzinfo a, tzinfo b with
      | None, None => Ok (Some (Z.compare (wall_clock a) (wall_clock b)))
      | Some oa, Some ob =>
          Ok (Some (Z.compare (wall_clock a - oa * 60000000) (wall_clock b - ob * 60000000)))
      | _, _ => Err TypeError
      end
  | VDate a, VDate b => Ok (Some (Z.compare (toordinal a) (toordinal b)))
  | VDecimal DNaN, _ | _, VDecimal DNaN =>
      match numeric x, numeric y with
      | Some _, Some _ => Err InvalidOperation
      | _, _ => Err TypeError
      end
  | _, _ =>
      match numeric x, numeric y with
      | Some a, Some b => Ok (xnum_compare a b)
      | _, _ => Err TypeError
      end
  end.
End Order.

Fixpoint py_order_fuel (fuel : nat) (x y : pyval) : res (option comparison) :=
  match fuel with
  | O => Err (Unmodelled "py_order: depth")
  | S fuel' => py_order_step (py_order_fuel fuel') x y
  end.

(** The outcome of ordering [x] against [y]: [Ok None] when the two are
    numbers that do not compare (a NaN), [TypeError] when the types do not
    support the order. *)
Definition py_order (x y : pyval) : res (option comparison) :=
  py_order_fuel (pyval_size x) x y.

Definition py_gt (x y : pyval) : res bool :=
  let* c := py_order x y in Ok match c with Some Gt => true | _ => false end.
Definition py_ge (x y : pyval) : res bool :=
  let* c := py_order x y in Ok match c with Some (Gt | Eq) => true | _ => false end.
Definition py_lt (x y : pyval) : res bool :=
  let* c := py_order x y in Ok match c with Some Lt => true | _ => false end.
Definition py_le (x y : pyval) : res bool :=
  let* c := py_order x y in Ok match c with Some (Lt | Eq) => true | _ => false end.

(** ** Text operations *)

Fixpoint is_substring (p s : string) : bool :=
  String.prefix p s ||
  match s with
  | EmptyString => false
  | String _ s' => is_substring p s'
  end.

Definition str_startswith (s p : string) : bool := String.prefix p s.
Definition str_endswith (s p : string) : bool :=
  String.prefix (String.rev p) (String.rev s).

(** [s.split(sep)] for a separator of one or two characters, as the
    program uses it ([':'] and ['__']). *)
Fixpoint split_on (sep : string) (cur : string) (s : string) : list string :=
  match s with
  | EmptyString => [String.rev cur]
  | String c rest =>
      if String.prefix sep s
      then
        match sep, rest with
        | String _ (String _ EmptyString), String _ rest' =>
            String.rev cur :: split_on sep "" rest'
        | _, _ => String.rev cur :: split_on sep "" rest
        end
      else split_on sep (String c cur) rest
  end.

Definition py_split (s sep : string) : list string := split_on sep "" s.

(** [x.lower()]: only text has it. *)
Definition py_lower_val (x : pyval) : res string :=
  match x with
  | VStr s => Ok (py_lower s)
  | _ => Err AttributeError
  end.

(** [x.startswith(y)] and [x.endswith(y)]; [y] is a text or a tuple of
    texts. *)
Definition py_affix (test : string -> string -> bool) (x y : pyval) : res bool :=
  match x with
  | VStr s =>
      match y with
      | VStr p => Ok (test s p)
      | VTuple ps =>
          if forallb (fun p => isinstance1 p TStr) ps
          then Ok (existsb (fun p => match p with VStr q => test s q | _ => false end) ps)
          else Err TypeError
      | _ => Err TypeError
      end
  | _ => Err AttributeError
  end.

(** ** Membership: [x in y] *)

Fixpoint any_eq (x : pyval) (items : list pyval) : res bool :=
  match items with
  | [] => Ok false
  | item :: rest =>
      let* e := py_eq item x in
      if e then Ok true else any_eq x rest
  end.

(** [x in d] and [x in d.keys()] for the items [d] of a dict. *)
Definition dict_has_key (x : pyval) (d : list (pyval * pyval)) : res bool :=
  if hashable x
  then let* found := dict_get py_eq x d in Ok (match found with Some _ => true | None => false end)
  else Err TypeError.

Definition py_in (x y : pyval) : res bool :=
  match y with
  | VStr s =>
      match x with
      | VStr p => Ok (is_substring p s)
      | _ => Err TypeError
      end
  | VList l | VTuple l => any_eq x l
  | VQuerySet _ l => any_eq x l                     (* through [__iter__] *)
  | VDict d => dict_has_key x d
  | VModel _ fields _ =>                            (* [RedisModel.__contains__] *)
      if hashable x
      then Ok (match x with VStr s => mem_string s fields | _ => false end)
      else Err TypeError
  | _ => Err TypeError
  end.

(** [range(y)] takes an [int] (a [bool] is one). *)
Definition range_stop (y : pyval) : res Z :=
  match y with
  | VInt n => Ok n
  | VBool b => Ok (if b then 1 else 0)
  | _ => Err TypeError
  end.

(** The search [range] falls back to for a value that is not an [int]:
    the elements are compared one by one. *)
Fixpoint range_scan (count : nat) (i : Z) (x : pyval) : res bool :=
  match count with
  | O => Ok false
  | S count' =>
      let* e := py_eq (VInt i) x in
      if e then Ok true else range_scan count' (i + 1) x
  end.

(** [x in range(y)] *)
Definition py_in_range (x y : pyval) : res bool :=
  let* n := range_stop y in
  match x with
  | VInt i => Ok ((0 <=? i) && (i <? n))
  | VBool b => let i := if b then 1 else 0 in Ok ((0 <=? i) && (i <? n))
  | _ => range_scan (Z.to_nat n) 0 x
  end.

(** ** [str(v)], which an f-string applies to a value *)

Definition isoformat_date (d : pydate) : string :=
  zero_padded 4 (year d) +:+ "-" +:+ zero_padded 2 (month d) +:+ "-" +:+
  zero_padded 2 (day d).

Definition isoformat_offset (tz : option Z) : string :=
  match tz with
  | None => ""
  | Some off =>
      let a := Z.abs off in
      (if off <? 0 then "-" else "+") +:+
      zero_padded 2 (a / 60) +:+ ":" +:+ zero_padded 2 (a mod 60)
  end.

Definition py_str_datetime (dt : pydatetime) : string :=
  isoformat_date (date_of dt) +:+ " " +:+
  zero_padded 2 (hour dt) +:+ ":" +:+ zero_padded 2 (minute dt) +:+ ":" +:+
  zero_padded 2 (second dt) +:+
  (if microsecond dt =? 0 then "" else "." +:+ zero_padded 6 (microsecond dt)) +:+
  isoformat_offset (tzinfo dt).

(** The text of a float, of a Decimal, of a container and of an instance
    (which shows its address) are not part of the model. *)
Definition py_str (v : pyval) : res string :=
  match v with
  | VNone => Ok "None"
  | VBool b => Ok (if b then "True" else "False")
  | VInt z => Ok (py_str_of_int z)
  | VStr s => Ok s
  | VDateTime dt => Ok (py_str_datetime dt)
  | VDate d => Ok (isoformat_date d)
  | VObject _ text => Ok text
  | VFloat (S754_zero neg) => Ok (if neg then "-0.0" else "0.0")
  | VFloat (S754_infinity neg) => Ok (if neg then "-inf" else "inf")
  | VFloat S754_nan => Ok "nan"
  | VFloat _ => Err (Unmodelled "text of a float")
  | VDecimal _ => Err (Unmodelled "text of a Decimal")
  | _ => Err (Unmodelled "text of a container or an instance")
  end.

(** ** The [json] module: [json.dumps] and [json.loads]

    Text is a sequence of code points below 256.  [dumps] writes with the
    default separators and [ensure_ascii]; [loads] reads in strict mode. *)

(** The double quote. *)
Definition dquote : ascii := ascii_of_nat 34.

Definition hex_digit (n : nat) : ascii :=
  ascii_of_nat (if (n <? 10)%nat then 48 + n else 87 + n).

Definition json_escape_char (c : ascii) : string :=
  let n := nat_of_ascii c in
  if Ascii.eqb c dquote then String "\" (String dquote "")
  else if Ascii.eqb c "\" then "\\"
  else if (n =? 10)%nat then "\n"
  else if (n =? 13)%nat then "\r"
  else if (n =? 9)%nat then "\t"
  else if (n =? 8)%nat then "\b"
  else if (n =? 12)%nat then "\f"
  else if ((n <? 32) || (126 <? n))%nat
  then "\u00" +:+ String (hex_digit (n / 16)) (String (hex_digit (n mod 16)) "")
  else String c "".

Fixpoint json_escape (s : string) : string :=
  match s with
  | EmptyString => ""
  | String c rest => json_escape_char c +:+ json_escape rest
  end.

Definition json_quote (s : string) : string :=
  String dquote (json_escape s +:+ String dquote "").

(** The text of a float in JSON; that of a finite float other than zero
    (its shortest decimal form) is not part of the model. *)
Definition json_float (f : spec_float) : res string :=
  match f with
  | S754_nan => Ok "NaN"
  | S754_infinity neg => Ok (if neg then "-Infinity" else "Infinity")
  | S754_zero neg => Ok (if neg then "-0.0" else "0.0")
  | S754_finite _ _ _ => Err (Unmodelled "text of a float")
  end.

(** A key of a dict as JSON writes it: text, or a number, a boolean or
    [None] turned to text; any other key is a [TypeError]. *)
Definition json_key (k : pyval) : res string :=
  match k with
  | VStr s => Ok s
  | VBool b => Ok (if b then "true" else "false")
  | VInt z => Ok (py_str_of_int z)
  | VNone => Ok "null"
  | VFloat f => json_float f
  | _ => Err TypeError
  end.

Section Dumps.
Variable dumps : pyval -> res string.

Fixpoint dumps_items (first : bool) (items : list pyval) : res string :=
  match items with
  | [] => Ok ""
  | v :: rest =>
      let* t := dumps v in
      let* ts := dumps_items false rest in
      Ok ((if first then "" else ", ") +:+ t +:+ ts)
  end.

Fixpoint dumps_members (first : bool) (items : list (pyval * pyval)) : res string :=
  match items with
  | [] => Ok ""
  | (k, v) :: rest =>
      let* kt := json_key k in
      let* t := dumps v in
      let* ts := dumps_members false rest in
      Ok ((if first then "" else ", ") +:+ json_quote kt +:+ ": " +:+ t +:+ ts)
  end.

Definition json_dumps_step (v : pyval) : res string :=
  match v with
  | VNone => Ok "null"
  | VBool b => Ok (if b then "true" else "false")
  | VInt z => Ok (py_str_of_int z)
  | VFloat f => json_float f
  | VStr s => Ok (json_quote s)
  | VList l | VTuple l => let* t := dumps_items true l in Ok ("[" +:+ t +:+ "]")
  | VDict d => let* t := dumps_members true d in Ok ("{" +:+ t +:+ "}")
  | _ => Err TypeError      (* not JSON serializable *)
  end.
End Dumps.

Fixpoint json_dumps_fuel (fuel : nat) (v : pyval) : res string :=
  match fuel with
  | O => Err (Unmodelled "json.dumps: depth")
  | S fuel' => json_dumps_step (json_dumps_fuel fuel') v
  end.

Definition json_dumps (v : pyval) : res string :=
  json_dumps_fuel (pyval_size v) v.

(** *** Reading *)

Definition is_json_space (c : ascii) : bool :=
  let n := nat_of_ascii c in
  ((n =? 32) || (n =? 9) || (n =? 10) || (n =? 13))%nat.

Fixpoint skip_ws (s : string) : string :=
  match s with
  | String c rest => if is_json_space c then skip_ws rest else s
  | EmptyString => s
  end.

Definition hex_value (c : ascii) : option Z :=
  let n := Z.of_nat (nat_of_ascii c) in
  if (48 <=? n) && (n <=? 57) then Some (n - 48)
  else if (97 <=? n) && (n <=? 102) then Some (n - 87)
  else if (65 <=? n) && (n <=? 70) then Some (n - 55)
  else None.

(** The body of a string literal, after the opening quote; [acc] holds the
    characters read so far, last first. *)
Fixpoint read_json_string (acc : string) (s : string) : res (string * string) :=
  match s with
  | EmptyString => Err JSONDecodeError
  | String c rest =>
      if Ascii.eqb c dquote then Ok (String.rev acc, rest)
      else if Ascii.eqb c "\" then
        match rest with
        | String e rest' =>
            let simple (ch : nat) := read_json_string (String (ascii_of_nat ch) acc) rest' in
            if Ascii.eqb e dquote then simple 34%nat
            else if Ascii.eqb e "\" then simple 92%nat
            else if Ascii.eqb e "/" then simple 47%nat
            else if Ascii.eqb e "b" then simple 8%nat
            else if Ascii.eqb e "f" then simple 12%nat
            else if Ascii.eqb e "n" then simple 10%nat
            else if Ascii.eqb e "r" then simple 13%nat
            else if Ascii.eqb e "t" then simple 9%nat
            else if Ascii.eqb e "u" then
              match rest' with
              | String h1 (String h2 (String h3 (String h4 rest''))) =>
                  match hex_value h1, hex_value h2, hex_value h3, hex_value h4 with
                  | Some a, Some b, Some c', Some d =>
                      if (a =? 0) && (b =? 0)
                      then read_json_string
                             (String (ascii_of_nat (Z.to_nat (c' * 16 + d))) acc) rest''
                      else Err (Unmodelled "code point above 255")
                  | _, _, _, _ => Err JSONDecodeError
                  end
              | _ => Err JSONDecodeError
              end
            else Err JSONDecodeError
        | EmptyString => Err JSONDecodeError
        end
      else if (nat_of_ascii c <? 32)%nat then Err JSONDecodeError
      else read_json_string (String c acc) rest
  end.

(** A maximal run of digits: its value, its length and the rest. *)
Fixpoint read_all_digits (acc : Z) (count : Z) (s : string) : Z * Z * string :=
  match s with
  | String c rest =>
      match digit_value c with
      | Some d => read_all_digits (acc * 10 + d) (count + 1) rest
      | None => (acc, count, s)
      end
  | EmptyString => (acc, count, s)
  end.

(** The integer part of a JSON number: a zero, or digits that do not start
    with a zero. *)
Definition read_json_int (s : string) : option (Z * string) :=
  match s with
  | String "0" rest => Some (0, rest)
  | _ =>
      match read_all_digits 0 0 s with
      | (_, 0, _) => None
      | (v, _, rest) => Some (v, rest)
      end
  end.

(** An optional fraction [.digits]: the digits as a number and their count. *)
Definition read_json_frac (s : string) : option (Z * Z * string) :=
  match s with
  | String "." rest =>
      match read_all_digits 0 0 rest with
      | (_, 0, _) => None
      | r => Some r
      end
  | _ => None
  end.

(** An optional exponent [e+digits]. *)
Definition read_json_exp (s : string) : option (Z * string) :=
  match s with
  | String c rest =>
      if Ascii.eqb c "e" || Ascii.eqb c "E" then
        let '(neg, rest1) :=
          match rest with
          | String "-" r => (true, r)
          | String "+" r => (false, r)
          | _ => (false, rest)
          end in
        match read_all_digits 0 0 rest1 with
        | (_, 0, _) => None
        | (v, _, rest2) => Some (if neg then - v else v, rest2)
        end
      else None
  | EmptyString => None
  end.

(** The float nearest to [coef * 10 ^ exp], with the sign kept on a zero. *)
Definition float_of_literal (neg : bool) (coef exp : Z) : spec_float :=
  if coef =? 0 then S754_zero neg
  else float_of_decimal (DFinite (if neg then - coef else coef) exp).

(** A number: an [int] unless a fraction or an exponent is written. *)
Definition read_json_number (s : string) : option (pyval * string) :=
  let '(neg, s0) := match s with String "-" r => (true, r) | _ => (false, s) end in
  match read_json_int s0 with
  | None => None
  | Some (ip, s1) =>
      let '(fp, fn, s2, has_frac) :=
        match read_json_frac s1 with
        | Some (v, n, r) => (v, n, r, true)
        | None => (0, 0, s1, false)
        end in
      let '(ex, s3, has_exp) :=
        match read_json_exp s2 with
        | Some (e, r) => (e, r, true)
        | None => (0, s2, false)
        end in
      if has_frac || has_exp
      then Some (VFloat (float_of_literal neg (ip * 10 ^ fn + fp) (ex - fn)), s3)
      else Some (VInt (if neg then - ip else ip), s3)
  end.

(** [d[k] = v] on the items of a dict with text keys. *)
Fixpoint dict_set (k : string) (v : pyval) (d : list (pyval * pyval)) : list (pyval * pyval) :=
  match d with
  | [] => [(VStr k, v)]
  | (VStr k', v') :: rest =>
      if String.eqb k k' then (VStr k', v) :: rest else (VStr k', v') :: dict_set k v rest
  | kv :: rest => kv :: dict_set k v rest
  end.

Definition read_literal (word : string) (v : pyval) (s : string) : res (pyval * string) :=
  if String.prefix word s
  then Ok (v, String.substring (String.length word) (String.length s - String.length word) s)
  else Err JSONDecodeError.

(** One value at the start of [s]; the elements of an array after its
    bracket; the members of an object after its brace. *)
Fixpoint read_json_value (fuel : nat) (s : string) {struct fuel} : res (pyval * string) :=
  match fuel with
  | O => Err (Unmodelled "json.loads: depth")
  | S fuel' =>
      match s with
      | String c rest =>
          if Ascii.eqb c dquote then
            let* (t, rest') := read_json_string "" rest in Ok (VStr t, rest')
          else if Ascii.eqb c "[" then
            match skip_ws rest with
            | String "]" rest' => Ok (VList [], rest')
            | rest' => read_json_elements fuel' [] rest'
            end
          else if Ascii.eqb c "{" then
            match skip_ws rest with
            | String "}" rest' => Ok (VDict [], rest')
            | rest' => read_json_members fuel' [] rest'
            end
          else if Ascii.eqb c "n" then read_literal "null" VNone s
          else if Ascii.eqb c "t" then read_literal "true" (VBool true) s
          else if Ascii.eqb c "f" then read_literal "false" (VBool false) s
          else if Ascii.eqb c "N" then read_literal "NaN" (VFloat S754_nan) s
          else if Ascii.eqb c "I" then read_literal "Infinity" (VFloat (S754_infinity false)) s
          else if String.prefix "-Infinity" s
          then read_literal "-Infinity" (VFloat (S754_infinity true)) s
          else
            match read_json_number s with
            | Some r => Ok r
            | None => Err JSONDecodeError
            end
      | EmptyString => Err JSONDecodeError
      end
  end
with read_json_elements (fuel : nat) (acc : list pyval) (s : string) {struct fuel}
  : res (pyval * string) :=
  match fuel with
  | O => Err (Unmodelled "json.loads: depth")
  | S fuel' =>
      let* (v, rest) := read_json_value fuel' s in
      match skip_ws rest with
      | String "]" rest' => Ok (VList (rev (v :: acc)), rest')
      | String "," rest' => read_json_elements fuel' (v :: acc) (skip_ws rest')
      | _ => Err JSONDecodeError
      end
  end
with read_json_members (fuel : nat) (acc : list (pyval * pyval)) (s : string) {struct fuel}
  : res (pyval * string) :=
  match fuel with
  | O => Err (Unmodelled "json.loads: depth")
  | S fuel' =>
      match s with
      | String c rest =>
          if Ascii.eqb c dquote then
            let* (k, rest1) := read_json_string "" rest in
            match skip_ws rest1 with
            | String ":" rest2 =>
                let* (v, rest3) := read_json_value fuel' (skip_ws rest2) in
                let acc' := dict_set k v acc in
                match skip_ws rest3 with
                | String "}" rest4 => Ok (VDict acc', rest4)
                | String "," rest4 => read_json_members fuel' acc' (skip_ws rest4)
                | _ => Err JSONDecodeError
                end
            | _ => Err JSONDecodeError
            end
          else Err JSONDecodeError
      | EmptyString => Err JSONDecodeError
      end
  end.

(** [json.loads(s)]: one value, with blanks around it and nothing else. *)
Definition json_loads (s : string) : res pyval :=
  let* (v, rest) := read_json_value (3 * String.length s + 3) (skip_ws s) in
  match skip_ws rest with
  | EmptyString => Ok v
  | _ => Err JSONDecodeError
  end.

(** ** Conversions: [float(s)], [int(v)], [decimal.Decimal(v)] *)

(** A decimal literal: sign, digits with an optional point, optional
    exponent.  Gives the sign, the coefficient and the power of ten. *)
Definition read_decimal_literal (s : string) : option (bool * Z * Z) :=
  let '(neg, s0) :=
    match s with
    | String "-" r => (true, r)
    | String "+" r => (false, r)
    | _ => (false, s)
    end in
  let '(ip, ilen, s1) := read_all_digits 0 0 s0 in
  let '(fp, flen, s2) :=
    match s1 with
    | String "." r => read_all_digits 0 0 r
    | _ => (0, 0, s1)
    end in
  if ilen + flen =? 0 then None
  else
    let '(ex, s3) :=
      match read_json_exp s2 with
      | Some (e, r) => (e, r)
      | None => (0, s2)
      end in
    match s3 with
    | EmptyString => Some (neg, ip * 10 ^ flen + fp, ex - flen)
    | _ => None
    end.

Definition unsigned_lower (s : string) : bool * string :=
  match s with
  | String "-" r => (true, py_lower r)
  | String "+" r => (false, py_lower r)
  | _ => (false, py_lower s)
  end.

(** [float(s)] for a text [s]. *)
Definition py_float_of_str (s : string) : res spec_float :=
  let '(neg, low) := unsigned_lower s in
  if String.eqb low "inf" || String.eqb low "infinity" then Ok (S754_infinity neg)
  else if String.eqb low "nan" then Ok S754_nan
  else
    match read_decimal_literal s with
    | Some (neg, coef, exp) => Ok (float_of_literal neg coef exp)
    | None =>
        if has_lenient_char s
        then Err (Unmodelled "float(): blanks, a plus sign or underscores")
        else Err ValueError
    end.

(** The integer part of [c * base ^ e], rounding toward zero. *)
Definition truncate_scaled (base c e : Z) : Z :=
  if 0 <=? e then c * base ^ e else Z.quot c (base ^ (- e)).

(** [int(v)] *)
Definition py_int (v : pyval) : res Z :=
  match v with
  | VBool b => Ok (if b then 1 else 0)
  | VInt z => Ok z
  | VStr s => py_int_of_str s
  | VFloat (S754_zero _) => Ok 0
  | VFloat (S754_finite neg m e) => Ok (truncate_scaled 2 (if neg then Zneg m else Zpos m) e)
  | VFloat (S754_infinity _) => Err OverflowError
  | VFloat S754_nan => Err ValueError
  | VDecimal (DFinite c e) => Ok (truncate_scaled 10 c e)
  | VDecimal (DInfinity _) => Err OverflowError
  | VDecimal DNaN => Err ValueError
  | _ => Err TypeError
  end.

(** [decimal.Decimal(v)] *)
Definition py_decimal (v : pyval) : res pydecimal :=
  match v with
  | VBool b => Ok (DFinite (if b then 1 else 0) 0)
  | VInt z => Ok (DFinite z 0)
  | VFloat f => Ok (decimal_of_float f)
  | VDecimal d => Ok d
  | VStr s =>
      let '(neg, low) := unsigned_lower s in
      if String.eqb low "inf" || String.eqb low "infinity" then Ok (DInfinity neg)
      else if String.eqb low "nan" then Ok DNaN
      else
        match read_decimal_literal s with
        | Some (neg, coef, exp) => Ok (DFinite (if neg then - coef else coef) exp)
        | None =>
            if has_lenient_char s || String.prefix "snan" low
            then Err (Unmodelled "Decimal(): blanks, underscores or a signalling NaN")
            else Err InvalidOperation
        end
  | VTuple _ => Err (Unmodelled "Decimal() of a tuple")
  | _ => Err TypeError
  end.

(** * [redis_models/utils.py] *)

(** [process_prefix]: a prefix that is not a text gives the default one;
    colons are taken out. *)
Fixpoint remove_colons (s : string) : string :=
  match s with
  | EmptyString => EmptyString
  | String c rest => if Ascii.eqb c ":" then remove_colons rest else String c (remove_colons rest)
  end.

Definition process_prefix (prefix : pyval) : string :=
  match prefix with
  | VStr s => if is_substring ":" s then remove_colons s else s
  | _ => "redis_test"
  end.

(** [validate_type(value, allowed_types)]: a falsy value of any type, or an
    instance of one of the types, is returned; anything else raises a bare
    [Exception].  (The message names the value and the types.) *)
Definition validate_type (value : pyval) (allowed_types : list pytype) : res pyval :=
  if negb (truthy value) || isinstance value allowed_types
  then Ok value
  else Err (PyException "value has a type that is not allowed").

(** [exec_if_callable]: a function or builtin is called, anything else is
    returned as it is. *)
Definition exec_if_callable (value : pyval) : pyval :=
  match value with
  | VFunc result => result
  | _ => value
  end.

(** * [redis_models/fields.py] *)

(** [get_ids_from_untyped_data]: the ids of one instance or of a list or
    tuple of instances.  (A [set] is not among the values modelled.) *)
Fixpoint ids_of (instances : list pyval) : res (list pyval) :=
  match instances with
  | [] => Ok []
  | i :: rest =>
      let* id := py_getattr i "id" in
      let* ids := ids_of rest in
      Ok (id :: ids)
  end.

Definition get_ids_from_untyped_data (instances : pyval) : res pyval :=
  match instances with
  | VModel _ _ _ => let* id := py_getattr instances "id" in Ok (VList [id])
  | VList l | VTuple l =>
      match l with
      | [] => Err IndexError                        (* [instances[0]] *)
      | first :: _ =>
          if isinstance1 first TRedisModel
          then let* ids := ids_of l in Ok (VList ids)
          else Err (RedisModelsException "Can't get ids")
      end
  | _ => Err (RedisModelsException "Can't get ids")
  end.

(** The field classes; the comments give the base class. *)
Inductive field_class : Type :=
| RedisField
| RedisString        (* RedisField *)
| RedisNumber        (* RedisField *)
| RedisId            (* RedisNumber *)
| RedisBool          (* RedisNumber *)
| RedisDecimal       (* RedisField *)
| RedisJson          (* RedisField *)
| RedisDict          (* RedisJson *)
| RedisList          (* RedisJson *)
| RedisDateTime      (* RedisField *)
| RedisDate          (* RedisField *)
| RedisForeignKey    (* RedisField *)
| RedisManyToMany.   (* RedisList *)

(** A field object.  [f_allowed_types] is used by [RedisJson] and its
    subclasses, [f_model] (the name of the model class referred to) by the
    two relation classes. *)
Record redis_field : Type := {
  f_class : field_class;
  f_default : pyval;
  f_value : pyval;
  f_choices : pyval;
  f_null : bool;
  f_allowed_types : list pytype;
  f_model : string
}.

Definition set_value (self : redis_field) (v : pyval) : redis_field :=
  {| f_class := f_class self; f_default := f_default self; f_value := v;
     f_choices := f_choices self; f_null := f_null self;
     f_allowed_types := f_allowed_types self; f_model := f_model self |}.

Definition JSON_TYPES : list pytype := [TDict; TList].

(** The constructors: [RedisField.__init__] checks [choices]; [RedisId]
    forces [null=False], [RedisBool] its two choices, [RedisDict] and
    [RedisList] their allowed type.  ([validate_model], which refuses a
    reference to a class that is no model, has no counterpart: [model] is
    the name of a model class.) *)
Definition new_field (c : field_class) (default choices : pyval) (null : bool)
    (model : string) : res redis_field :=
  let choices :=
    match c with
    | RedisBool => VDict [(VBool true, VStr "Yes"); (VBool false, VStr "No")]
    | _ => choices
    end in
  let null := match c with RedisId => false | _ => null end in
  let default :=                    (* a reference calls its arguments at once *)
    match c with RedisForeignKey => exec_if_callable default | _ => default end in
  let allowed :=
    match c with
    | RedisJson => JSON_TYPES
    | RedisDict => [TDict]
    | RedisList | RedisManyToMany => [TList]
    | _ => []
    end in
  let* choices := validate_type (exec_if_callable choices) [TDict] in
  Ok {| f_class := c; f_default := default; f_value := VNone;
        f_choices := choices; f_null := null;
        f_allowed_types := allowed; f_model := model |}.

(** [copy]: a new object of the same class from [default], [choices] and
    [null] (and [model] for a relation); the value starts as [None]. *)
Definition copy (self : redis_field) : res redis_field :=
  new_field (f_class self) (f_default self) (f_choices self) (f_null self) (f_model self).

(** The keys of [self.choices], for the test and for the message. *)
Definition all_text (keys : list pyval) : bool :=
  forallb (fun k => isinstance1 k TStr) keys.

(** [RedisField.check_value].  The message of the choice error joins the
    keys of [choices] with [", ".join], which needs every key to be text. *)
Definition check_value (self : redis_field) : res pyval * redis_field :=
  let self :=
    if is_none (f_value self)
    then set_value self (exec_if_callable (f_default self))
    else self in
  if is_none (f_value self) && negb (f_null self)
  then (Err (RedisModelsException "null is not allowed"), self)
  else if truthy (f_value self) && truthy (f_choices self)
  then
    match f_choices self with
    | VDict items =>
        match dict_has_key (f_value self) items with
        | Err e => (Err e, self)
        | Ok true => (Ok (f_value self), self)
        | Ok false =>
            if all_text (map fst items)
            then (Err (RedisModelsException "value is not allowed. Allowed values: ..."), self)
            else (Err TypeError, self)
        end
    | _ => (Err AttributeError, self)               (* no [keys] *)
    end
  else (Ok (f_value self), self).

(** *** [clean] *)

Definition RedisField_clean (self : redis_field) : res pyval * redis_field :=
  match check_value self with
  | (Ok v, self) => (Ok v, set_value self v)
  | (Err e, self) => (Err e, self)
  end.

Definition RedisString_clean (self : redis_field) : res pyval * redis_field :=
  match RedisField_clean self with
  | (Err e, self) => (Err e, self)
  | (Ok v, self) =>
      let self := set_value self v in
      if is_none (f_value self) then (Ok (f_value self), self)
      else
        match py_str (f_value self) with
        | Err e => (Err e, self)
        | Ok text => (Ok (VStr text), set_value self (VStr text))
        end
  end.

Definition RedisNumber_clean (self : redis_field) : res pyval * redis_field :=
  match RedisField_clean self with
  | (Err e, self) => (Err e, self)
  | (Ok v, self) =>
      let self := set_value self v in
      (validate_type (f_value self) [TInt; TFloat], self)
  end.

Definition RedisBool_clean (self : redis_field) : res pyval * redis_field :=
  match RedisNumber_clean self with
  | (Err e, self) => (Err e, self)
  | (Ok v, self) =>
      let self := set_value self v in
      if is_none (f_value self) then (Ok (f_value self), self)
      else
        match (let* b := validate_type (f_value self) [TBool] in py_int b) with
        | Err e => (Err e, self)
        | Ok z => (Ok (VInt z), set_value self (VInt z))
        end
  end.

Definition RedisDecimal_clean (self : redis_field) : res pyval * redis_field :=
  match RedisField_clean self with
  | (Err e, self) => (Err e, self)
  | (Ok v, self) =>
      let self := set_value self v in
      let self :=
        match f_value self with
        | VDecimal d => set_value self (VFloat (float_of_decimal d))
        | _ => self
        end in
      (validate_type (f_value self) [TInt; TFloat; TDecimal], self)
  end.

Definition RedisJson_clean (self : redis_field) : res pyval * redis_field :=
  match RedisField_clean self with
  | (Err e, self) => (Err e, self)
  | (Ok v, self) =>
      let self := set_value self v in
      if is_none (f_value self) then (Ok (f_value self), self)
      else
        match (let* checked := validate_type (f_value self) (f_allowed_types self) in
               json_dumps (f_value self)) with
        | Err e => (Err e, self)
        | Ok json_string => (Ok (VStr json_string), set_value self (VStr json_string))
        end
  end.

(** [self.value.replace(tzinfo=utc).strftime(...)]; a falsy value of
    another type gets past [validate_type] and has no such method. *)
Definition format_as_utc (v : pyval) : res string :=
  match v with
  | VDateTime dt => Ok (strftime_datetime (replace_tzinfo dt utc))
  | VStr _ => Err TypeError
  | _ => Err AttributeError
  end.

Definition RedisDateTime_clean (self : redis_field) : res pyval * redis_field :=
  match RedisField_clean self with
  | (Err e, self) => (Err e, self)
  | (Ok v, self) =>
      let self := set_value self v in
      if is_none (f_value self) then (Ok (f_value self), self)
      else
        match (let* checked := validate_type (f_value self) [TDateTime] in
               format_as_utc (f_value self)) with
        | Err e => (Err e, self)
        | Ok string_datetime =>
            (Ok (VStr string_datetime), set_value self (VStr string_datetime))
        end
  end.

Definition format_date (v : pyval) : res string :=
  match v with
  | VDate d => Ok (strftime_date d)
  | VDateTime dt => Ok (strftime_date (date_of dt))
  | _ => Err AttributeError
  end.

Definition RedisDate_clean (self : redis_field) : res pyval * redis_field :=
  match RedisField_clean self with
  | (Err e, self) => (Err e, self)
  | (Ok v, self) =>
      let self := set_value self v in
      if is_none (f_value self) then (Ok (f_value self), self)
      else
        match (let* checked := validate_type (f_value self) [TDate] in
               format_date (f_value self)) with
        | Err e => (Err e, self)
        | Ok string_date => (Ok (VStr string_date), set_value self (VStr string_date))
        end
  end.

Definition RedisForeignKey_clean (self : redis_field) : res pyval * redis_field :=
  if is_none (f_value self) then RedisField_clean self
  else
    match py_getattr (f_value self) "id" with
    | Err e => (Err e, self)
    | Ok id => RedisField_clean (set_value self id)
    end.

Definition RedisManyToMany_clean (self : redis_field) : res pyval * redis_field :=
  if is_none (f_value self) then RedisJson_clean self
  else
    match get_ids_from_untyped_data (f_value self) with
    | Err e => (Err e, self)
    | Ok ids => RedisJson_clean (set_value self ids)
    end.

(** [field.clean()]: the method of the field's class.  It returns the
    serialized value, or raises, and in both cases may have changed
    [self.value]. *)
Definition clean (self : redis_field) : res pyval * redis_field :=
  match f_class self with
  | RedisField => RedisField_clean self
  | RedisString => RedisString_clean self
  | RedisNumber | RedisId => RedisNumber_clean self
  | RedisBool => RedisBool_clean self
  | RedisDecimal => RedisDecimal_clean self
  | RedisJson | RedisDict | RedisList => RedisJson_clean self
  | RedisDateTime => RedisDateTime_clean self
  | RedisDate => RedisDate_clean self
  | RedisForeignKey => RedisForeignKey_clean self
  | RedisManyToMany => RedisManyToMany_clean self
  end.

(** *** [deserialize_value] *)

Definition RedisField_deserialize_value (self : redis_field) (value : pyval)
    (ignore_deserialization_errors : bool) : res pyval :=
  if is_none value && negb (f_null self)
  then
    if negb ignore_deserialization_errors
    then Err (RedisModelsException "None can not be deserialized")
    else Ok value
  else Ok value.

Definition RedisString_deserialize_value (self : redis_field) (value : pyval)
    (ignore_deserialization_errors : bool) : res pyval :=
  let* value := RedisField_deserialize_value self value ignore_deserialization_errors in
  if is_none value then Ok value
  else let* text := py_str value in Ok (VStr text).

Definition RedisNumber_deserialize_value (self : redis_field) (value : pyval)
    (ignore_errors : bool) : res pyval :=
  let* value := RedisField_deserialize_value self value ignore_errors in
  let* value :=
    match value with
    | VStr s =>
        if is_substring "." s
        then let* f := py_float_of_str s in Ok (VFloat f)
        else let* z := py_int_of_str s in Ok (VInt z)
    | _ => Ok value
    end in
  validate_type value [TInt; TFloat].

Definition RedisBool_deserialize_value (self : redis_field) (value : pyval)
    (ignore_errors : bool) : res pyval :=
  let* value := RedisNumber_deserialize_value self value ignore_errors in
  if is_none value then Ok value
  else let* checked := validate_type value [TInt] in Ok (VBool (truthy checked)).

Definition RedisDecimal_deserialize_value (self : redis_field) (value : pyval)
    (ignore_deserialization_errors : bool) : res pyval :=
  let* value := RedisField_deserialize_value self value ignore_deserialization_errors in
  if is_none value then Ok value
  else let* d := py_decimal value in Ok (VDecimal d).

(** [json.loads(value)]: anything but text is a [TypeError]. *)
Definition json_loads_val (value : pyval) : res pyval :=
  match value with
  | VStr s => json_loads s
  | _ => Err TypeError
  end.

Definition RedisJson_deserialize_value (self : redis_field) (value : pyval)
    (ignore_deserialization_errors : bool) : res pyval :=
  let* value := RedisField_deserialize_value self value ignore_deserialization_errors in
  if is_none value then Ok value
  else
    let* checked := validate_type value [TStr] in
    let* value := json_loads_val value in
    let* checked := validate_type value (f_allowed_types self) in
    Ok value.

Definition strptime_val (parse : string -> res pydatetime) (value : pyval) : res pydatetime :=
  match value with
  | VStr s => parse s
  | _ => Err TypeError
  end.

Definition RedisDateTime_deserialize_value (self : redis_field) (value : pyval)
    (ignore_deserialization_errors : bool) : res pyval :=
  let* value := RedisField_deserialize_value self value ignore_deserialization_errors in
  if is_none value then Ok value
  else
    let* checked := validate_type value [TStr] in
    let* dt := strptime_val strptime_datetime value in
    Ok (VDateTime (replace_tzinfo dt utc)).

Definition RedisDate_deserialize_value (self : redis_field) (value : pyval)
    (ignore_deserialization_errors : bool) : res pyval :=
  let* value := RedisField_deserialize_value self value ignore_deserialization_errors in
  if is_none value then Ok value
  else
    let* checked := validate_type value [TStr] in
    let* dt := strptime_val strptime_date value in
    Ok (VDate (date_of dt)).

Section Relations.
(** [self.model.objects.query] with keyword filters: the instances of the model
    class named first that pass the filters. *)
Variable query : string -> list (string * pyval) -> fres (list pyval).

Definition RedisForeignKey_deserialize_value (self : redis_field) (value : pyval)
    (ignore_deserialization_errors : bool) : fres pyval :=
  let? value := Some (RedisField_deserialize_value self value ignore_deserialization_errors) in
  if is_none value then Some (Ok VNone)
  else
    let? checked := Some (validate_type value [TInt]) in
    let? found := query (f_model self) [("id", value)] in
    match found with
    | [one] => Some (Ok one)
    | _ => Some (Err (RedisModelsException "Found more than one"))
    end.

Definition RedisManyToMany_deserialize_value (self : redis_field) (value : pyval)
    (ignore_deserialization_errors : bool) : fres pyval :=
  let? value := Some (RedisJson_deserialize_value self value ignore_deserialization_errors) in
  if is_none value then Some (Ok value)
  else
    let? instances := query (f_model self) [("id__in", value)] in
    Some (Ok (VQuerySet (f_model self) instances)).

(** [field.deserialize_value(value, ignore)]: the method of the field's
    class. *)
Definition deserialize_value (self : redis_field) (value : pyval) (ignore : bool)
  : fres pyval :=
  match f_class self with
  | RedisField => Some (RedisField_deserialize_value self value ignore)
  | RedisString => Some (RedisString_deserialize_value self value ignore)
  | RedisNumber | RedisId => Some (RedisNumber_deserialize_value self value ignore)
  | RedisBool => Some (RedisBool_deserialize_value self value ignore)
  | RedisDecimal => Some (RedisDecimal_deserialize_value self value ignore)
  | RedisJson | RedisDict | RedisList => Some (RedisJson_deserialize_value self value ignore)
  | RedisDateTime => Some (RedisDateTime_deserialize_value self value ignore)
  | RedisDate => Some (RedisDate_deserialize_value self value ignore)
  | RedisForeignKey => RedisForeignKey_deserialize_value self value ignore
  | RedisManyToMany => RedisManyToMany_deserialize_value self value ignore
  end.
End Relations.

(** ** The Redis server, as far as the program uses it *)

Abbreviation store := (gmap string string).

Definition redis_get (key : string) (db : store) : option string := db !! key.
Definition redis_set (key value : string) (db : store) : store := <[key := value]> db.
(** redis-py sends an [int] as its decimal text. *)
Definition redis_set_int (key : string) (value : Z) (db : store) : store :=
  redis_set key (py_str_of_int value) db.

(** A computation that talks to the server and may spin: [None] is "still
    running when the fuel ran out"; an exception keeps the writes made
    before it was raised. *)
Definition io (A : Type) : Type := store -> option (res A * store).

(** ** [BaseRedisManager]: prefix, flags and the advisory lock *)

Record BaseRedisManager : Type := {
  prefix : string;
  ignore_deserialization_errors : bool;
  use_keys : bool;
  non_blocking : bool
}.

Definition lock_key (mgr : BaseRedisManager) : string := "__lock__:" +:+ prefix mgr.

(** [bool(int(self.redis_instance.get(self.__lock_key)))] *)
Definition is_locked (mgr : BaseRedisManager) (db : store) : res bool :=
  match redis_get (lock_key mgr) db with
  | None => Err TypeError
  | Some v => let* z := py_int_of_str v in Ok (negb (z =? 0))
  end.

Definition release_lock (mgr : BaseRedisManager) (db : store) : store :=
  redis_set_int (lock_key mgr) 0 db.

(** [BaseRedisManager.__init__], given a usable connection: the prefix is
    cleaned up and the lock released. *)
Definition new_manager (prefix : pyval) (ignore_errors use_keys non_blocking : bool)
    (db : store) : BaseRedisManager * store :=
  let mgr := {| prefix := process_prefix (exec_if_callable prefix);
                ignore_deserialization_errors := ignore_errors;
                use_keys := use_keys; non_blocking := non_blocking |} in
  (mgr, release_lock mgr db).

(** [while self.is_locked(): pass], then take the lock.  Each unit of fuel
    is one poll of the flag. *)
Fixpoint wait_for_lock (fuel : nat) (mgr : BaseRedisManager) : io unit :=
  fun db =>
    match fuel with
    | O => None
    | S fuel' =>
        match is_locked mgr db with
        | Err e => Some (Err e, db)
        | Ok true => wait_for_lock fuel' mgr db
        | Ok false => Some (Ok tt, redis_set_int (lock_key mgr) 1 db)
        end
    end.

(** ** [RedisModelManager.next_id] *)

(** [cls.max_id_key()] for the model class named [model_name]. *)
Definition max_id_key (mgr : BaseRedisManager) (model_name : string) : string :=
  "max_id:" +:+ prefix mgr +:+ ":" +:+ model_name.

(** [int(stored_max_id or 0)]: a missing key and the empty text count as 0. *)
Definition stored_counter (stored_max_id : option string) : res Z :=
  match stored_max_id with
  | None => Ok 0
  | Some "" => Ok 0
  | Some s => py_int_of_str s
  end.

Definition next_id (fuel : nat) (mgr : BaseRedisManager) (model_name : string) : io Z :=
  fun db =>
    match wait_for_lock fuel mgr db with
    | None => None
    | Some (Err e, db1) => Some (Err e, db1)
    | Some (Ok tt, db1) =>
        let stored_max_id := redis_get (max_id_key mgr model_name) db1 in
        match stored_counter stored_max_id with
        | Err e => Some (Err e, db1)
        | Ok n =>
            let new_id := n + 1 in
            let db2 := redis_set_int (max_id_key mgr model_name) new_id db1 in
            let db3 := release_lock mgr db2 in
            Some (Ok new_id, db3)
        end
    end.

(** *** The same call, one request to the server at a time

    Where a caller of [next_id] stands: about to read the lock flag, to
    set it, to read the counter, to write it, to release the lock; back
    with an id; or stopped by an exception. *)
Inductive progress : Type :=
| Polling
| Locking
| Reading
| Writing (new_id : Z)
| Releasing (new_id : Z)
| Returned (new_id : Z)
| Raised (e : exn).

(** One request of a caller allocating for [model_name]. *)
Definition next_id_step (mgr : BaseRedisManager) (model_name : string)
    (at_ : progress) (db : store) : progress * store :=
  match at_ with
  | Polling =>
      match is_locked mgr db with
      | Err e => (Raised e, db)
      | Ok true => (Polling, db)
      | Ok false => (Locking, db)
      end
  | Locking => (Reading, redis_set_int (lock_key mgr) 1 db)
  | Reading =>
      match stored_counter (redis_get (max_id_key mgr model_name) db) with
      | Err e => (Raised e, db)
      | Ok n => (Writing (n + 1), db)
      end
  | Writing new_id => (Releasing new_id, redis_set_int (max_id_key mgr model_name) new_id db)
  | Releasing new_id => (Returned new_id, release_lock mgr db)
  | Returned _ | Raised _ => (at_, db)
  end.

(** Several callers and the order in which their requests reach the
    server: each entry of [schedule] names the caller that moves next. *)
Fixpoint run_schedule (mgr : BaseRedisManager) (schedule : list nat)
    (callers : list (string * progress)) (db : store) : list (string * progress) * store :=
  match schedule with
  | [] => (callers, db)
  | who :: rest =>
      match nth_error callers who with
      | None => run_schedule mgr rest callers db
      | Some (model_name, at_) =>
          let '(at', db') := next_id_step mgr model_name at_ db in
          run_schedule mgr rest (<[who := (model_name, at')]> callers) db'
      end
  end.

(** A schedule in which every allocation runs its critical section alone:
    the calls happen one after the other, each for some model name.  The
    result lists the model name and the id of every call, in order. *)
Fixpoint allocate_all (fuel : nat) (mgr : BaseRedisManager) (names : list string)
  : io (list (string * Z)) :=
  fun db =>
    match names with
    | [] => Some (Ok [], db)
    | name :: rest =>
        match next_id fuel mgr name db with
        | None => None
        | Some (Err e, db1) => Some (Err e, db1)
        | Some (Ok i, db1) =>
            match allocate_all fuel mgr rest db1 with
            | None => None
            | Some (Err e, db2) => Some (Err e, db2)
            | Some (Ok ids, db2) => Some (Ok ((name, i) :: ids), db2)
            end
        end
    end.

(** The ids issued to [name] in a run, in the order of issue. *)
Definition issued_to (name : string) (ids : list (string * Z)) : list Z :=
  map snd (List.filter (fun p => bool_decide (fst p = name)) ids).

(** The counter of [name] holds a number (or nothing yet). *)
Definition counter_readable (mgr : BaseRedisManager) (db : store) (name : string) : bool :=
  is_ok (stored_counter (redis_get (max_id_key mgr name) db)).

(** The numbers [start], [start + 1], ... ([n] of them). *)
Fixpoint consecutive (start : Z) (n : nat) : list Z :=
  match n with
  | O => []
  | S n' => start :: consecutive (start + 1) n'
  end.

(** ** Model classes and instances *)

(** A subclass of [RedisModel]: its name ([__name__], which the metaclass
    also stores as [model_name]) and what [get_class_fields] returns, in
    the order of [dir]. *)
Record model_class : Type := {
  cls_name : string;
  cls_fields : list (string * redis_field)
}.

(** The manager together with [BaseRedisManager.__registered_models]. *)
Record environment : Type := {
  base_mgr : BaseRedisManager;
  registered_models : list model_class
}.

(** An instance: its class, the attributes set on it and [__fields__],
    its own copies of the fields of the class. *)
Record instance : Type := {
  inst_class : model_class;
  inst_attrs : list (string * pyval);
  inst_fields : list (string * redis_field)
}.

Definition instance_val (self : instance) : pyval :=
  VModel (cls_name (inst_class self)) (map fst (inst_fields self)) (inst_attrs self).

Fixpoint lookup_field (name : string) (fields : list (string * redis_field))
  : option redis_field :=
  match fields with
  | [] => None
  | (k, f) :: rest => if String.eqb k name then Some f else lookup_field name rest
  end.

Fixpoint set_attr (name : string) (v : pyval) (attrs : list (string * pyval))
  : list (string * pyval) :=
  match attrs with
  | [] => [(name, v)]
  | (k, w) :: rest =>
      if String.eqb k name then (k, v) :: rest else (k, w) :: set_attr name v rest
  end.

Fixpoint set_field_value (name : string) (v : pyval) (fields : list (string * redis_field))
  : list (string * redis_field) :=
  match fields with
  | [] => []
  | (k, f) :: rest =>
      if String.eqb k name then (k, set_value f v) :: rest
      else (k, f) :: set_field_value name v rest
  end.

(** [RedisModel.__setattr__]: the attribute is set, and the value of the
    field of that name with it. *)
Definition setattr (self : instance) (key : string) (value : pyval) : instance :=
  {| inst_class := inst_class self;
     inst_attrs := set_attr key value (inst_attrs self);
     inst_fields := set_field_value key value (inst_fields self) |}.

(** [_fill_fields_values] *)
Fixpoint _fill_fields_values (self : instance) (values_dict : list (string * pyval))
  : res instance :=
  match values_dict with
  | [] => Ok self
  | (name, value) :: rest =>
      match lookup_field name (inst_fields self) with
      | None => Err (RedisModelsException "has no field")
      | Some _ => _fill_fields_values (setattr self name value) rest
      end
  end.

Fixpoint copy_fields (fields : list (string * redis_field))
  : res (list (string * redis_field)) :=
  match fields with
  | [] => Ok []
  | (k, f) :: rest =>
      let* f' := copy f in
      let* rest' := copy_fields rest in
      Ok ((k, f') :: rest')
  end.

(** [RedisModel.__init__], called with keyword arguments *)
Definition new_instance (model : model_class) (kwargs : list (string * pyval))
  : res instance :=
  let* fields := copy_fields (cls_fields model) in
  _fill_fields_values
    {| inst_class := model; inst_attrs := []; inst_fields := fields |} kwargs.

(** ** The filter engine *)

Definition FILTER_METHODS : list (string * (pyval -> pyval -> res bool)) :=
  [ ("exact", fun x y => py_eq x y);
    ("iexact", fun x y =>
       let* a := py_lower_val x in let* b := py_lower_val y in Ok (String.eqb a b));
    ("contains", fun x y => py_in x y);
    ("in", fun x y => py_in x y);
    ("gt", fun x y => py_gt x y);
    ("gte", fun x y => py_ge x y);
    ("lt", fun x y => py_lt x y);
    ("lte", fun x y => py_le x y);
    ("startswith", fun x y => py_affix str_startswith x y);
    ("endswith", fun x y => py_affix str_endswith x y);
    ("istartswith", fun x y =>
       let* a := py_lower_val x in let* b := py_lower_val y in Ok (str_startswith a b));
    ("iendswith", fun x y =>
       let* a := py_lower_val x in let* b := py_lower_val y in Ok (str_endswith a b));
    ("range", fun x y => py_in_range x y);
    ("isnull", fun x y => py_eq (VBool (is_none x)) y) ].

Fixpoint lookup_method (name : string) (methods : list (string * (pyval -> pyval -> res bool)))
  : option (pyval -> pyval -> res bool) :=
  match methods with
  | [] => None
  | (k, f) :: rest => if String.eqb k name then Some f else lookup_method name rest
  end.

Definition is_filter_method (name : string) : bool :=
  mem_string name (map fst FILTER_METHODS).

(** [_split_filtering]: the path and the operator of a filter argument.  A
    last part that names no operator belongs to the path. *)
Definition _split_filtering (filter_param : string) : list string * string :=
  let filter_param_split := py_split filter_param "__" in
  if negb (is_filter_method (List.last filter_param_split ""))
  then (filter_param_split, "exact")
  else (removelast filter_param_split, List.last filter_param_split "").

Definition as_utc (v : pyval) : pyval :=
  match v with
  | VDateTime dt => VDateTime (replace_tzinfo dt utc)
  | _ => v
  end.

(** [_filter_value] *)
Definition _filter_value (value : pyval) (filter_type : string) (filter_by : pyval)
  : res bool :=
  match lookup_method filter_type FILTER_METHODS with
  | None => Err (RedisModelsException "Filter not supported")
  | Some method => method value (as_utc filter_by)
  end.

(** The loop of [_filter] over the rest of the path: a [None] is carried
    along; anything else has to be an instance with that attribute. *)
Fixpoint follow_path (value : pyval) (nested_field_names : list string) : res pyval :=
  match nested_field_names with
  | [] => Ok value
  | field_name :: rest =>
      if is_none value then follow_path value rest
      else if negb (isinstance1 value TRedisModel) || negb (py_hasattr value field_name)
      then Err (RedisModelsException "has no field")
      else let* next := py_getattr value field_name in follow_path next rest
  end.

(** [_filter] *)
Definition _filter (value : pyval) (nested_field_names : list string)
    (filter_type : string) (filter_by : pyval) : res bool :=
  let* value := follow_path value nested_field_names in
  let '(value, filter_by) :=
    if isinstance1 value TDateTime && isinstance1 filter_by TDateTime
    then (as_utc value, as_utc filter_by)
    else (value, filter_by) in
  _filter_value value filter_type filter_by.

(** The loop of [_filter_field_name]: one entry of [allowed_list] for each
    filter argument whose path starts with [field_name]. *)
Fixpoint collect_allowed (field_name : string) (value : pyval)
    (raw_filters : list (string * pyval)) : res (list bool) :=
  match raw_filters with
  | [] => Ok []
  | (filter_param, filter_by) :: rest =>
      let '(fields_to_filter, filter_type) := _split_filtering filter_param in
      match fields_to_filter with
      | [] => Err IndexError                          (* [fields_to_filter[0]] *)
      | first :: nested =>
          if String.eqb field_name first
          then
            let* allowed := _filter value nested filter_type filter_by in
            let* others := collect_allowed field_name value rest in
            Ok (allowed :: others)
          else collect_allowed field_name value rest
      end
  end.

(** [_filter_field_name] *)
Definition _filter_field_name (field_name : string) (value : pyval)
    (raw_filters : list (string * pyval)) : res bool :=
  let* allowed_list := collect_allowed field_name value raw_filters in
  Ok (forallb (fun b => b) (true :: allowed_list)).

(** ** Reading instances back *)

(** [_get_registered_model_by_name]: the first registered class of that
    name.  When there is none and errors are ignored, the name itself
    stands in for the class. *)
Inductive owner : Type :=
| OfClass (model : model_class)
| OfInstance (self : instance)
| OfName (model_name : string).

Definition find_model (models : list model_class) (model_name : string)
  : option model_class :=
  List.find (fun m => String.eqb (cls_name m) model_name) models.

Definition _get_registered_model_by_name (env : environment) (model_name : string)
  : res owner :=
  match find_model (registered_models env) model_name with
  | Some model => Ok (OfClass model)
  | None =>
      if negb (ignore_deserialization_errors (base_mgr env))
      then Err (RedisModelsException "not found in registered models")
      else Ok (OfName model_name)
  end.

(** [getattr(model, field_name)] followed by the test that the result is
    a field: [Some f] for a field object, [None] for anything else. *)
Definition class_attribute (model : model_class) (field_name : string)
  : res (option redis_field) :=
  match lookup_field field_name (cls_fields model) with
  | Some f => Ok (Some f)
  | None =>
      if mem_string field_name redis_model_members then Ok None
      else Err AttributeError
  end.

Definition owner_attribute (model : owner) (field_name : string)
  : res (option redis_field) :=
  match model with
  | OfClass c => class_attribute c field_name
  | OfInstance self =>
      match lookup_attr field_name (inst_attrs self) with
      | Some _ => Ok None                 (* the attribute holds a value *)
      | None => class_attribute (inst_class self) field_name
      end
  | OfName _ => Err (Unmodelled "attribute of a text")
  end.

(** The keys [get_keys] returns for the pattern [prefix:name:*], whether
    through [keys] or through [scan_iter]: those that start with
    [prefix:name:].  This is what the server answers when neither the
    prefix nor the name holds a character that a pattern reads as a
    wildcard (a star, a question mark, a square bracket, a backslash); a
    prefix with such a character is outside this model. *)
Definition record_prefix (mgr : BaseRedisManager) (model_name : string) : string :=
  prefix mgr +:+ ":" +:+ model_name +:+ ":".

Definition get_keys (mgr : BaseRedisManager) (model_name : string) (db : store)
  : list (string * string) :=
  List.filter (fun kv => String.prefix (record_prefix mgr model_name) (fst kv))
              (map_to_list db).

Section Query.
Variable env : environment.
Variable db : store.
(** The query engine one level down, for the relations. *)
Variable query : string -> list (string * pyval) -> fres (list pyval).

(** [_deserialize_instance_field] *)
Definition _deserialize_instance_field (model : owner) (field_name : string)
    (raw_value : pyval) : fres pyval :=
  let? redis_field_val := Some (owner_attribute model field_name) in
  match redis_field_val with
  | Some f =>
      deserialize_value query f raw_value (ignore_deserialization_errors (base_mgr env))
  | None => Some (Ok raw_value)
  end.

(** The loop over the fields of one record: [None] when a filter turned
    the record down, else the deserialized fields. *)
Fixpoint read_fields (model : owner) (filters : list (string * pyval))
    (items : list (pyval * pyval)) (tmp_instance : list (string * pyval))
  : fres (option (list (string * pyval))) :=
  match items with
  | [] => Some (Ok (Some tmp_instance))
  | (key, raw_value) :: rest =>
      match key with
      | VStr field_name =>
          let? value := _deserialize_instance_field model field_name raw_value in
          let? allowed := Some (_filter_field_name field_name value filters) in
          if allowed
          then read_fields model filters rest (set_attr field_name value tmp_instance)
          else Some (Ok None)
      | _ => Some (Err (Unmodelled "record key that is not text"))
      end
  end.

(** The body of the loop over the records. *)
Definition read_instance (filters : list (string * pyval)) (instance_key fields_json : string)
  : fres (option instance) :=
  match py_split instance_key ":" with
  | [prefix; model_name; instance_id] =>
      let? model := Some (_get_registered_model_by_name env model_name) in
      let? checked := Some (py_int_of_str instance_id) in
      let? fields_dict := Some (json_loads fields_json) in
      match fields_dict with
      | VDict items =>
          let? tmp_instance := read_fields model filters items [] in
          match tmp_instance with
          | None => Some (Ok None)
          | Some kwargs =>
              match model with
              | OfClass c => let? i := Some (new_instance c kwargs) in Some (Ok (Some i))
              | _ => Some (Err (Unmodelled "call of a text"))
              end
          end
      | _ => Some (Err AttributeError)              (* no [items] *)
      end
  | _ => Some (Err ValueError)                      (* unpacking *)
  end.

Fixpoint read_instances (filters : list (string * pyval)) (raw_instances : list (string * string))
  : fres (list instance) :=
  match raw_instances with
  | [] => Some (Ok [])
  | (instance_key, fields_json) :: rest =>
      let? found := read_instance filters instance_key fields_json in
      let? others := read_instances filters rest in
      Some (Ok (match found with Some i => i :: others | None => others end))
  end.

(** [_get_model_instances] *)
Definition get_model_instances_step (model : model_class) (filters : list (string * pyval))
  : fres (list instance) :=
  read_instances filters (get_keys (base_mgr env) (cls_name model) db).
End Query.

(** [_get_model_instances], with one unit of fuel for each level of
    relations followed. *)
Fixpoint _get_model_instances (fuel : nat) (env : environment) (db : store)
    (model : model_class) (filters : list (string * pyval)) : fres (list instance) :=
  match fuel with
  | O => None
  | S fuel' =>
      get_model_instances_step env db
        (fun model_name filters' =>
           match find_model (registered_models env) model_name with
           | None => Some (Err (Unmodelled "relation to a class that is not registered"))
           | Some target =>
               let? found := _get_model_instances fuel' env db target filters' in
               Some (Ok (map instance_val found))
           end)
        model filters
  end.

(** [BaseRedisManager.query]: the instances of a [RedisQuerySet]. *)
Definition query (fuel : nat) (env : environment) (db : store)
    (model : model_class) (filters : list (string * pyval)) : fres (list instance) :=
  _get_model_instances fuel env db model filters.

(** ** Declaring a model class *)

Fixpoint insert_by_name (kv : string * redis_field) (l : list (string * redis_field))
  : list (string * redis_field) :=
  match l with
  | [] => [kv]
  | kv' :: rest =>
      if String.leb (fst kv) (fst kv') then kv :: l else kv' :: insert_by_name kv rest
  end.

(** [id = RedisId()], which every model class inherits from [RedisModel]. *)
Definition RedisId_field : redis_field :=
  {| f_class := RedisId; f_default := VNone; f_value := VNone; f_choices := VNone;
     f_null := false; f_allowed_types := []; f_model := "" |}.

(** The class statement [class name(RedisModel)] with the given fields:
    [get_class_fields] lists them, and the inherited [id], by name. *)
Definition declare_model (name : string) (declared : list (string * redis_field))
  : model_class :=
  let all :=
    match lookup_field "id" declared with
    | Some _ => declared
    | None => ("id", RedisId_field) :: declared
    end in
  {| cls_name := name; cls_fields := fold_right insert_by_name [] all |}.

(** Whether the record stored as [fields_json] has a field called [name]. *)
Definition record_has_field (name : string) (fields_json : string) : bool :=
  match json_loads fields_json with
  | Ok (VDict items) =>
      existsb (fun kv => match fst kv with VStr k => String.eqb k name | _ => false end) items
  | _ => false
  end.

(** ** Saving an instance *)

(** A method of an instance that talks to the server: the outcome comes
    with the instance and the server as the call left them. *)
Definition method (A : Type) : Type := option (res A * instance * store).

(** [instance_key]: the key of the record, built from the value of the
    [id] field. *)
Definition instance_key (mgr : BaseRedisManager) (self : instance) : res string :=
  match lookup_field "id" (inst_fields self) with
  | None => Err KeyError
  | Some f =>
      let* curr_id := py_str (f_value f) in
      Ok (prefix mgr +:+ ":" +:+ cls_name (inst_class self) +:+ ":" +:+ curr_id)
  end.

(** [self.id is None or fields['id'].value is None] *)
Definition id_is_unset (self : instance) : res bool :=
  let* id := py_getattr (instance_val self) "id" in
  if is_none id then Ok true
  else
    match lookup_field "id" (inst_fields self) with
    | None => Err KeyError
    | Some f => Ok (is_none (f_value f))
    end.

Fixpoint put_field (name : string) (f : redis_field) (fields : list (string * redis_field))
  : list (string * redis_field) :=
  match fields with
  | [] => []
  | (k, g) :: rest =>
      if String.eqb k name then (k, f) :: rest else (k, g) :: put_field name f rest
  end.

(** The field object [field] of [self] after one of its methods changed it. *)
Definition with_field (self : instance) (name : string) (f : redis_field) : instance :=
  {| inst_class := inst_class self; inst_attrs := inst_attrs self;
     inst_fields := put_field name f (inst_fields self) |}.

(** The handler of [_serialize_data]: a [RedisModelsException] is raised
    again with the model and the field named at the end of its message. *)
Definition rewrap (model_name field_name : string) (e : exn) : exn :=
  match e with
  | RedisModelsException msg =>
      RedisModelsException (msg +:+ " (" +:+ model_name +:+ " -> " +:+ field_name +:+ ")")
  | _ => e
  end.

Section Serialize.
Variable env : environment.
Variable db : store.
Variable query : string -> list (string * pyval) -> fres (list pyval).

(** The loop of [_serialize_data] over the fields. *)
Fixpoint serialize_fields (self : instance) (names : list string)
    (cleaned_fields deserialized_fields : list (string * pyval))
  : option (res (list (string * pyval) * list (string * pyval)) * instance) :=
  match names with
  | [] => Some (Ok (cleaned_fields, deserialized_fields), self)
  | field_name :: rest =>
      match lookup_field field_name (inst_fields self) with
      | None => Some (Err KeyError, self)
      | Some field =>
          let model_name := cls_name (inst_class self) in
          match clean field with
          | (Err e, field') =>
              Some (Err (rewrap model_name field_name e), with_field self field_name field')
          | (Ok cleaned_value, field') =>
              let self := with_field self field_name field' in
              match _deserialize_instance_field env query (OfInstance self)
                      field_name cleaned_value with
              | None => None
              | Some (Err e) => Some (Err (rewrap model_name field_name e), self)
              | Some (Ok deserialized_value) =>
                  serialize_fields self rest
                    (set_attr field_name cleaned_value cleaned_fields)
                    (set_attr field_name deserialized_value deserialized_fields)
              end
          end
      end
  end.
End Serialize.

Definition relation_query (fuel : nat) (env : environment) (db : store)
    (model_name : string) (filters : list (string * pyval)) : fres (list pyval) :=
  match find_model (registered_models env) model_name with
  | None => Some (Err (Unmodelled "relation to a class that is not registered"))
  | Some target =>
      let? found := query fuel env db target filters in
      Some (Ok (map instance_val found))
  end.

(** [_serialize_data] *)
Definition _serialize_data (fuel : nat) (env : environment) (self : instance) (db : store)
  : method (string * list (string * pyval) * list (string * pyval)) :=
  match id_is_unset self with
  | Err e => Some (Err e, self, db)
  | Ok unset =>
      let allocated : option (res instance * store) :=
        if unset
        then
          match next_id fuel (base_mgr env) (cls_name (inst_class self)) db with
          | None => None
          | Some (Err e, db') => Some (Err e, db')
          | Some (Ok new_id, db') => Some (Ok (setattr self "id" (VInt new_id)), db')
          end
        else Some (Ok self, db) in
      match allocated with
      | None => None
      | Some (Err e, db) => Some (Err e, self, db)
      | Some (Ok self, db) =>
          match instance_key (base_mgr env) self with
          | Err e => Some (Err e, self, db)
          | Ok key =>
              match serialize_fields env (relation_query fuel env db) self
                      (map fst (inst_fields self)) [] [] with
              | None => None
              | Some (Err e, self) => Some (Err e, self, db)
              | Some (Ok (cleaned_fields, deserialized_fields), self) =>
                  Some (Ok (key, cleaned_fields, deserialized_fields), self, db)
              end
          end
      end
  end.

Definition as_dict (items : list (string * pyval)) : pyval :=
  VDict (map (fun kv => (VStr (fst kv), snd kv)) items).

(** [_save] *)
Definition _save (env : environment) (self : instance) (db : store)
    (key : string) (fields_dict deserialized_fields : list (string * pyval))
  : res unit * instance * store :=
  match py_split key ":" with
  | [prefix; model_name; instance_id] =>
      match py_int_of_str instance_id with
      | Err e => (Err e, self, db)
      | Ok _ =>
          match json_dumps (as_dict fields_dict) with
          | Err e => (Err e, self, db)
          | Ok fields_data =>
              (Ok tt,
               fold_left (fun s kv => setattr s (fst kv) (snd kv)) deserialized_fields self,
               redis_set key fields_data db)
          end
      end
  | _ => (Err ValueError, self, db)
  end.

(** [save].  With [non_blocking] the same [_save] runs inside
    [asyncio.run]. *)
Definition save (fuel : nat) (env : environment) (self : instance) (db : store)
  : method unit :=
  match _serialize_data fuel env self db with
  | None => None
  | Some (Err e, self, db) => Some (Err e, self, db)
  | Some (Ok (key, fields_dict, deserialized_fields), self, db) =>
      Some (_save env self db key fields_dict deserialized_fields)
  end.


(** ** Updating stored records *)

(** The loop of [_update_serialize_fields] over the fields of the stored
    record: a field named in [fields_to_update] is cleaned by the field
    object of the class, holding the new value; any other keeps what the
    record holds. *)
Fixpoint update_fields (model : model_class) (fields_to_update : list (string * pyval))
    (instance_data : list (pyval * pyval)) (serialized_data : list (string * pyval))
  : res (list (string * pyval)) :=
  match instance_data with
  | [] => Ok serialized_data
  | (key, field_data) :: rest =>
      match key with
      | VStr field_name =>
          let* saved_field_instance := class_attribute model field_name in
          let* cleaned_value :=
            match lookup_attr field_name fields_to_update with
            | Some new_value =>
                match saved_field_instance with
                | Some f => fst (clean (set_value f new_value))
                | None => Err AttributeError          (* no [clean] *)
                end
            | None => Ok field_data
            end in
          update_fields model fields_to_update rest
            (set_attr field_name cleaned_value serialized_data)
      | _ => Err (Unmodelled "record key that is not text")
      end
  end.

(** [_update_serialize_fields] *)
Definition _update_serialize_fields (db : store) (key : string) (model : model_class)
    (fields_to_update : list (string * pyval)) : res (list (string * pyval)) :=
  match redis_get key db with
  | None => Err TypeError                             (* [json.loads(None)] *)
  | Some instance_data_json =>
      let* instance_data := json_loads instance_data_json in
      match instance_data with
      | VDict items => update_fields model fields_to_update items []
      | _ => Err AttributeError                       (* no [items] *)
      end
  end.

(** The loop of [update] over the instances: the new text of every
    record, and the dicts that replace the instances in the result. *)
Fixpoint update_each (mgr : BaseRedisManager) (db : store) (model : model_class)
    (fields_to_update : list (string * pyval)) (updated_instances : list instance)
  : res (list (string * string) * list (list (string * pyval))) :=
  match updated_instances with
  | [] => Ok ([], [])
  | self :: rest =>
      let* key := instance_key mgr self in
      let* fields_to_write := _update_serialize_fields db key model fields_to_update in
      let* text := json_dumps (as_dict fields_to_write) in
      let* (collected, dicts) := update_each mgr db model fields_to_update rest in
      Ok ((key, text) :: collected, fields_to_write :: dicts)
  end.

(** [mset]: the server refuses an empty mapping. *)
Definition redis_mset (data : list (string * string)) (db : store) : res store :=
  match data with
  | [] => Err ResponseError
  | _ => Ok (fold_left (fun d kv => redis_set (fst kv) (snd kv) d) data db)
  end.

(** [BaseRedisManager.update].  [instances] is [None], or the instances
    given (one instance counts as a list of one).  Instances that are all
    of the class are updated as they are; otherwise their ids select the
    stored records; without instances every stored record is updated.
    The instances themselves are not changed. *)
Definition update (fuel : nat) (env : environment) (model : model_class)
    (instances : option (list instance)) (fields_to_update : list (string * pyval))
    (db : store) : option (res (list (list (string * pyval))) * store) :=
  let selected : fres (list instance) :=
    match instances with
    | None => query fuel env db model []
    | Some given =>
        if forallb (fun i => String.eqb (cls_name (inst_class i)) (cls_name model)) given
        then Some (Ok given)
        else
          match get_ids_from_untyped_data (VList (map instance_val given)) with
          | Err e => Some (Err e)
          | Ok ids_to_update => query fuel env db model [("id__in", ids_to_update)]
          end
    end in
  match selected with
  | None => None
  | Some (Err e) => Some (Err e, db)
  | Some (Ok updated_instances) =>
      match update_each (base_mgr env) db model fields_to_update updated_instances with
      | Err e => Some (Err e, db)
      | Ok (collected, dicts) =>
          match redis_mset collected db with
          | Err e => Some (Err e, db)
          | Ok db' => Some (Ok dicts, db')
          end
      end
  end.

(** ** Notions used to state the properties *)

(** The character of the decimal digit [k]. *)
Definition digit_char (k : Z) : ascii := ascii_of_nat (48 + Z.to_nat k).

Definition two_digits (z : Z) : string :=
  String (digit_char (z / 10)) (String (digit_char (z mod 10)) "").

Definition four_digits (z : Z) : string :=
  String (digit_char (z / 1000))
    (String (digit_char (z / 100 mod 10))
       (String (digit_char (z / 10 mod 10)) (String (digit_char (z mod 10)) ""))).

(** What [deserialize_value] gives back for the text [clean] made of the
    datetime [dt]: the clock fields of [dt] to the second, tagged UTC. *)
Definition to_the_second_utc (dt : pydatetime) : pydatetime :=
  {| date_of := date_of dt; hour := hour dt; minute := minute dt;
     second := second dt; microsecond := 0; tzinfo := utc |}.

(** The values a field of each kind brings back from its serialized form:
    text for String; numbers for Number; booleans for Boolean; numbers
    other than a NaN for Decimal; an allowed value that survives
    [json.dumps] and [json.loads] for the JSON kinds; a datetime tagged
    UTC with no microseconds for DateTime; a plain date for Date (both
    with a year of four digits). *)
Definition round_trips (self : redis_field) (v : pyval) : Prop :=
  match f_class self with
  | RedisString => isinstance1 v TStr = true
  | RedisNumber => isinstance v [TInt; TFloat] = true
  | RedisBool => isinstance1 v TBool = true
  | RedisDecimal => isinstance v [TInt; TFloat] = true /\ v <> VFloat S754_nan
  | RedisJson | RedisDict | RedisList =>
      isinstance v (f_allowed_types self) = true /\
      exists text, json_dumps v = Ok text /\ json_loads text = Ok v
  | RedisDateTime =>
      exists dt, v = VDateTime dt /\ valid_datetime dt = true /\
                 1000 <= year (date_of dt) /\ microsecond dt = 0 /\ tzinfo dt = utc
  | RedisDate =>
      exists d, v = VDate d /\ valid_date d = true /\ 1000 <= year d
  | _ => False
  end.

(** What comes back is [v] itself, except from a Decimal field, which
    gives the Decimal equal to [v]. *)
Definition comes_back (self : redis_field) (v back : pyval) : Prop :=
  match f_class self with
  | RedisDecimal => isinstance1 back TDecimal = true /\ py_eq back v = Ok true
  | _ => back = v
  end.




Definition is_relation (c : field_class) : bool :=
  match c with
  | RedisForeignKey | RedisManyToMany => true
  | _ => false
  end.

(** No field of the class is a reference to another model. *)
Definition no_relations (model : model_class) : bool :=
  forallb (fun kv => negb (is_relation (f_class (snd kv)))) (cls_fields model).

(** The instance carries the id [i]: as its attribute and as the value of
    its (inherited) [id] field. *)
Definition has_id (i : Z) (self : instance) : Prop :=
  lookup_attr "id" (inst_attrs self) = Some (VInt i) /\
  lookup_field "id" (inst_fields self) = Some (set_value RedisId_field (VInt i)).

(** The instance carries no id yet. *)
Definition has_no_id (self : instance) : Prop :=
  lookup_attr "id" (inst_attrs self) = None /\
  lookup_field "id" (inst_fields self) = Some RedisId_field.

(** Everything the server holds except the lock and the counter of the
    class is the same in [db] and [db']. *)
Definition same_records (mgr : BaseRedisManager) (model_name : string) (db db' : store) : Prop :=
  forall key, key <> lock_key mgr -> key <> max_id_key mgr model_name ->
              redis_get key db' = redis_get key db.


(** Whether the path of a filter argument starts at [field_name]: the
    arguments that [_filter_field_name] evaluates for that field. *)
Definition on_field (field_name : string) (filter_param : string) : bool :=
  match fst (_split_filtering filter_param) with
  | first :: _ => String.eqb field_name first
  | [] => false
  end.

(** Among [items], the entry for [id], if any, holds [i]. *)
Definition id_entry_is (i : Z) (items : list (string * pyval)) : Prop :=
  forall v, In ("id", v) items -> v = VInt i.

(** Among the fields of a stored record, the entry for [id], if any,
    holds [i]. *)
Definition record_id_is (i : Z) (items : list (pyval * pyval)) : Prop :=
  forall v, In (VStr "id", v) items -> v = VInt i.

(** ** Sample data used by the examples below *)

Definition shop_mgr : BaseRedisManager :=
  {| prefix := "shop"; ignore_deserialization_errors := true;
     use_keys := true; non_blocking := false |}.

Definition shop_db : store :=
  <["max_id:shop:Task" := "41"]> {["__lock__:shop" := "0"]}.

Definition field_or_id (r : res redis_field) : redis_field :=
  match r with Ok f => f | Err _ => RedisId_field end.

Definition sample_now : pydatetime :=
  {| date_of := {| year := 2024; month := 3; day := 9 |}; hour := 14; minute := 30;
     second := 15; microsecond := 250000; tzinfo := None |}.

Definition BotSession : model_class :=
  declare_model "BotSession"
    [("session_token", field_or_id (new_field RedisString (VFunc (VObject "UUID" "0f0e")) VNone true ""));
     ("created", field_or_id (new_field RedisDateTime (VFunc (VDateTime sample_now)) VNone true ""))].

Definition STATUS_CHOICES : pyval :=
  VDict [(VStr "in_work", VStr "Working"); (VStr "completed", VStr "Completed")].

Definition Task : model_class :=
  declare_model "Task"
    [("bot_session", field_or_id (new_field RedisForeignKey VNone VNone true "BotSession"));
     ("task_id", field_or_id (new_field RedisNumber (VInt 0) VNone false ""));
     ("status", field_or_id (new_field RedisString (VStr "in_work") STATUS_CHOICES false ""))].

Definition shop_env : environment :=
  {| base_mgr := shop_mgr; registered_models := [BotSession; Task] |}.

(** A nullable [RedisNumber()] holding [v]. *)
Definition number_field (v : pyval) : redis_field :=
  set_value (field_or_id (new_field RedisNumber VNone VNone true "")) v.

Definition no_query : string -> list (string * pyval) -> fres (list pyval) :=
  fun _ _ => Some (Ok []).

Definition run_save (fuel : nat) (model : model_class) (kw : list (string * pyval))
    (db : store) : method unit :=
  match new_instance model kw with
  | Err e => None
  | Ok i => save fuel shop_env i db
  end.

Definition db_after {A} (r : option (A * store)) (otherwise : store) : store :=
  match r with Some (_, db) => db | None => otherwise end.

(** The server after [BotSession().save()] and then
    [Task(bot_session=<that session>).save()]. *)
Definition shop_db1 : store := db_after (run_save 3 BotSession [] shop_db) shop_db.
Definition shop_db2 : store :=
  db_after (run_save 3 Task
              [("bot_session", VModel "BotSession" ["id"] [("id", VInt 1)])] shop_db1)
           shop_db1.

Definition found_count (r : fres (list instance)) : fres nat :=
  match r with
  | Some (Ok l) => Some (Ok (length l))
  | Some (Err e) => Some (Err e)
  | None => None
  end.

(** A nullable [RedisDateTime()] and [RedisDecimal()] holding [v]. *)
Definition datetime_field (v : pyval) : redis_field :=
  set_value (field_or_id (new_field RedisDateTime VNone VNone true "")) v.

Definition decimal_field (v : pyval) : redis_field :=
  set_value (field_or_id (new_field RedisDecimal VNone VNone true "")) v.

(** 2024-03-09 14:30:15 at UTC+02:00, and the same instant at UTC. *)
Definition sample_local : pydatetime :=
  {| date_of := {| year := 2024; month := 3; day := 9 |}; hour := 14; minute := 30;
     second := 15; microsecond := 0; tzinfo := Some 120 |}.

Definition sample_utc : pydatetime :=
  {| date_of := {| year := 2024; month := 3; day := 9 |}; hour := 12; minute := 30;
     second := 15; microsecond := 0; tzinfo := utc |}.

(** A [RedisDict()] holding [v]. *)
Definition dict_field (v : pyval) : redis_field :=
  set_value (field_or_id (new_field RedisDict VNone VNone true "")) v.

Definition some_dict : pyval :=
  VDict [(VStr "numprop", VInt 19); (VStr "boolprop", VBool true)].

(** [RedisString(default='in_work', choices=STATUS_CHOICES, null=False)]
    holding [v]. *)
Definition status_field (v : pyval) : redis_field :=
  set_value (field_or_id (new_field RedisString (VStr "in_work") STATUS_CHOICES false "")) v.

(** A model without references: [Job{status}], and an instance of it as
    [Job(status=v)] builds it. *)
Definition Job : model_class :=
  declare_model "Job" [("status", status_field VNone)].

Definition job_env : environment :=
  {| base_mgr := shop_mgr; registered_models := [Job] |}.

Definition new_job (v : pyval) : instance :=
  match new_instance Job [("status", v)] with
  | Ok self => self
  | Err _ => {| inst_class := Job; inst_attrs := []; inst_fields := [] |}
  end.
(** ** Deleting stored records *)

(** [DEL key ...]: every key named is removed; one that is not there is
    passed over. *)
Definition redis_delete (keys : list string) (db : store) : store :=
  fold_left (fun d key => base.delete key d) keys db.

(** The key of the record of [model_name] with the id [instance_id], as
    the f-string of [_delete_sync] builds it. *)
Definition record_key (mgr : BaseRedisManager) (model_name : string) (instance_id : pyval)
  : res string :=
  let* text := py_str instance_id in
  Ok (prefix mgr +:+ ":" +:+ model_name +:+ ":" +:+ text).

Fixpoint record_keys (mgr : BaseRedisManager) (model_name : string) (ids : list pyval)
  : res (list string) :=
  match ids with
  | [] => Ok []
  | instance_id :: rest =>
      let* key := record_key mgr model_name instance_id in
      let* keys := record_keys mgr model_name rest in
      Ok (key :: keys)
  end.

(** [_delete_sync]: without instances every record of the model goes;
    with instances, the records of the model that carry their ids.  The
    server is asked only when there is a key to remove. *)
Definition _delete_sync (mgr : BaseRedisManager) (model_name : string) (instances : pyval)
    (db : store) : res store :=
  let* keys :=
    if is_none instances then Ok (map fst (get_keys mgr model_name db))
    else
      let* ids_to_delete := get_ids_from_untyped_data instances in
      match ids_to_delete with
      | VList ids => record_keys mgr model_name ids
      | _ => Ok []                (* [get_ids_from_untyped_data] returns a list *)
      end in
  Ok (match keys with
      | [] => db
      | _ :: _ => redis_delete keys db
      end).

(** [BaseRedisManager.delete].  With [non_blocking] the same
    [_delete_sync] runs inside [asyncio.run]. *)
Definition delete (env : environment) (model : model_class) (instances : pyval)
    (db : store) : res store :=
  _delete_sync (base_mgr env) (cls_name model) instances db.
(** ** More of [redis_models/fields.py] *)

(** [RedisJson(allowed_types=..., default=..., choices=..., null=...)]:
    the keyword [allowed_types] is taken out of the arguments and kept on
    the object; the rest goes to [RedisField.__init__]. *)
Definition new_json_field (allowed_types : list pytype) (default choices : pyval)
    (null : bool) : res redis_field :=
  let* f := new_field RedisJson default choices null "" in
  Ok {| f_class := f_class f; f_default := f_default f; f_value := f_value f;
        f_choices := f_choices f; f_null := f_null f;
        f_allowed_types := allowed_types; f_model := f_model f |}.
(** ** Values that JSON carries unchanged *)

(** The keys are texts, no two of them the same (and none of them in
    [seen]). *)
Fixpoint distinct_text_keys (seen : list string) (keys : list pyval) : bool :=
  match keys with
  | [] => true
  | VStr k :: rest => negb (mem_string k seen) && distinct_text_keys (k :: seen) rest
  | _ :: _ => false
  end.

(** [None], booleans, integers, text, lists of such values and dicts of
    such values under text keys. *)
Fixpoint json_plain (v : pyval) : bool :=
  match v with
  | VNone | VBool _ | VInt _ | VStr _ => true
  | VList l => forallb json_plain l
  | VDict d =>
      distinct_text_keys [] (map fst d) && forallb (fun kv => json_plain (snd kv)) d
  | _ => false
  end.

(** The texts [ts], each after a comma and a blank. *)
Fixpoint after_each (ts : list string) : string :=
  match ts with
  | [] => ""
  | t :: rest => ", " +:+ t +:+ after_each rest
  end.

Definition joined (ts : list string) : string :=
  match ts with
  | [] => ""
  | t :: rest => t +:+ after_each rest
  end.

Definition member_text (k : pyval) (t : string) : string :=
  json_quote (match k with VStr s => s | _ => "" end) +:+ ": " +:+ t.

(** The text [json.dumps] writes for a plain value. *)
Fixpoint json_text (v : pyval) : string :=
  match v with
  | VNone => "null"
  | VBool b => if b then "true" else "false"
  | VInt z => py_str_of_int z
  | VStr s => json_quote s
  | VList l => "[" +:+ joined (map json_text l) +:+ "]"
  | VDict d =>
      "{" +:+ joined (map (fun kv => member_text (fst kv) (json_text (snd kv))) d) +:+ "}"
  | _ => ""
  end.

(** A character a JSON value can start with, as [dumps] writes it. *)
Definition value_start (c : ascii) : bool :=
  Ascii.eqb c dquote || Ascii.eqb c "[" || Ascii.eqb c "{" || Ascii.eqb c "n" ||
  Ascii.eqb c "t" || Ascii.eqb c "f" || Ascii.eqb c "-" ||
  match digit_value c with Some _ => true | None => false end.

(** What follows a value inside a text [dumps] wrote: nothing, a comma or
    a closing bracket. *)
Definition value_end (rest : string) : bool :=
  match rest with
  | EmptyString => true
  | String c _ => Ascii.eqb c "," || Ascii.eqb c "]" || Ascii.eqb c "}"
  end.

(** [loads] reads the text of [v] back as [v], whatever the text is
    followed by inside a larger one. *)
Definition reads_back (v : pyval) : Prop :=
  forall fuel rest,
    (2 * pyval_size v <= S fuel)%nat ->
    value_end rest = true ->
    read_json_value fuel (json_text v +:+ rest) = Ok (v, rest).
(** ** [RedisQuerySet] *)

(** The first loop of [values]: every name asked for has to be a field of
    the class. *)
Fixpoint check_field_names (model : model_class) (fields : list string) : res unit :=
  match fields with
  | [] => Ok tt
  | field :: rest =>
      if mem_string field (map fst (cls_fields model))
      then check_field_names model rest
      else Err (RedisModelsException "model does not have a field")
  end.

(** [{field: getattr(i, field) for field in fields}] *)
Fixpoint attributes_dict (i : pyval) (fields : list string) (d : list (pyval * pyval))
  : res (list (pyval * pyval)) :=
  match fields with
  | [] => Ok d
  | field :: rest =>
      let* v := py_getattr i field in
      attributes_dict i rest (dict_set field v d)
  end.

Fixpoint values_of (results : list instance) (fields : list string) : res (list pyval) :=
  match results with
  | [] => Ok []
  | i :: rest =>
      let* d := attributes_dict (instance_val i) fields [] in
      let* others := values_of rest fields in
      Ok (VDict d :: others)
  end.

(** [RedisQuerySet.values] of the query set of [model] with [results]. *)
Definition values (model : model_class) (results : list instance) (fields : list string)
  : res (list pyval) :=
  let* checked := check_field_names model fields in
  values_of results fields.
(** ** Further notions used to state properties *)

(** The text holds no colon. *)
Definition colon_free (s : string) : bool := negb (is_substring ":" s).

(** The text holds none of the characters that a pattern of [keys] and
    [scan_iter] reads as more than themselves: the star, the question
    mark, the two square brackets and the backslash.  For a prefix and a
    class name of such text the pattern [prefix:Model:*] selects the keys
    that start with [prefix:Model:], which is how [get_keys] is
    modelled. *)
Definition glob_character (c : ascii) : bool :=
  Ascii.eqb c "*" || Ascii.eqb c "?" || Ascii.eqb c "[" || Ascii.eqb c "]" || Ascii.eqb c "\".

Fixpoint glob_free (s : string) : bool :=
  match s with
  | EmptyString => true
  | String c rest => negb (glob_character c) && glob_free rest
  end.

(** The attribute [name] set on an instance ([None] when there is none). *)
Definition attr_of (name : string) (self : instance) : pyval :=
  match lookup_attr name (inst_attrs self) with
  | Some v => v
  | None => VNone
  end.

(** The error of [validate_type]. *)
Definition type_error_of_validate : exn :=
  PyException "value has a type that is not allowed".



(** The key of the record of [model_name] with the integer id [i]. *)
Definition key_of_id (mgr : BaseRedisManager) (model_name : string) (i : Z) : string :=
  prefix mgr +:+ ":" +:+ model_name +:+ ":" +:+ py_str_of_int i.

(** The key is one of a record of [model_name]: it starts with
    [prefix:model_name:]. *)
Definition is_record_of (mgr : BaseRedisManager) (model_name : string) (key : string) : bool :=
  String.prefix (record_prefix mgr model_name) key.

(** No name occurs twice. *)
Fixpoint no_repeat (names : list string) : bool :=
  match names with
  | [] => true
  | n :: rest => negb (mem_string n rest) && no_repeat rest
  end.

(** What records of the model need to be found again: a prefix and a
    class name without a colon and without a character that the pattern
    of [get_keys] reads as a wildcard (the prefix not one of the two words
    that start the keys of the counters and of the lock), the class
    registered under its name, its [id] the inherited [RedisId()], and no
    field name twice. *)
Definition model_in_order (env : environment) (model : model_class) : Prop :=
  colon_free (prefix (base_mgr env)) = true /\
  glob_free (prefix (base_mgr env)) = true /\
  prefix (base_mgr env) <> "max_id" /\
  prefix (base_mgr env) <> "__lock__" /\
  colon_free (cls_name model) = true /\
  glob_free (cls_name model) = true /\
  find_model (registered_models env) (cls_name model) = Some model /\
  lookup_field "id" (cls_fields model) = Some RedisId_field /\
  no_repeat (map fst (cls_fields model)) = true.

(** Read from a record of [model], the serialized value [c] of the field
    [name] comes back as [d]. *)
Definition reads_as (env : environment) (model : model_class) (name : string)
    (c d : pyval) : Prop :=
  exists g,
    lookup_field name (cls_fields model) = Some g /\
    forall query,
      deserialize_value query g c (ignore_deserialization_errors (base_mgr env))
      = Some (Ok d).

(** An instance that carries the fields of [model], as the instances of
    the class do. *)
Definition has_fields_of (model : model_class) (r : instance) : Prop :=
  map fst (inst_fields r) = map fst (cls_fields model).

(** [row] holds, under the names of [fields] and no others, what [getattr]
    gives for [r]. *)
Definition row_of (r : instance) (fields : list string) (row : pyval) : Prop :=
  exists d,
    row = VDict d /\
    (forall field, In field fields ->
       exists v, py_getattr (instance_val r) field = Ok v /\ In (VStr field, v) d) /\
    (forall k v, In (k, v) d ->
       exists field, k = VStr field /\ In field fields /\
                     py_getattr (instance_val r) field = Ok v).


(** ** More sample data *)

(** A nullable [RedisBool()]. *)
Definition flag_field : redis_field :=
  field_or_id (new_field RedisBool VNone VNone true "").

(** The shop's server while some client holds the lock. *)
Definition held_db : store := <["__lock__:shop" := "1"]> shop_db.

(** [Task.objects.update(task_id=5)] on the server that holds one session
    and one task; its result and the server after it. *)
Definition task_update : option (res (list (list (string * pyval))) * store) :=
  update 3 shop_env Task None [("task_id", VInt 5)] shop_db2.

Definition task_update_result : res (list (list (string * pyval))) :=
  match task_update with
  | Some (r, _) => r
  | None => Err (Unmodelled "still running")
  end.

Definition shop_db3 : store := db_after task_update shop_db2.

(** The text of the task's record on that server. *)
Definition task_record_text : string :=
  match redis_get "shop:Task:42" shop_db2 with
  | Some text => text
  | None => ""
  end.

(** [Job(status='in_work').save()] on the shop's server: the instance and
    the server after it. *)
Definition job_saved : method unit :=
  save 1 job_env (new_job (VStr "in_work")) shop_db.

Definition job_after : instance :=
  match job_saved with
  | Some (_, self, _) => self
  | None => new_job (VStr "in_work")
  end.

Definition job_db : store :=
  match job_saved with
  | Some (_, _, db) => db
  | None => shop_db
  end.
(** * Properties *)

Lemma py_int_of_str_of_int (z : Z) : py_int_of_str (py_str_of_int z) = Ok z.
Proof.
  unfold py_int_of_str, py_str_of_int.
  rewrite NilZero.isi.
  - now rewrite DecimalZ.of_to.
  - destruct z; simpl; try discriminate.
    intros [= H]. now apply Unsigned.to_uint_nonnil in H.
  - destruct z; simpl; try discriminate.
    intros [= H]. now apply Unsigned.to_uint_nonnil in H.
Qed.

(** ** Id allocation *)

Lemma lock_key_not_counter mgr name : lock_key mgr ≠ max_id_key mgr name.
Proof. unfold lock_key, max_id_key. simpl. discriminate. Qed.

Lemma max_id_key_inj mgr name1 name2 :
  max_id_key mgr name1 = max_id_key mgr name2 -> name1 = name2.
Proof.
  unfold max_id_key. intros H.
  repeat (apply String.app_inj in H). exact H.
Qed.

Lemma stored_counter_of_int (z : Z) :
  stored_counter (Some (py_str_of_int z)) = Ok z.
Proof.
  pose proof (py_int_of_str_of_int z) as H.
  unfold stored_counter. destruct (py_str_of_int z); [discriminate H | exact H].
Qed.

Lemma is_locked_release mgr db : is_locked mgr (release_lock mgr db) = Ok false.
Proof.
  unfold is_locked, release_lock, redis_set_int, redis_set, redis_get.
  rewrite lookup_insert_eq. reflexivity.
Qed.

(** One allocation on a free lock: it returns the stored counter plus one,
    stores that number, leaves every other counter alone and frees the lock. *)
Lemma next_id_free_lock fuel mgr name db c :
  is_locked mgr db = Ok false ->
  stored_counter (redis_get (max_id_key mgr name) db) = Ok c ->
  exists db',
    next_id (S fuel) mgr name db = Some (Ok (c + 1), db') /\
    is_locked mgr db' = Ok false /\
    stored_counter (redis_get (max_id_key mgr name) db') = Ok (c + 1) /\
    (forall other, other ≠ name ->
       redis_get (max_id_key mgr other) db' = redis_get (max_id_key mgr other) db).
Proof.
  intros Hfree Hc.
  eexists. unfold next_id. simpl. rewrite Hfree.
  unfold redis_get, redis_set_int, redis_set in *.
  rewrite lookup_insert_ne by apply lock_key_not_counter.
  rewrite Hc. split; [reflexivity|].
  split; [apply is_locked_release|].
  unfold release_lock, redis_set_int, redis_set, redis_get. split.
  - rewrite lookup_insert_ne by apply lock_key_not_counter.
    rewrite lookup_insert_eq. apply stored_counter_of_int.
  - intros other Hne.
    rewrite lookup_insert_ne by apply lock_key_not_counter.
    rewrite lookup_insert_ne by (intros E; apply max_id_key_inj in E; congruence).
    rewrite lookup_insert_ne by apply lock_key_not_counter.
    reflexivity.
Qed.

Lemma consecutive_lower start n x : In x (consecutive start n) -> start <= x.
Proof.
  revert start. induction n as [|n IH]; simpl; intros start; [tauto|].
  intros [<- | Hin]; [lia|]. apply IH in Hin. lia.
Qed.

Lemma consecutive_sorted start n : StronglySorted Z.lt (consecutive start n).
Proof.
  revert start. induction n as [|n IH]; intros start; simpl; constructor.
  - apply IH.
  - apply List.Forall_forall. intros x Hx. apply consecutive_lower in Hx. lia.
Qed.

Lemma consecutive_NoDup start n : NoDup (consecutive start n).
Proof.
  revert start. induction n as [|n IH]; intros start; simpl; constructor.
  - intros Hx%list_elem_of_In. apply consecutive_lower in Hx. lia.
  - apply IH.
Qed.

Lemma allocate_all_free_lock fuel mgr names : forall db,
  is_locked mgr db = Ok false ->
  forallb (counter_readable mgr db) names = true ->
  exists ids db',
    allocate_all (S fuel) mgr names db = Some (Ok ids, db') /\
    map fst ids = names /\
    forall name c,
      stored_counter (redis_get (max_id_key mgr name) db) = Ok c ->
      issued_to name ids = consecutive (c + 1) (length (issued_to name ids)).
Proof.
  induction names as [|n names IH]; intros db Hfree Hread.
  - exists [], db. repeat split.
  - simpl in Hread. apply andb_true_iff in Hread as [Hn Hrest].
    unfold counter_readable in Hn.
    destruct (stored_counter (redis_get (max_id_key mgr n) db)) as [c0|] eqn:Hc0;
      [|discriminate].
    destruct (next_id_free_lock fuel mgr n db c0 Hfree Hc0)
      as (db1 & Hrun & Hfree1 & Hc1 & Hother).
    assert (Hrest1 : forallb (counter_readable mgr db1) names = true).
    { apply forallb_forall. intros m Hm.
      rewrite forallb_forall in Hrest. specialize (Hrest m Hm).
      unfold counter_readable in *.
      destruct (decide (m = n)) as [->|Hne]; [now rewrite Hc1|].
      now rewrite Hother. }
    destruct (IH db1 Hfree1 Hrest1) as (ids & db2 & Hall & Hnames & Hiss).
    exists ((n, c0 + 1) :: ids), db2.
    split; [|split].
    + cbn [allocate_all]. rewrite Hrun, Hall. reflexivity.
    + simpl. now rewrite Hnames.
    + intros name c Hc. unfold issued_to in *. cbn [List.filter fst].
      destruct (decide (n = name)) as [->|Hne].
      * rewrite bool_decide_eq_true_2 by reflexivity. cbn [map snd length consecutive].
        assert (c = c0) as -> by congruence.
        f_equal. apply Hiss. exact Hc1.
      * rewrite bool_decide_eq_false_2 by exact Hne.
        apply Hiss. rewrite Hother by congruence. exact Hc.
Qed.

(** C1: when the allocations run one at a time (each lock-acquire, read,
    increment, write and release alone), starting from a free lock and
    readable counters, every call returns and the ids issued to one model
    name are the stored counter plus one, plus two, and so on: strictly
    increasing and pairwise distinct. *)
Theorem next_id_strictly_increasing fuel mgr names db :
  is_locked mgr db = Ok false ->
  forallb (counter_readable mgr db) names = true ->
  exists ids db',
    allocate_all (S fuel) mgr names db = Some (Ok ids, db') /\
    map fst ids = names /\
    forall name,
      StronglySorted Z.lt (issued_to name ids) /\
      NoDup (issued_to name ids) /\
      forall c, stored_counter (redis_get (max_id_key mgr name) db) = Ok c ->
        issued_to name ids = consecutive (c + 1) (length (issued_to name ids)).
Proof.
  intros Hfree Hread.
  destruct (allocate_all_free_lock fuel mgr names db Hfree Hread)
    as (ids & db' & Hrun & Hnames & Hiss).
  exists ids, db'. split; [exact Hrun|]. split; [exact Hnames|].
  intros name.
  destruct (stored_counter (redis_get (max_id_key mgr name) db)) as [c|e] eqn:Hc.
  - specialize (Hiss name c Hc). rewrite Hiss.
    split; [apply consecutive_sorted|]. split; [apply consecutive_NoDup|].
    intros c' [= <-]. now rewrite <- Hiss.
  - (* an unreadable counter belongs to no name of the run *)
    assert (Hnone : issued_to name ids = []).
    { unfold issued_to. rewrite <- Hnames in Hread.
      clear -Hread Hc. induction ids as [|[m i] ids IH]; [reflexivity|].
      simpl in *. apply andb_true_iff in Hread as [Hm Hrest].
      destruct (decide (m = name)) as [->|Hne].
      - unfold counter_readable in Hm. now rewrite Hc in Hm.
      - rewrite bool_decide_eq_false_2 by exact Hne. now apply IH. }
    rewrite Hnone. split; [constructor|]. split; [constructor|]. discriminate.
Qed.

Example allocate_all_shop :
  fst <$> allocate_all 1 shop_mgr ["Task"; "Order"; "Task"] shop_db
  = Some (Ok [("Task", 42); ("Order", 1); ("Task", 43)]).
Proof. vm_compute. reflexivity. Qed.

Lemma next_id_strictly_increasing_witness :
  is_locked shop_mgr shop_db = Ok false /\
  forallb (counter_readable shop_mgr shop_db) ["Task"; "Order"; "Task"] = true /\
  exists ids db',
    allocate_all 1 shop_mgr ["Task"; "Order"; "Task"] shop_db = Some (Ok ids, db') /\
    map fst ids = ["Task"; "Order"; "Task"] /\
    forall name,
      StronglySorted Z.lt (issued_to name ids) /\
      NoDup (issued_to name ids) /\
      forall c, stored_counter (redis_get (max_id_key shop_mgr name) shop_db) = Ok c ->
        issued_to name ids = consecutive (c + 1) (length (issued_to name ids)).
Proof.
  split; [vm_compute; reflexivity|].
  split; [vm_compute; reflexivity|].
  apply (next_id_strictly_increasing 0 shop_mgr ["Task"; "Order"; "Task"] shop_db);
    vm_compute; reflexivity.
Defined.

(** *** One request at a time *)

Lemma insert_head {A} (x y : A) (l : list A) : <[0%nat := x]> (y :: l) = x :: l.
Proof. reflexivity. Qed.

(** Five requests in a row on a free lock are the call [next_id]. *)
Lemma five_steps_are_next_id fuel mgr model_name db c :
  is_locked mgr db = Ok false ->
  stored_counter (redis_get (max_id_key mgr model_name) db) = Ok c ->
  exists db',
    next_id (S fuel) mgr model_name db = Some (Ok (c + 1), db') /\
    run_schedule mgr [0; 0; 0; 0; 0]%nat [(model_name, Polling)] db
    = ([(model_name, Returned (c + 1))], db').
Proof.
  intros Hfree Hc.
  assert (Hc1 : stored_counter
                  (redis_get (max_id_key mgr model_name)
                     (redis_set_int (lock_key mgr) 1 db)) = Ok c).
  { unfold redis_get, redis_set_int, redis_set in *.
    now rewrite lookup_insert_ne by apply lock_key_not_counter. }
  eexists. split.
  - unfold next_id. cbn [wait_for_lock]. rewrite Hfree, Hc1. reflexivity.
  - cbn [run_schedule nth_error next_id_step]. rewrite Hfree, insert_head.
    cbn [run_schedule nth_error next_id_step]. rewrite insert_head.
    cbn [run_schedule nth_error next_id_step]. rewrite Hc1, insert_head.
    cbn [run_schedule nth_error next_id_step]. rewrite insert_head.
    cbn [run_schedule nth_error next_id_step]. rewrite insert_head.
    reflexivity.
Qed.

(** Without mutual exclusion the flag does not protect the counter: two
    callers that both read the flag before either sets it get the same
    id. *)
Example interleaved_allocations_collide :
  fst (run_schedule shop_mgr [0; 1; 0; 1; 0; 1; 0; 1; 0; 1]%nat
         [("Task", Polling); ("Task", Polling)] shop_db)
  = [("Task", Returned 42); ("Task", Returned 42)].
Proof. vm_compute. reflexivity. Qed.

(** The same two callers, one after the other. *)
Example serial_allocations_differ :
  fst (run_schedule shop_mgr [0; 0; 0; 0; 0; 1; 1; 1; 1; 1]%nat
         [("Task", Polling); ("Task", Polling)] shop_db)
  = [("Task", Returned 42); ("Task", Returned 43)].
Proof. vm_compute. reflexivity. Qed.

(** ** The [range] operator *)

Lemma range_of_int (x n : Z) :
  _filter_value (VInt x) "range" (VInt n) = Ok ((0 <=? x) && (x <? n)).
Proof. reflexivity. Qed.

(** C8, as the code has it: the operand of [range] is one integer [n]; an
    integer record value [x] matches exactly when [0 <= x < n], and the
    filter gives a verdict in every case.  An operand made of two bounds is
    refused with [TypeError], whatever the record value. *)
Theorem range_matches_below_operand (x n : Z) :
  (_filter_value (VInt x) "range" (VInt n) = Ok true <-> 0 <= x < n) /\
  (_filter_value (VInt x) "range" (VInt n) = Ok false <-> ~ (0 <= x < n)) /\
  _filter (VInt x) [] "range" (VInt n) = _filter_value (VInt x) "range" (VInt n) /\
  (forall value lo hi, _filter_value value "range" (VTuple [lo; hi]) = Err TypeError).
Proof.
  rewrite range_of_int.
  assert (Hspec : (0 <=? x) && (x <? n) = true <-> 0 <= x < n)
    by (rewrite andb_true_iff, Z.leb_le, Z.ltb_lt; tauto).
  split; [|split; [|split]].
  - split; [intros [= H]; now apply Hspec | intros H; f_equal; now apply Hspec].
  - split.
    + intros [= H] Hx. apply Hspec in Hx. congruence.
    + intros H. f_equal. apply not_true_is_false. intros Ht. now apply H, Hspec.
  - reflexivity.
  - reflexivity.
Qed.

(** C8 as stated fails: with a lower and an upper bound as the operand the
    filter raises [TypeError] instead of matching the values in between. *)
Lemma range_rejects_bounds :
  ~ (forall x lo hi : Z,
       _filter_value (VInt x) "range" (VTuple [VInt lo; VInt hi])
       = Ok ((lo <=? x) && (x <? hi))).
Proof. intros H. specialize (H 3 1 5). discriminate H. Qed.

(** ** Type validation of numbers *)

Lemma validate_type_truthy_mismatch value allowed_types :
  truthy value = true ->
  isinstance value allowed_types = false ->
  validate_type value allowed_types = Err (PyException "value has a type that is not allowed").
Proof. intros Ht Hi. unfold validate_type. now rewrite Ht, Hi. Qed.

Lemma truthy_not_none v : truthy v = true -> is_none v = false.
Proof. now destruct v. Qed.

(** A value that is set is what [check_value] looks at, and the field
    object is left as it was. *)
Lemma check_value_set (self : redis_field) :
  is_none (f_value self) = false ->
  snd (check_value self) = self.
Proof.
  intros Hv. unfold check_value. rewrite Hv. cbv zeta. rewrite Hv. cbn [andb].
  destruct (truthy (f_value self) && truthy (f_choices self)); [|reflexivity].
  destruct (f_choices self); try reflexivity.
  destruct (dict_has_key (f_value self) items) as [[|]|]; try reflexivity.
  now destruct (all_text (map fst items)).
Qed.

Lemma check_value_returns_value (self : redis_field) v :
  fst (check_value self) = Ok v -> f_value (snd (check_value self)) = v.
Proof.
  unfold check_value.
  set (self' := if is_none (f_value self) then _ else self).
  destruct (is_none (f_value self') && negb (f_null self')); [discriminate|].
  destruct (truthy (f_value self') && truthy (f_choices self')).
  - destruct (f_choices self'); try discriminate.
    destruct (dict_has_key (f_value self') items) as [[|]|]; try discriminate.
    + now intros [= <-].
    + now destruct (all_text (map fst items)).
  - now intros [= <-].
Qed.

(** C4, as the code has it: a truthy value that is neither an [int] nor a
    [float] is rejected by [clean] as soon as the null and choice checks
    let it through (an error of theirs is the outcome otherwise), and by
    [deserialize_value] unless it is text, which is parsed. *)
Theorem number_rejects_truthy_non_numbers
    (query : string -> list (string * pyval) -> fres (list pyval))
    (self : redis_field) (ignore : bool) :
  f_class self = RedisNumber ->
  truthy (f_value self) = true ->
  isinstance (f_value self) [TInt; TFloat] = false ->
  match fst (check_value self) with
  | Ok _ => fst (clean self) = Err (PyException "value has a type that is not allowed")
  | Err e => fst (clean self) = Err e
  end /\
  (isinstance1 (f_value self) TStr = false ->
   deserialize_value query self (f_value self) ignore
   = Some (Err (PyException "value has a type that is not allowed"))).
Proof.
  intros Hc Ht Hi. split.
  - unfold clean. rewrite Hc. unfold RedisNumber_clean, RedisField_clean.
    pose proof (check_value_returns_value self) as Hv.
    pose proof (check_value_set self (truthy_not_none _ Ht)) as Hs.
    destruct (check_value self) as [[v|e] self'] eqn:Hcv; simpl in *; [|reflexivity].
    specialize (Hv v eq_refl). subst self'. subst v.
    now apply validate_type_truthy_mismatch.
  - intros Hstr. unfold deserialize_value. rewrite Hc.
    unfold RedisNumber_deserialize_value, RedisField_deserialize_value.
    rewrite (truthy_not_none _ Ht). simpl.
    destruct (f_value self) eqn:Hv; try discriminate Hstr;
      rewrite <- Hv in *; simpl;
      now rewrite validate_type_truthy_mismatch.
Qed.

Lemma number_rejects_truthy_non_numbers_witness :
  f_class (number_field (VList [VInt 1])) = RedisNumber /\
  truthy (f_value (number_field (VList [VInt 1]))) = true /\
  isinstance (f_value (number_field (VList [VInt 1]))) [TInt; TFloat] = false /\
  fst (clean (number_field (VList [VInt 1])))
  = Err (PyException "value has a type that is not allowed") /\
  (isinstance1 (VList [VInt 1]) TStr = false ->
   deserialize_value no_query (number_field (VList [VInt 1])) (VList [VInt 1]) true
   = Some (Err (PyException "value has a type that is not allowed"))).
Proof.
  split; [reflexivity|]. split; [reflexivity|]. split; [reflexivity|].
  apply (number_rejects_truthy_non_numbers no_query (number_field (VList [VInt 1])) true);
    reflexivity.
Defined.

(** C4 as stated fails: the empty list is neither an [int] nor a [float],
    and both [clean] and [deserialize_value] of a Number field return it. *)
Lemma number_accepts_empty_list :
  ~ (forall (self : redis_field) (value : pyval),
       f_class self = RedisNumber ->
       isinstance value [TInt; TFloat] = false ->
       is_ok (fst (clean (set_value self value))) = false /\
       deserialize_value no_query self value true <> Some (Ok value)).
Proof.
  intros H.
  destruct (H (number_field VNone) (VList []) eq_refl eq_refl) as [Hclean _].
  discriminate Hclean.
Qed.

(** ** Filters: a path through a null reference *)

Lemma follow_path_none nested_field_names :
  follow_path VNone nested_field_names = Ok VNone.
Proof. induction nested_field_names as [|n rest IH]; [reflexivity | exact IH]. Qed.

Lemma py_eq_none_other (filter_by : pyval) :
  is_none filter_by = false ->
  isinstance1 filter_by TRedisModel = false ->
  py_eq VNone filter_by = Ok false.
Proof.
  intros Hn Hm. unfold py_eq. cbn [pyval_size Nat.add py_eq_fuel].
  destruct filter_by; try discriminate; reflexivity.
Qed.

Lemma as_utc_keeps_kind v :
  is_none (as_utc v) = is_none v /\
  isinstance1 (as_utc v) TRedisModel = isinstance1 v TRedisModel.
Proof. now destruct v. Qed.

Lemma collect_allowed_length field_name value raw_filters allowed_list :
  collect_allowed field_name value raw_filters = Ok allowed_list ->
  length allowed_list
  = length (List.filter (fun kv => on_field field_name (fst kv)) raw_filters).
Proof.
  revert allowed_list.
  induction raw_filters as [|[p by_] rest IH]; intros allowed_list; cbn [collect_allowed].
  - now intros [= <-].
  - cbn [List.filter fst]. unfold on_field at 1.
    destruct (_split_filtering p) as [[|first nested] filter_type]; [discriminate|].
    cbn [fst]. destruct (String.eqb field_name first).
    + destruct (_filter value nested filter_type by_) as [a|]; [|discriminate].
      cbn [res_bind].
      destruct (collect_allowed field_name value rest) as [others|]; [|discriminate].
      intros [= <-]. cbn [length]. f_equal. now apply IH.
    + apply IH.
Qed.

(** C7, as the code has it.  Once a link of the path is [None] the rest of
    the path is skipped and the operator is applied to [None]: with [exact]
    and an operand that is neither [None] nor an instance the predicate is
    false, without an error.  The other predicates on the same field are
    evaluated all the same; a false predicate makes the engine drop the
    record, and the fields after it are not read. *)
Theorem null_link_applies_operator_to_none
    (nested : list string) (filter_type : string) (filter_by : pyval) :
  _filter VNone nested filter_type filter_by = _filter_value VNone filter_type filter_by /\
  (forall cls fields attrs name,
     lookup_attr name attrs = Some VNone ->
     _filter (VModel cls fields attrs) (name :: nested) filter_type filter_by
     = _filter_value VNone filter_type filter_by) /\
  (is_none filter_by = false -> isinstance1 filter_by TRedisModel = false ->
   _filter VNone nested "exact" filter_by = Ok false) /\
  (forall field_name value raw_filters allowed_list,
     collect_allowed field_name value raw_filters = Ok allowed_list ->
     length allowed_list
     = length (List.filter (fun kv => on_field field_name (fst kv)) raw_filters)) /\
  (forall env query model filters field_name raw_value value rest tmp_instance,
     _deserialize_instance_field env query model field_name raw_value = Some (Ok value) ->
     _filter_field_name field_name value filters = Ok false ->
     read_fields env query model filters ((VStr field_name, raw_value) :: rest) tmp_instance
     = Some (Ok None)).
Proof.
  assert (Hskip : _filter VNone nested filter_type filter_by
                  = _filter_value VNone filter_type filter_by).
  { unfold _filter. now rewrite follow_path_none. }
  split; [exact Hskip|]. split; [|split; [|split]].
  - intros cls fields attrs name Hattr.
    rewrite <- Hskip. unfold _filter. cbn [follow_path is_none isinstance1 negb orb].
    unfold py_hasattr. cbn [py_getattr]. rewrite Hattr. reflexivity.
  - intros Hn Hm. unfold _filter. rewrite follow_path_none.
    cbn [res_bind isinstance1 andb]. unfold _filter_value. cbn [lookup_method FILTER_METHODS String.eqb Ascii.eqb Bool.eqb].
    apply py_eq_none_other; destruct (as_utc_keeps_kind filter_by); congruence.
  - apply collect_allowed_length.
  - intros env query model filters field_name raw_value value rest tmp Hd Hf.
    cbn [read_fields]. rewrite Hd. cbn [fres_bind]. rewrite Hf. reflexivity.
Qed.

(** C7 as stated fails: with the operator [exact] and the operand [None],
    a null link makes the predicate match. *)
Lemma null_link_can_match :
  ~ (forall nested filter_type filter_by,
       filter_type <> "isnull" ->
       _filter VNone nested filter_type filter_by = Ok false).
Proof.
  intros H. specialize (H ["task_id"] "exact" VNone). 
  assert (Hne : "exact" <> "isnull") by discriminate.
  specialize (H Hne). discriminate H.
Qed.

(** ** Filters: a last part that names no operator *)

Lemma follow_path_no_instance value name rest :
  is_none value = false ->
  isinstance1 value TRedisModel = false ->
  follow_path value (name :: rest) = Err (RedisModelsException "has no field").
Proof. intros Hn Hm. cbn [follow_path]. now rewrite Hn, Hm. Qed.

Lemma collect_allowed_app field_name value filters1 filters2 :
  collect_allowed field_name value (filters1 ++ filters2)
  = let* a := collect_allowed field_name value filters1 in
    let* b := collect_allowed field_name value filters2 in
    Ok (a ++ b)%list.
Proof.
  induction filters1 as [|[p by_] rest IH]; cbn [app collect_allowed].
  - cbn [res_bind]. now destruct (collect_allowed field_name value filters2).
  - destruct (_split_filtering p) as [[|first nested] filter_type]; [reflexivity|].
    destruct (String.eqb field_name first); [|exact IH].
    destruct (_filter value nested filter_type by_) as [a|]; [|reflexivity].
    cbn [res_bind]. rewrite IH.
    destruct (collect_allowed field_name value rest) as [x|]; [|reflexivity].
    cbn [res_bind].
    now destruct (collect_allowed field_name value filters2).
Qed.

(** C5, as the code has it.  A last part that names no operator is taken
    for a step of the path, with the operator [exact].  The query then
    fails with [RedisModelsException] when the predicate meets a field
    value that is neither [None] nor an instance; over no records it
    returns the empty result. *)
Theorem unknown_operator_is_a_path
    (fuel : nat) (env : environment) (db : store) (model : model_class)
    (filters : list (string * pyval)) (filter_param : string) (filter_by : pyval)
    (field_name step : string) (steps : list string) :
  In (filter_param, filter_by) filters ->
  py_split filter_param "__" = field_name :: step :: steps ->
  is_filter_method (List.last (py_split filter_param "__") "") = false ->
  _split_filtering filter_param = (field_name :: step :: steps, "exact") /\
  (forall value,
     is_none value = false -> isinstance1 value TRedisModel = false ->
     _filter_field_name field_name value [(filter_param, filter_by)]
     = Err (RedisModelsException "has no field") /\
     is_ok (_filter_field_name field_name value filters) = false /\
     forall query owner raw_value rest tmp_instance,
       _deserialize_instance_field env query owner field_name raw_value = Some (Ok value) ->
       exists e,
         read_fields env query owner filters ((VStr field_name, raw_value) :: rest) tmp_instance
         = Some (Err e)) /\
  (get_keys (base_mgr env) (cls_name model) db = [] ->
   query (S fuel) env db model filters = Some (Ok [])).
Proof.
  intros Hin Hsplit Hop.
  assert (Hsf : _split_filtering filter_param = (field_name :: step :: steps, "exact")).
  { unfold _split_filtering. rewrite Hop. cbn [negb]. now rewrite Hsplit. }
  split; [exact Hsf|]. split.
  - intros value Hn Hm.
    assert (Hone : collect_allowed field_name value [(filter_param, filter_by)]
                   = Err (RedisModelsException "has no field")).
    { cbn [collect_allowed]. rewrite Hsf, String.eqb_refl.
      unfold _filter. now rewrite follow_path_no_instance. }
    assert (Hall : is_ok (_filter_field_name field_name value filters) = false).
    { apply in_split in Hin as (f1 & f2 & ->).
      unfold _filter_field_name.
      change ((filter_param, filter_by) :: f2) with (([(filter_param, filter_by)] ++ f2)%list).
      rewrite !collect_allowed_app, Hone.
      now destruct (collect_allowed field_name value f1). }
    split; [|split; [exact Hall|]].
    + unfold _filter_field_name. now rewrite Hone.
    + intros query owner raw_value rest tmp Hd.
      cbn [read_fields]. rewrite Hd. cbn [fres_bind].
      destruct (_filter_field_name field_name value filters) as [b|e]; [discriminate|].
      now exists e.
  - intros Hkeys. unfold query. cbn [_get_model_instances].
    unfold get_model_instances_step. now rewrite Hkeys.
Qed.

Lemma unknown_operator_is_a_path_witness :
  In ("status__bad", VStr "x") [("status__bad", VStr "x")] /\
  py_split "status__bad" "__" = ["status"; "bad"] /\
  is_filter_method (List.last (py_split "status__bad" "__") "") = false /\
  _split_filtering "status__bad" = (["status"; "bad"], "exact") /\
  (forall value,
     is_none value = false -> isinstance1 value TRedisModel = false ->
     _filter_field_name "status" value [("status__bad", VStr "x")]
     = Err (RedisModelsException "has no field") /\
     is_ok (_filter_field_name "status" value [("status__bad", VStr "x")]) = false /\
     forall query owner raw_value rest tmp_instance,
       _deserialize_instance_field shop_env query owner "status" raw_value = Some (Ok value) ->
       exists e,
         read_fields shop_env query owner [("status__bad", VStr "x")]
           ((VStr "status", raw_value) :: rest) tmp_instance
         = Some (Err e)) /\
  (get_keys (base_mgr shop_env) (cls_name Task) shop_db = [] ->
   query 1 shop_env shop_db Task [("status__bad", VStr "x")] = Some (Ok [])).
Proof.
  split; [now left|]. split; [reflexivity|]. split; [reflexivity|].
  apply (unknown_operator_is_a_path 0 shop_env shop_db Task
           [("status__bad", VStr "x")] "status__bad" (VStr "x") "status" "bad" []).
  - now left.
  - reflexivity.
  - reflexivity.
Defined.

(** C5 as stated fails: over a server that holds no record of the model,
    a query with an unknown operator returns the empty result. *)
Lemma unknown_operator_on_no_records :
  ~ (forall fuel env db model filters filter_param filter_by field_name step steps,
       In (filter_param, filter_by) filters ->
       py_split filter_param "__" = field_name :: step :: steps ->
       is_filter_method (List.last (py_split filter_param "__") "") = false ->
       exists msg,
         query fuel env db model filters = Some (Err (RedisModelsException msg))).
Proof.
  intros H.
  destruct (H 3%nat shop_env shop_db Task [("status__bad", VStr "x")]
              "status__bad" (VStr "x") "status" "bad" [])
    as [msg Hq]; [now left | reflexivity | reflexivity |].
  vm_compute in Hq. discriminate Hq.
Qed.

(** ** Filters: a field name the records do not have *)





(** The misspelled filter returns the one stored task; the filter spelled
    right returns none. *)
Example misspelled_filter_returns_all :
  found_count (query 3 shop_env shop_db2 Task [("statsu", VStr "done")]) = Some (Ok 1%nat) /\
  found_count (query 3 shop_env shop_db2 Task [("status", VStr "done")]) = Some (Ok 0%nat).
Proof. split; vm_compute; reflexivity. Qed.

(** ** The text of dates and times *)

Lemma zero_padded_two (z : Z) : 0 <= z < 100 -> zero_padded 2 z = two_digits z.
Proof.
  intros Hz.
  assert (H : forallb (fun n => String.eqb (zero_padded 2 (Z.of_nat n))
                                           (two_digits (Z.of_nat n)))
                      (seq 0 (Z.to_nat 100)) = true) by (vm_compute; reflexivity).
  rewrite forallb_forall in H. specialize (H (Z.to_nat z)).
  rewrite Z2Nat.id in H by lia. apply String.eqb_eq, H, in_seq. lia.
Qed.

Lemma zero_padded_four (z : Z) : 0 <= z < 10000 -> zero_padded 4 z = four_digits z.
Proof.
  intros Hz.
  assert (H : forallb (fun n => String.eqb (zero_padded 4 (Z.of_nat n))
                                           (four_digits (Z.of_nat n)))
                      (seq 0 (Z.to_nat 10000)) = true) by (vm_compute; reflexivity).
  rewrite forallb_forall in H. specialize (H (Z.to_nat z)).
  rewrite Z2Nat.id in H by lia. apply String.eqb_eq, H, in_seq. lia.
Qed.

Lemma add_zeros_head (n : nat) : forall s,
  (0 < n)%nat -> exists r, add_zeros n s = String "0" r.
Proof.
  induction n as [|n IH]; intros s Hn; [lia|]. cbn [add_zeros].
  destruct n as [|n]; [now exists s|]. apply IH. lia.
Qed.

(** From 1000 on the digits of a year are four. *)
Lemma year_text_four (z : Z) : 1000 <= z < 10000 -> py_str_of_int z = four_digits z.
Proof.
  intros Hz. pose proof (zero_padded_four z ltac:(lia)) as H. unfold zero_padded in H.
  destruct (4 - String.length (py_str_of_int z))%nat as [|k] eqn:Hk; [exact H|].
  destruct (add_zeros_head (S k) (py_str_of_int z)) as [r Hr]; [lia|].
  rewrite Hr in H. unfold four_digits in H. injection H as Hd _.
  assert (Hq : z / 1000 = 1 \/ z / 1000 = 2 \/ z / 1000 = 3 \/ z / 1000 = 4 \/ z / 1000 = 5
               \/ z / 1000 = 6 \/ z / 1000 = 7 \/ z / 1000 = 8 \/ z / 1000 = 9)
    by (Z.div_mod_to_equations; lia).
  repeat (destruct Hq as [Hq | Hq]; [rewrite Hq in Hd; discriminate Hd|]).
  rewrite Hq in Hd. discriminate Hd.
Qed.

Lemma digit_char_value (k : Z) :
  0 <= k <= 9 ->
  digit_value (digit_char k) = Some k /\ Ascii.eqb (digit_char k) " " = false.
Proof.
  intros Hk.
  assert (k = 0 \/ k = 1 \/ k = 2 \/ k = 3 \/ k = 4 \/ k = 5 \/ k = 6 \/ k = 7
          \/ k = 8 \/ k = 9) as H by lia.
  repeat (destruct H as [-> | H]; [split; reflexivity|]). subst. split; reflexivity.
Qed.

Lemma append_cons c s r : String c s +:+ r = String c (s +:+ r).
Proof. reflexivity. Qed.

Lemma append_nil r : "" +:+ r = r.
Proof. reflexivity. Qed.

Ltac push_append := rewrite ?append_cons, ?append_nil.

Lemma append_assoc (a b c : string) : (a +:+ b) +:+ c = a +:+ (b +:+ c).
Proof. induction a as [|x a IH]; [reflexivity|]. push_append. now rewrite IH. Qed.

Lemma append_empty (a : string) : a +:+ "" = a.
Proof. induction a as [|x a IH]; [reflexivity|]. push_append. now rewrite IH. Qed.
Ltac div_lia := Z.div_mod_to_equations; lia.

Lemma read_number_two lo hi z rest :
  0 <= z < 100 -> lo <= z <= hi ->
  read_number lo hi (two_digits z +:+ rest) = Some (z, rest).
Proof.
  intros Hz Hr. unfold read_number, two_digits. push_append. cbn [read_digits].
  destruct (digit_char_value (z / 10)) as [-> _]; [div_lia|].
  destruct (digit_char_value (z mod 10)) as [-> _]; [div_lia|].
  replace (((0 * 10 + z / 10) * 10) + z mod 10) with z by div_lia.
  destruct (Z.leb_spec lo z); [|lia]. destruct (Z.leb_spec z hi); [|lia]. reflexivity.
Qed.

Lemma read_year_four z rest :
  0 <= z < 10000 -> read_year (four_digits z +:+ rest) = Some (z, rest).
Proof.
  intros Hz. unfold read_year, four_digits. push_append. cbn [read_digits].
  destruct (digit_char_value (z / 1000)) as [-> _]; [div_lia|].
  destruct (digit_char_value (z / 100 mod 10)) as [-> _]; [div_lia|].
  destruct (digit_char_value (z / 10 mod 10)) as [-> _]; [div_lia|].
  destruct (digit_char_value (z mod 10)) as [-> _]; [div_lia|].
  replace ((((0 * 10 + z / 1000) * 10 + z / 100 mod 10) * 10 + z / 10 mod 10) * 10 + z mod 10)
    with z by div_lia.
  reflexivity.
Qed.

Lemma read_day_two z rest :
  1 <= z <= 31 -> read_day (two_digits z +:+ rest) = Some (z, rest).
Proof.
  intros Hz. pose proof (read_number_two 1 31 z rest) as H.
  unfold read_day. unfold two_digits at 1. push_append.
  destruct (digit_char_value (z / 10)) as [_ ->]; [div_lia|].
  apply H; lia.
Qed.

Lemma valid_date_bounds d :
  valid_date d = true ->
  1 <= year d <= 9999 /\ 1 <= month d <= 12 /\ 1 <= day d <= 31.
Proof.
  unfold valid_date. rewrite !andb_true_iff, !Z.leb_le.
  intros [[[[[? ?] ?] ?] ?] Hd].
  assert (days_in_month (year d) (month d) <= 31).
  { unfold days_in_month. repeat destruct (_ =? _); try destruct (is_leap _); simpl; lia. }
  lia.
Qed.

Lemma read_date_strftime d rest :
  valid_date d = true -> 1000 <= year d ->
  read_date (strftime_date d +:+ rest) = Some (d, rest).
Proof.
  intros Hv Hy'. destruct (valid_date_bounds d Hv) as (Hy & Hm & Hd).
  unfold strftime_date.
  rewrite year_text_four, !zero_padded_two by lia.
  rewrite !append_assoc.
  unfold read_date.
  rewrite read_year_four by lia. push_append. cbn [read_char Ascii.eqb Bool.eqb].
  rewrite read_number_two by lia. push_append. cbn [read_char Ascii.eqb Bool.eqb].
  rewrite read_day_two by lia. now destruct d.
Qed.

Lemma strptime_date_strftime d :
  valid_date d = true -> 1000 <= year d ->
  strptime_date (strftime_date d)
  = Ok {| date_of := d; hour := 0; minute := 0; second := 0; microsecond := 0;
          tzinfo := None |}.
Proof.
  intros Hv Hy. unfold strptime_date.
  pose proof (read_date_strftime d "" Hv Hy) as H.
  rewrite append_empty in H. now rewrite H, Hv.
Qed.

Lemma valid_datetime_bounds dt :
  valid_datetime dt = true ->
  valid_date (date_of dt) = true /\
  0 <= hour dt <= 23 /\ 0 <= minute dt <= 59 /\ 0 <= second dt <= 59.
Proof.
  unfold valid_datetime. rewrite !andb_true_iff, !Z.leb_le. tauto.
Qed.

Lemma strptime_datetime_strftime dt :
  valid_datetime dt = true -> 1000 <= year (date_of dt) ->
  strptime_datetime (strftime_datetime (replace_tzinfo dt utc))
  = Ok (replace_tzinfo (to_the_second_utc dt) None).
Proof.
  intros Hv Hy. destruct (valid_datetime_bounds dt Hv) as (Hd & Hh & Hm & Hs).
  unfold strptime_datetime, strftime_datetime.
  cbn [replace_tzinfo date_of hour minute second tzinfo utc tzname].
  rewrite read_date_strftime by assumption.
  push_append. cbn [read_char Ascii.eqb Bool.eqb].
  rewrite !zero_padded_two by lia.
  rewrite read_number_two by lia. push_append. cbn [read_char Ascii.eqb Bool.eqb].
  rewrite read_number_two by lia. push_append. cbn [read_char Ascii.eqb Bool.eqb].
  rewrite read_number_two by lia. push_append. cbn [read_char Ascii.eqb Bool.eqb].
  change (String.eqb (py_lower "UTC") "utc") with true. cbn [orb].
  unfold to_the_second_utc, replace_tzinfo.
  cbn [date_of hour minute second microsecond tzinfo].
  replace (valid_datetime _) with true; [reflexivity|].
  symmetry. unfold valid_datetime in *.
  cbn [date_of hour minute second microsecond tzinfo].
  rewrite !andb_true_iff in *. rewrite !Z.leb_le in *. intuition lia.
Qed.

(** ** Serializing and reading back *)

Lemma RedisField_clean_resolved (self : redis_field) v :
  fst (check_value self) = Ok v ->
  exists self', RedisField_clean self = (Ok v, self') /\ f_value self' = v /\
                f_class self' = f_class self /\
                f_allowed_types self' = f_allowed_types self /\
                f_null self' = f_null self.
Proof.
  intros H. unfold RedisField_clean.
  assert (Hk : f_class (snd (check_value self)) = f_class self /\
               f_allowed_types (snd (check_value self)) = f_allowed_types self /\
               f_null (snd (check_value self)) = f_null self).
  { unfold check_value.
    repeat match goal with
           | |- context [if ?c then _ else _] => destruct c
           | |- context [match ?x with _ => _ end] => destruct x
           end; repeat split. }
  destruct (check_value self) as [[w|e] self'] eqn:Hcv; [|discriminate].
  cbn [fst snd] in *. injection H as ->.
  exists (set_value self' v). repeat split; apply Hk.
Qed.

Lemma validate_type_instance v allowed :
  isinstance v allowed = true -> validate_type v allowed = Ok v.
Proof. intros H. unfold validate_type. rewrite H. now rewrite orb_true_r. Qed.

Lemma datetime_clean_text (self : redis_field) (dt : pydatetime) :
  f_class self = RedisDateTime ->
  fst (check_value self) = Ok (VDateTime dt) ->
  fst (clean self) = Ok (VStr (strftime_datetime (replace_tzinfo dt utc))).
Proof.
  intros Hc Hv. unfold clean. rewrite Hc. unfold RedisDateTime_clean.
  destruct (RedisField_clean_resolved self _ Hv) as (self' & -> & Hval & _).
  cbn [set_value f_value is_none]. reflexivity.
Qed.

Lemma datetime_read_back query (self : redis_field) (dt : pydatetime) ignore :
  f_class self = RedisDateTime ->
  valid_datetime dt = true -> 1000 <= year (date_of dt) ->
  deserialize_value query self (VStr (strftime_datetime (replace_tzinfo dt utc))) ignore
  = Some (Ok (VDateTime (to_the_second_utc dt))).
Proof.
  intros Hc Hvalid Hy. unfold deserialize_value. rewrite Hc.
  unfold RedisDateTime_deserialize_value, RedisField_deserialize_value.
  cbn [is_none andb res_bind].
  rewrite validate_type_instance by reflexivity. cbn [res_bind strptime_val].
  rewrite strptime_datetime_strftime by assumption. reflexivity.
Qed.

(** C6, as the code has it.  For a datetime with a year of four digits,
    [clean] writes its clock fields in the fixed format
    [YYYY.MM.DD-HH:MM:SS+UTC] and labels them UTC without converting
    them, so the zone of the value (and its microseconds) play no part in
    the text; [deserialize_value] reads the text back to those clock
    fields, tagged UTC. *)
Theorem datetime_clean_relabels_as_utc (self : redis_field) (dt : pydatetime) :
  f_class self = RedisDateTime ->
  fst (check_value self) = Ok (VDateTime dt) ->
  valid_datetime dt = true ->
  1000 <= year (date_of dt) ->
  fst (clean self) = Ok (VStr (strftime_datetime (replace_tzinfo dt utc))) /\
  strftime_datetime (replace_tzinfo dt utc)
  = four_digits (year (date_of dt)) +:+ "." +:+ two_digits (month (date_of dt)) +:+ "." +:+
    two_digits (day (date_of dt)) +:+ "-" +:+ two_digits (hour dt) +:+ ":" +:+
    two_digits (minute dt) +:+ ":" +:+ two_digits (second dt) +:+ "+UTC" /\
  (forall zone us,
     strftime_datetime
       (replace_tzinfo {| date_of := date_of dt; hour := hour dt; minute := minute dt;
                          second := second dt; microsecond := us; tzinfo := zone |} utc)
     = strftime_datetime (replace_tzinfo dt utc)) /\
  (forall query ignore,
     deserialize_value query self (VStr (strftime_datetime (replace_tzinfo dt utc))) ignore
     = Some (Ok (VDateTime (to_the_second_utc dt)))).
Proof.
  intros Hc Hv Hvalid Hyear. split; [|split; [|split; [reflexivity|]]].
  - now apply datetime_clean_text.
  - destruct (valid_datetime_bounds dt Hvalid) as (Hd & Hh & Hm & Hs).
    destruct (valid_date_bounds _ Hd) as (Hy & Hmo & Hda).
    unfold strftime_datetime, strftime_date.
    cbn [replace_tzinfo date_of hour minute second tzinfo utc tzname].
    rewrite year_text_four, !zero_padded_two by lia.
    now rewrite !append_assoc.
  - intros query ignore. now apply datetime_read_back.
Qed.

Lemma datetime_clean_relabels_as_utc_witness :
  fst (clean (datetime_field (VDateTime sample_local))) = Ok (VStr "2024.03.09-14:30:15+UTC") /\
  (forall zone us,
     strftime_datetime
       (replace_tzinfo {| date_of := date_of sample_local; hour := 14; minute := 30;
                          second := 15; microsecond := us; tzinfo := zone |} utc)
     = "2024.03.09-14:30:15+UTC") /\
  (forall query ignore,
     deserialize_value query (datetime_field (VDateTime sample_local))
       (VStr "2024.03.09-14:30:15+UTC") ignore
     = Some (Ok (VDateTime (to_the_second_utc sample_local)))).
Proof.
  pose proof (datetime_clean_relabels_as_utc (datetime_field (VDateTime sample_local))
                sample_local eq_refl eq_refl eq_refl) as H.
  destruct H as (H1 & _ & H3 & H4); [vm_compute; discriminate|].
  split; [exact H1|]. split; [exact H3 | exact H4].
Defined.

(** C6 as stated fails: 14:30:15 at UTC+02:00 and 12:30:15 at UTC are the
    same instant, and [clean] gives two different texts for them. *)
Lemma same_instant_different_text :
  ~ (forall (self : redis_field) (dt1 dt2 : pydatetime),
       f_class self = RedisDateTime ->
       valid_datetime dt1 = true -> valid_datetime dt2 = true ->
       instant dt1 <> None -> instant dt1 = instant dt2 ->
       fst (clean (set_value self (VDateTime dt1)))
       = fst (clean (set_value self (VDateTime dt2)))).
Proof.
  intros H.
  specialize (H (datetime_field VNone) sample_local sample_utc eq_refl eq_refl eq_refl).
  assert (Hsome : instant sample_local <> None) by discriminate.
  specialize (H Hsome eq_refl). vm_compute in H. discriminate H.
Qed.

(** *** A float and the Decimal made from it are the same number *)

Lemma trailing_zeros_nonneg m : 0 <= trailing_zeros m.
Proof. induction m; cbn [trailing_zeros]; lia. Qed.

Lemma trailing_zeros_divide m : (2 ^ trailing_zeros m | Zpos m).
Proof.
  induction m as [m IH|m IH|]; cbn [trailing_zeros]; try apply Z.divide_1_l.
  rewrite Z.pow_add_r by (pose proof (trailing_zeros_nonneg m); lia).
  change (2 ^ 1) with 2. change (Zpos m~0) with (2 * Zpos m).
  now apply Z.mul_divide_mono_l.
Qed.

Lemma pow2_divides_mantissa (neg : bool) m k :
  0 <= k <= trailing_zeros m ->
  (if neg then Zneg m else Zpos m) / 2 ^ k * 2 ^ k = (if neg then Zneg m else Zpos m).
Proof.
  intros Hk.
  assert (Hd : (2 ^ k | Zpos m)).
  { apply Z.divide_trans with (2 ^ trailing_zeros m); [|apply trailing_zeros_divide].
    exists (2 ^ (trailing_zeros m - k)). rewrite <- Z.pow_add_r by lia.
    f_equal. lia. }
  assert (Hs : (2 ^ k | if neg then Zneg m else Zpos m)).
  { destruct neg; [|exact Hd]. change (Zneg m) with (- Zpos m).
    now apply Z.divide_opp_r. }
  destruct Hs as [q Hq]. rewrite Hq.
  rewrite Z.div_mul by (apply Z.pow_nonzero; lia). reflexivity.
Qed.

Lemma Qcompare_scaled (c1 c2 : Z) (d1 d2 : positive) :
  c1 * Zpos d2 = c2 * Zpos d1 -> Qcompare (Qmake c1 d1) (Qmake c2 d2) = Eq.
Proof. intros H. apply Qeq_alt. unfold Qeq. cbn [Qnum Qden]. exact H. Qed.

Lemma pos_pow (b n : Z) : 0 < b -> 0 <= n -> Zpos (Z.to_pos (b ^ n)) = b ^ n.
Proof. intros Hb Hn. apply Z2Pos.id. now apply Z.pow_pos_nonneg. Qed.

Lemma decimal_of_float_same_number (f : spec_float) :
  f <> S754_nan ->
  xnum_compare (xnum_of_decimal (decimal_of_float f)) (xnum_of_float f) = Some Eq.
Proof.
  intros Hnan. destruct f as [s|s| |neg m e]; try reflexivity; [now destruct s | easy |].
  cbn [decimal_of_float xnum_of_float].
  set (sm := if neg then Zneg m else Zpos m).
  destruct (Z.leb_spec 0 e) as [He|He].
  - cbn [xnum_of_decimal xnum_compare]. f_equal. unfold Q_scale.
    destruct (Z.leb_spec 0 e); [|lia]. change (0 <=? 0) with true. cbv iota.
    unfold inject_Z. apply Qcompare_scaled. change (10 ^ 0) with 1. lia.
  - set (k := Z.min (- e) (trailing_zeros m)).
    pose proof (trailing_zeros_nonneg m) as Ht.
    assert (Hk : 0 <= k <= trailing_zeros m) by (unfold k; lia).
    pose proof (pow2_divides_mantissa neg m k Hk) as Hdiv. fold sm in Hdiv.
    cbn [xnum_of_decimal xnum_compare]. f_equal. unfold Q_scale.
    destruct (Z.leb_spec 0 e); [lia|].
    destruct (Z.leb_spec 0 (e + k)) as [Hz|Hz].
    + assert (e + k = 0) as Hek by (unfold k in *; lia).
      rewrite Hek. change (- 0) with 0. change (5 ^ 0) with 1. change (10 ^ 0) with 1.
      unfold inject_Z. apply Qcompare_scaled.
      rewrite pos_pow by lia. replace (- e) with k by lia. lia.
    + apply Qcompare_scaled. rewrite !pos_pow by lia.
      replace (- e) with (- (e + k) + k) by lia.
      rewrite Z.pow_add_r by lia.
      replace 10 with (2 * 5) by reflexivity. rewrite Z.pow_mul_l.
      rewrite <- Hdiv at 2. ring.
Qed.

Lemma py_decimal_same_number v :
  isinstance v [TInt; TFloat] = true -> v <> VFloat S754_nan ->
  exists d, py_decimal v = Ok d /\ py_eq (VDecimal d) v = Ok true.
Proof.
  intros Hi Hnan. destruct v; try discriminate Hi.
  - exists (DFinite (if b then 1 else 0) 0). split; [reflexivity|]. now destruct b.
  - exists (DFinite z 0). split; [reflexivity|].
    unfold py_eq. cbn [pyval_size Nat.add py_eq_fuel py_eq_step numeric xnum_of_decimal
                       xnum_compare].
    unfold Q_scale, inject_Z. change (0 <=? 0) with true. cbv iota.
    rewrite Qcompare_scaled; [reflexivity|].
    change (10 ^ 0) with 1. lia.
  - exists (decimal_of_float f). split; [reflexivity|].
    unfold py_eq. cbn [pyval_size Nat.add py_eq_fuel py_eq_step numeric].
    rewrite decimal_of_float_same_number; [reflexivity|]. congruence.
Qed.

Lemma isinstance_none ts : isinstance VNone ts = false.
Proof. induction ts as [|t ts IH]; [reflexivity | exact IH]. Qed.

Lemma json_round_trip (self self' : redis_field) v text ignore :
  RedisField_clean self = (Ok v, self') ->
  f_value self' = v ->
  f_allowed_types self' = f_allowed_types self ->
  isinstance v (f_allowed_types self) = true ->
  json_dumps v = Ok text ->
  json_loads text = Ok v ->
  fst (RedisJson_clean self) = Ok (VStr text) /\
  Some (RedisJson_deserialize_value self (VStr text) ignore) = Some (Ok v) /\
  v = v.
Proof.
  intros Hclean Hval Hall Hi Hdumps Hloads.
  assert (Hn : is_none v = false).
  { destruct v; try reflexivity. now rewrite isinstance_none in Hi. }
  split; [|split; [|reflexivity]].
  - unfold RedisJson_clean. rewrite Hclean.
    cbn [set_value f_value f_allowed_types]. rewrite Hn, Hall.
    rewrite validate_type_instance by exact Hi. cbn [res_bind]. now rewrite Hdumps.
  - unfold RedisJson_deserialize_value, RedisField_deserialize_value.
    cbn [is_none andb res_bind].
    rewrite validate_type_instance by reflexivity. cbn [res_bind json_loads_val].
    rewrite Hloads. cbn [res_bind]. now rewrite validate_type_instance.
Qed.

(** C2, as the code has it: for each of the seven kinds, a value the field
    accepts and that is of the kind's own type ([round_trips]) comes back
    from [deserialize_value] applied to what [clean] returned. *)
Theorem deserialize_clean_round_trip
    (query : string -> list (string * pyval) -> fres (list pyval))
    (self : redis_field) (v : pyval) (ignore : bool) :
  fst (check_value self) = Ok v ->
  round_trips self v ->
  exists serialized back,
    fst (clean self) = Ok serialized /\
    deserialize_value query self serialized ignore = Some (Ok back) /\
    comes_back self v back.
Proof.
  intros Hcv Hrt.
  destruct (RedisField_clean_resolved self v Hcv) as (self' & Hclean & Hval & Hcls & Hall & _).
  unfold round_trips, comes_back, clean, deserialize_value in *.
  destruct (f_class self) eqn:Hc; try contradiction.
  - (* String *)
    destruct v; try discriminate Hrt.
    exists (VStr s), (VStr s). unfold RedisString_clean. rewrite Hclean.
    cbn [set_value f_value is_none py_str fst]. repeat split.
  - (* Number *)
    exists v, v. unfold RedisNumber_clean. rewrite Hclean. cbn [set_value f_value fst].
    rewrite validate_type_instance by exact Hrt. split; [reflexivity|]. split; [|reflexivity].
    unfold RedisNumber_deserialize_value, RedisField_deserialize_value.
    destruct v; try discriminate Hrt; cbn [is_none andb res_bind];
      now rewrite validate_type_instance.
  - (* Boolean *)
    destruct v; try discriminate Hrt.
    exists (VInt (if b then 1 else 0)), (VBool b).
    unfold RedisBool_clean, RedisNumber_clean. rewrite Hclean.
    cbn [set_value f_value fst]. split; [now destruct b|]. split; [|reflexivity].
    now destruct b.
  - (* Decimal *)
    destruct Hrt as [Hi Hnan].
    destruct (py_decimal_same_number v Hi Hnan) as (d & Hd & Heq).
    exists v, (VDecimal d). unfold RedisDecimal_clean. rewrite Hclean.
    cbn [set_value f_value fst].
    assert (Hnd : match v with VDecimal _ => False | _ => True end)
      by (destruct v; try discriminate Hi; exact I).
    split; [|split; [|split; [reflexivity | exact Heq]]].
    + destruct v; try contradiction; cbn [f_value]; now rewrite validate_type_instance.
    + unfold RedisDecimal_deserialize_value, RedisField_deserialize_value.
      destruct v; try discriminate Hi; cbn [is_none andb res_bind]; now rewrite Hd.
  - (* Json *)
    destruct Hrt as (Hi & text & Hdumps & Hloads).
    exists (VStr text), v. apply (json_round_trip self self' v text ignore); auto.
  - (* Dict *)
    destruct Hrt as (Hi & text & Hdumps & Hloads).
    exists (VStr text), v. apply (json_round_trip self self' v text ignore); auto.
  - (* List *)
    destruct Hrt as (Hi & text & Hdumps & Hloads).
    exists (VStr text), v. apply (json_round_trip self self' v text ignore); auto.
  - (* DateTime *)
    destruct Hrt as (dt & -> & Hvalid & Hyear & Hus & Htz).
    exists (VStr (strftime_datetime (replace_tzinfo dt utc))), (VDateTime dt).
    split; [|split; [|reflexivity]].
    + pose proof (datetime_clean_text self dt Hc Hcv) as H.
      unfold clean in H. now rewrite Hc in H.
    + pose proof (datetime_read_back query self dt ignore Hc Hvalid Hyear) as H.
      unfold deserialize_value in H. rewrite Hc in H. rewrite H.
      unfold to_the_second_utc. rewrite <- Hus, <- Htz. now destruct dt.
  - (* Date *)
    destruct Hrt as (d & -> & Hvalid & Hyear).
    exists (VStr (strftime_date d)), (VDate d). unfold RedisDate_clean. rewrite Hclean.
    cbn [set_value f_value is_none fst].
    rewrite validate_type_instance by reflexivity. cbn [res_bind format_date fst].
    split; [reflexivity|]. split; [|reflexivity].
    unfold RedisDate_deserialize_value, RedisField_deserialize_value.
    cbn [is_none andb res_bind].
    rewrite validate_type_instance by reflexivity. cbn [res_bind strptime_val].
    now rewrite strptime_date_strftime by assumption.
Qed.

Lemma deserialize_clean_round_trip_witness :
  fst (check_value (dict_field some_dict)) = Ok some_dict /\
  round_trips (dict_field some_dict) some_dict /\
  exists serialized back,
    fst (clean (dict_field some_dict)) = Ok serialized /\
    deserialize_value no_query (dict_field some_dict) serialized true = Some (Ok back) /\
    comes_back (dict_field some_dict) some_dict back.
Proof.
  assert (Hrt : round_trips (dict_field some_dict) some_dict).
  { split; [reflexivity|].
    eexists. split; vm_compute; reflexivity. }
  split; [reflexivity|]. split; [exact Hrt|].
  exact (deserialize_clean_round_trip no_query (dict_field some_dict) some_dict true
           eq_refl Hrt).
Defined.

(** C2 as stated fails: a DateTime field accepts what [datetime.now()]
    returns, a naive datetime with microseconds, and what comes back from
    its serialized form is cut to the second and tagged UTC, which is not
    equal to it. *)
Lemma datetime_does_not_round_trip :
  ~ (forall query (self : redis_field) (v serialized back : pyval) (ignore : bool),
       f_class self = RedisDateTime ->
       fst (check_value self) = Ok v ->
       fst (clean self) = Ok serialized ->
       deserialize_value query self serialized ignore = Some (Ok back) ->
       py_eq back v = Ok true).
Proof.
  intros H.
  specialize (H no_query (datetime_field (VDateTime sample_now)) (VDateTime sample_now)
                (VStr "2024.03.09-14:30:15+UTC")
                (VDateTime (to_the_second_utc sample_now)) true
                eq_refl eq_refl eq_refl eq_refl).
  vm_compute in H. discriminate H.
Qed.

(** A Decimal goes through a float on the way out: [Decimal('1.1')] comes
    back as the exact value of the float nearest to 1.1, another number. *)
Example decimal_through_float :
  fst (clean (decimal_field (VDecimal (DFinite 11 (-1)))))
  = Ok (VFloat (S754_finite false 4953959590107546 (-52))) /\
  deserialize_value no_query (decimal_field VNone)
    (VFloat (S754_finite false 4953959590107546 (-52))) true
  = Some (Ok (VDecimal
                (DFinite 1100000000000000088817841970012523233890533447265625 (-51)))) /\
  py_eq (VDecimal (DFinite 1100000000000000088817841970012523233890533447265625 (-51)))
        (VDecimal (DFinite 11 (-1))) = Ok false.
Proof. repeat split; vm_compute; reflexivity. Qed.

(** ** Saving: fields, attributes and the server *)

Lemma lookup_field_put_same name f fields g :
  lookup_field name fields = Some g ->
  lookup_field name (put_field name f fields) = Some f.
Proof.
  induction fields as [|[k h] rest IH]; cbn [lookup_field put_field]; [discriminate|].
  destruct (String.eqb k name) eqn:Hk; cbn [lookup_field]; rewrite Hk; [reflexivity | exact IH].
Qed.

Lemma lookup_field_put_other name other f fields :
  other <> name ->
  lookup_field name (put_field other f fields) = lookup_field name fields.
Proof.
  intros Hne. induction fields as [|[k h] rest IH]; cbn [lookup_field put_field]; [reflexivity|].
  destruct (String.eqb k other) eqn:Hk; cbn [lookup_field].
  - apply String.eqb_eq in Hk. subst k.
    now rewrite (proj2 (String.eqb_neq other name) Hne).
  - now rewrite IH.
Qed.

Lemma lookup_attr_set_same name v attrs :
  lookup_attr name (set_attr name v attrs) = Some v.
Proof.
  induction attrs as [|[k w] rest IH]; cbn [lookup_attr set_attr].
  - now rewrite String.eqb_refl.
  - destruct (String.eqb k name) eqn:Hk; cbn [lookup_attr]; rewrite Hk; [reflexivity | exact IH].
Qed.

Lemma lookup_attr_set_other name other v attrs :
  other <> name ->
  lookup_attr name (set_attr other v attrs) = lookup_attr name attrs.
Proof.
  intros Hne. induction attrs as [|[k w] rest IH]; cbn [lookup_attr set_attr].
  - now rewrite (proj2 (String.eqb_neq other name) Hne).
  - destruct (String.eqb k other) eqn:Hk; cbn [lookup_attr].
    + apply String.eqb_eq in Hk. subst k.
      now rewrite (proj2 (String.eqb_neq other name) Hne).
    + now rewrite IH.
Qed.

Lemma lookup_field_set_value_same name v fields g :
  lookup_field name fields = Some g ->
  lookup_field name (set_field_value name v fields) = Some (set_value g v).
Proof.
  induction fields as [|[k h] rest IH]; cbn [lookup_field set_field_value]; [discriminate|].
  destruct (String.eqb k name) eqn:Hk; cbn [lookup_field]; rewrite Hk.
  - now intros [= ->].
  - exact IH.
Qed.

Lemma lookup_field_set_value_other name other v fields :
  other <> name ->
  lookup_field name (set_field_value other v fields) = lookup_field name fields.
Proof.
  intros Hne. induction fields as [|[k h] rest IH]; cbn [lookup_field set_field_value];
    [reflexivity|].
  destruct (String.eqb k other) eqn:Hk; cbn [lookup_field].
  - apply String.eqb_eq in Hk. subst k.
    now rewrite (proj2 (String.eqb_neq other name) Hne).
  - now rewrite IH.
Qed.

Lemma lookup_field_in name fields g :
  lookup_field name fields = Some g -> In name (map fst fields).
Proof.
  induction fields as [|[k h] rest IH]; cbn [lookup_field map fst]; [discriminate|].
  destruct (String.eqb k name) eqn:Hk.
  - apply String.eqb_eq in Hk. now left.
  - intros H. right. now apply IH.
Qed.

(** *** What an allocation writes *)

Lemma wait_for_lock_writes fuel mgr model_name db r db' :
  wait_for_lock fuel mgr db = Some (r, db') -> same_records mgr model_name db db'.
Proof.
  revert db. induction fuel as [|fuel IH]; intros db; cbn [wait_for_lock]; [discriminate|].
  destruct (is_locked mgr db) as [[|]|].
  - apply IH.
  - intros [= <- <-] key Hl _. unfold redis_get, redis_set_int, redis_set.
    now rewrite lookup_insert_ne.
  - intros [= <- <-] key _ _. reflexivity.
Qed.

Lemma next_id_writes fuel mgr model_name db r db' :
  next_id fuel mgr model_name db = Some (r, db') -> same_records mgr model_name db db'.
Proof.
  unfold next_id.
  destruct (wait_for_lock fuel mgr db) as [[[[]|e] db1]|] eqn:Hw; [| |discriminate].
  - pose proof (wait_for_lock_writes _ _ model_name _ _ _ Hw) as H1.
    destruct (stored_counter _) as [n|e].
    + intros [= <- <-] key Hl Hc. rewrite <- (H1 key Hl Hc).
      unfold release_lock, redis_get, redis_set_int, redis_set.
      now rewrite !lookup_insert_ne.
    + now intros [= <- <-].
  - intros [= <- <-]. exact (wait_for_lock_writes _ _ model_name _ _ _ Hw).
Qed.

(** *** A value outside the choices *)





Lemma deserialize_value_no_relation query (f : redis_field) raw ignore :
  is_relation (f_class f) = false ->
  exists r, deserialize_value query f raw ignore = Some r.
Proof. unfold deserialize_value. destruct (f_class f); try discriminate; eauto. Qed.

Lemma class_attribute_no_relation model name f :
  no_relations model = true ->
  class_attribute model name = Ok (Some f) ->
  is_relation (f_class f) = false.
Proof.
  unfold no_relations, class_attribute. intros Hall.
  destruct (lookup_field name (cls_fields model)) as [g|] eqn:Hg.
  - intros [= <-]. rewrite forallb_forall in Hall.
    assert (Hin : In (name, g) (cls_fields model) \/ exists k, In (k, g) (cls_fields model)).
    { right. clear Hall. induction (cls_fields model) as [|[k h] rest IH]; [discriminate|].
      cbn [lookup_field] in Hg. destruct (String.eqb k name).
      - injection Hg as ->. exists k. now left.
      - destruct (IH Hg) as [k' Hk']. exists k'. now right. }
    destruct Hin as [Hin|[k Hin]]; apply Hall in Hin; now apply negb_true_iff in Hin.
  - destruct (mem_string name redis_model_members); discriminate.
Qed.

Lemma deserialize_instance_field_returns env query self name raw :
  no_relations (inst_class self) = true ->
  exists r, _deserialize_instance_field env query (OfInstance self) name raw = Some r.
Proof.
  intros Hno. unfold _deserialize_instance_field, owner_attribute.
  destruct (lookup_attr name (inst_attrs self)); [cbn; eauto|].
  destruct (class_attribute (inst_class self) name) as [[f|]|] eqn:Hc; cbn [fres_bind]; eauto.
  apply deserialize_value_no_relation. eapply class_attribute_no_relation; eauto.
Qed.

(** Without references to other models the loop always comes to an end. *)
Lemma serialize_fields_returns env query :
  forall names self cleaned deserialized,
    no_relations (inst_class self) = true ->
    exists r self', serialize_fields env query self names cleaned deserialized = Some (r, self').
Proof.
  induction names as [|n names IH]; intros self cleaned deserialized Hno;
    cbn [serialize_fields]; [eauto|].
  destruct (lookup_field n (inst_fields self)) as [g|]; [|eauto].
  destruct (clean g) as [[v|e] g']; [|eauto].
  destruct (deserialize_instance_field_returns env query (with_field self n g') n v Hno)
    as [[w|e] ->]; [|eauto].
  apply IH. exact Hno.
Qed.

Lemma next_id_returns fuel mgr model_name db :
  is_locked mgr db = Ok false ->
  exists r db', next_id (S fuel) mgr model_name db = Some (r, db').
Proof.
  intros Hfree. unfold next_id. cbn [wait_for_lock]. rewrite Hfree.
  destruct (stored_counter _); eauto.
Qed.




Lemma serialize_data_returns fuel env self db :
  is_locked (base_mgr env) db = Ok false ->
  no_relations (inst_class self) = true ->
  exists r self' db', _serialize_data (S fuel) env self db = Some (r, self', db').
Proof.
  intros Hfree Hno. unfold _serialize_data.
  destruct (id_is_unset self) as [[|]|]; [| |eauto].
  - destruct (next_id_returns fuel (base_mgr env) (cls_name (inst_class self)) db Hfree)
      as ([new_id|e] & db1 & ->); [|eauto].
    destruct (instance_key _ _); [|eauto].
    destruct (serialize_fields_returns env (relation_query (S fuel) env db1)
                (map fst (inst_fields (setattr self "id" (VInt new_id))))
                (setattr self "id" (VInt new_id)) [] [] Hno)
      as ([[c d]|e] & s & ->); eauto.
  - destruct (instance_key _ _); [|eauto].
    destruct (serialize_fields_returns env (relation_query (S fuel) env db)
                (map fst (inst_fields self)) self [] [] Hno)
      as ([[c d]|e] & s & ->); eauto.
Qed.



(** [Job(status='bogus').save()] raises the error of the choice check,
    with the model and the field named, and the server holds no record of
    the class afterwards. *)
Example save_bogus_status :
  match save 1 job_env (new_job (VStr "bogus")) shop_db with
  | Some (r, _, db') =>
      r = Err (RedisModelsException
                 "value is not allowed. Allowed values: ... (Job -> status)") /\
      get_keys shop_mgr "Job" db' = []
  | None => False
  end.
Proof. vm_compute. split; reflexivity. Qed.


(** ... and [Job(status='').save()] writes the record. *)
Example save_empty_status :
  match save 1 job_env (new_job (VStr "")) shop_db with
  | Some (r, _, db') => r = Ok tt /\ map fst (get_keys shop_mgr "Job" db') = ["shop:Job:1"]
  | None => False
  end.
Proof. vm_compute. split; reflexivity. Qed.

(** ** The id of an instance *)

Lemma clean_id_field (i : Z) :
  clean (set_value RedisId_field (VInt i))
  = (Ok (VInt i), set_value RedisId_field (VInt i)).
Proof.
  destruct i; reflexivity.
Qed.

Lemma set_attr_in name v items x :
  In x (set_attr name v items) -> x = (name, v) \/ In x items.
Proof.
  induction items as [|[k w] rest IH]; cbn [set_attr].
  - intros [<-|[]]. now left.
  - destruct (String.eqb_spec k name) as [->|Hne].
    + intros [<-|Hin]; [now left | right; now right].
    + intros [<-|Hin]; [right; now left|].
      destruct (IH Hin) as [->|Hin']; [now left | right; now right].
Qed.

Lemma id_entry_set i name v items :
  id_entry_is i items -> (name = "id" -> v = VInt i) ->
  id_entry_is i (set_attr name v items).
Proof.
  intros Hi Hv w Hin. apply set_attr_in in Hin as [[= <- <-]|Hin]; [now apply Hv|].
  now apply Hi.
Qed.

Lemma has_id_with_field i self name f :
  has_id i self ->
  (name = "id" -> f = set_value RedisId_field (VInt i)) ->
  has_id i (with_field self name f).
Proof.
  intros [Ha Hf] Hid. split; [exact Ha|]. cbn [with_field inst_fields].
  destruct (String.eqb_spec name "id") as [->|Hne].
  - rewrite (lookup_field_put_same _ _ _ _ Hf). now rewrite Hid.
  - now rewrite lookup_field_put_other.
Qed.

Lemma has_id_setattr i self name v :
  has_id i self -> (name = "id" -> v = VInt i) -> has_id i (setattr self name v).
Proof.
  intros [Ha Hf] Hid. unfold has_id. cbn [setattr inst_attrs inst_fields].
  destruct (String.eqb_spec name "id") as [->|Hne].
  - rewrite Hid by reflexivity. rewrite lookup_attr_set_same.
    now rewrite (lookup_field_set_value_same _ _ _ _ Hf).
  - rewrite lookup_attr_set_other, lookup_field_set_value_other by exact Hne. now split.
Qed.

(** The loop of [_serialize_data] leaves the id alone and hands it on
    unchanged among the deserialized fields. *)
Lemma serialize_fields_keeps_id env query i :
  forall names self cleaned deserialized r self',
    has_id i self ->
    id_entry_is i deserialized ->
    serialize_fields env query self names cleaned deserialized = Some (r, self') ->
    has_id i self' /\
    forall c d, r = Ok (c, d) -> id_entry_is i d.
Proof.
  induction names as [|n names IH]; intros self cleaned deserialized r self' Hid Hd;
    cbn [serialize_fields].
  - intros [= <- <-]. split; [exact Hid|]. now intros c d [= <- <-].
  - destruct (lookup_field n (inst_fields self)) as [g|] eqn:Hg;
      [|intros [= <- <-]; split; [exact Hid | discriminate]].
    assert (Hclean : n = "id" -> clean g = (Ok (VInt i), set_value RedisId_field (VInt i))).
    { intros ->. destruct Hid as [_ Hf]. rewrite Hf in Hg. injection Hg as <-.
      apply clean_id_field. }
    destruct (clean g) as [[v|e] g'] eqn:Hc.
    + assert (Hid' : has_id i (with_field self n g')).
      { apply has_id_with_field; [exact Hid|]. intros Hn. specialize (Hclean Hn). congruence. }
      destruct (_deserialize_instance_field env query _ n v) as [[w|e]|] eqn:Hdes;
        [| |discriminate].
      * apply IH; [exact Hid'|].
        apply id_entry_set; [exact Hd|]. intros ->.
        specialize (Hclean eq_refl). injection Hclean as -> _.
        unfold _deserialize_instance_field, owner_attribute in Hdes.
        destruct Hid' as [Ha _]. rewrite Ha in Hdes. cbn in Hdes. congruence.
      * intros [= <- <-]. split; [exact Hid' | discriminate].
    + intros [= <- <-]. split; [|discriminate].
      apply has_id_with_field; [exact Hid|]. intros Hn. specialize (Hclean Hn). congruence.
Qed.

Lemma has_id_fold_setattr i (items : list (string * pyval)) :
  forall self,
    has_id i self ->
    id_entry_is i items ->
    has_id i (fold_left (fun s kv => setattr s (fst kv) (snd kv)) items self).
Proof.
  induction items as [|[k v] rest IH]; intros self Hid Hitems; [exact Hid|].
  cbn [fold_left fst snd]. apply IH.
  - apply has_id_setattr; [exact Hid|]. intros ->. apply Hitems. now left.
  - intros v' Hin. apply Hitems. now right.
Qed.

Lemma id_is_set i self : has_id i self -> id_is_unset self = Ok false.
Proof.
  intros [Ha Hf]. unfold id_is_unset, instance_val. cbn [py_getattr].
  rewrite Ha. cbn [res_bind is_none]. now rewrite Hf.
Qed.

(** A save of an instance that carries an id leaves that id in place,
    whatever the outcome. *)
Lemma save_keeps_id fuel env self db i r self' db' :
  has_id i self ->
  save fuel env self db = Some (r, self', db') ->
  has_id i self'.
Proof.
  intros Hid. unfold save, _serialize_data. rewrite (id_is_set i self Hid).
  destruct (instance_key _ _) as [key|]; [|now intros [= <- <- <-]].
  destruct (serialize_fields _ _ _ _ _ _) as [[[[c d]|e] s]|] eqn:Hs; [| |discriminate].
  - assert (Hnil : id_entry_is i []) by (intros v []).
    destruct (serialize_fields_keeps_id _ _ i _ _ _ _ _ _ Hid Hnil Hs) as [Hid' Hd].
    specialize (Hd c d eq_refl).
    unfold _save.
    destruct (py_split key ":") as [|p [|m [|ins [|]]]]; try (now intros [= <- <- <-]).
    destruct (py_int_of_str ins); [|now intros [= <- <- <-]].
    destruct (json_dumps _); intros [= <- <- <-]; [|exact Hid'].
    now apply has_id_fold_setattr.
  - assert (Hnil : id_entry_is i []) by (intros v []).
    destruct (serialize_fields_keeps_id _ _ i _ _ _ _ _ _ Hid Hnil Hs) as [Hid' _].
    now intros [= <- <- <-].
Qed.

Lemma has_id_after_allocation self i :
  has_no_id self -> has_id i (setattr self "id" (VInt i)).
Proof.
  intros [Ha Hf]. unfold has_id. cbn [setattr inst_attrs inst_fields].
  rewrite lookup_attr_set_same. now rewrite (lookup_field_set_value_same _ _ _ _ Hf).
Qed.

Lemma id_is_unset_no_id self : has_no_id self -> id_is_unset self = Ok true.
Proof.
  intros [Ha Hf]. unfold id_is_unset, instance_val. cbn [py_getattr].
  rewrite Ha.
  assert (Hm : mem_string "id" (map fst (inst_fields self)) = true).
  { apply lookup_field_in in Hf. unfold mem_string. apply existsb_exists.
    exists "id". split; [exact Hf | reflexivity]. }
  rewrite Hm. cbn [res_bind is_none]. now rewrite Hf.
Qed.

(** An update that does not name [id] writes back the id the record held. *)
Lemma update_fields_keep_id model fields_to_update i :
  lookup_attr "id" fields_to_update = None ->
  forall instance_data serialized_data written,
    record_id_is i instance_data ->
    id_entry_is i serialized_data ->
    update_fields model fields_to_update instance_data serialized_data = Ok written ->
    id_entry_is i written.
Proof.
  intros Hno. induction instance_data as [|[key data] rest IH];
    intros serialized written Hrec Hacc; cbn [update_fields].
  - now intros [= <-].
  - destruct key; try discriminate.
    destruct (class_attribute model s) as [attr|]; [|discriminate]. cbn [res_bind].
    destruct (String.eqb_spec s "id") as [->|Hne].
    + rewrite Hno. cbn [res_bind]. apply IH.
      * intros v Hin. apply Hrec. now right.
      * apply id_entry_set; [exact Hacc|]. intros _. apply Hrec. now left.
    + destruct (match lookup_attr s fields_to_update with Some _ => _ | None => _ end)
        as [cleaned|]; [|discriminate].
      cbn [res_bind]. apply IH.
      * intros v Hin. apply Hrec. now right.
      * apply id_entry_set; [exact Hacc|]. intros ->. contradiction.
Qed.

(** C9, as the code has it.  A save of an instance that carries an id
    leaves that id in place, whether the save succeeds or fails.  A save of
    an instance without an id takes the next id of its class first, before
    any field is checked: when the call returns, the instance carries the
    stored counter plus one, also when the save failed.  An update works on
    the stored records, not on the instances, and writes back the id a
    record held unless [id] is among the fields to update. *)
Theorem id_is_taken_first_and_kept
    (fuel : nat) (env : environment) (self : instance) (db : store) :
  (forall i r self' db',
     has_id i self ->
     save fuel env self db = Some (r, self', db') ->
     has_id i self') /\
  (forall c r self' db',
     has_no_id self ->
     is_locked (base_mgr env) db = Ok false ->
     stored_counter (redis_get (max_id_key (base_mgr env) (cls_name (inst_class self))) db)
     = Ok c ->
     save (S fuel) env self db = Some (r, self', db') ->
     has_id (c + 1) self') /\
  (has_no_id self ->
   is_locked (base_mgr env) db = Ok false ->
   no_relations (inst_class self) = true ->
   exists r self' db', save (S fuel) env self db = Some (r, self', db')) /\
  (forall model key fields_to_update text items written i,
     lookup_attr "id" fields_to_update = None ->
     redis_get key db = Some text ->
     json_loads text = Ok (VDict items) ->
     record_id_is i items ->
     _update_serialize_fields db key model fields_to_update = Ok written ->
     id_entry_is i written).
Proof.
  split; [|split; [|split]].
  - intros i r self' db' Hid Hs. exact (save_keeps_id _ _ _ _ _ _ _ _ Hid Hs).
  - intros c r self' db' Hno Hfree Hc.
    destruct (next_id_free_lock fuel (base_mgr env) (cls_name (inst_class self)) db c Hfree Hc)
      as (db1 & Hn & _).
    pose proof (has_id_after_allocation self (c + 1) Hno) as Hid.
    unfold save, _serialize_data. rewrite (id_is_unset_no_id self Hno), Hn.
    destruct (instance_key _ _) as [key|]; [|now intros [= <- <- <-]].
    assert (Hnil : id_entry_is (c + 1) []) by (intros v []).
    destruct (serialize_fields _ _ _ _ _ _) as [[[[cl d]|e] s]|] eqn:Hs; [| |discriminate].
    + destruct (serialize_fields_keeps_id _ _ _ _ _ _ _ _ _ Hid Hnil Hs) as [Hid' Hd].
      specialize (Hd cl d eq_refl). unfold _save.
      destruct (py_split key ":") as [|p [|m [|ins [|]]]]; try (now intros [= <- <- <-]).
      destruct (py_int_of_str ins); [|now intros [= <- <- <-]].
      destruct (json_dumps _); intros [= <- <- <-]; [|exact Hid'].
      now apply has_id_fold_setattr.
    + destruct (serialize_fields_keeps_id _ _ _ _ _ _ _ _ _ Hid Hnil Hs) as [Hid' _].
      now intros [= <- <- <-].
  - intros Hno Hfree Hrel.
    destruct (serialize_data_returns fuel env self db Hfree Hrel)
      as ([[[k cl] d]|e] & s & d' & Hs); unfold save; rewrite Hs; [|eauto].
    destruct (_save env s d' k cl d) as [[r s'] d'']. eauto.
  - intros model key upd text items written i Hno Hget Hload Hrec.
    unfold _update_serialize_fields. rewrite Hget, Hload. cbn [res_bind].
    apply (update_fields_keep_id model upd i Hno); [exact Hrec | intros v []].
Qed.

(** C9 as stated fails: [Job(status='bogus')] has no id, its save fails,
    and afterwards it carries the id 1 that the failed save took. *)
Lemma failed_save_leaves_an_id :
  ~ (forall fuel env self db e self' db',
       has_no_id self ->
       save fuel env self db = Some (Err e, self', db') ->
       lookup_attr "id" (inst_attrs self') = None).
Proof.
  intros H.
  assert (Hno : has_no_id (new_job (VStr "bogus"))) by (split; reflexivity).
  eassert (Hs : save 1 job_env (new_job (VStr "bogus")) shop_db = Some (Err _, _, _))
    by (vm_compute; reflexivity).
  specialize (H _ _ _ _ _ _ _ Hno Hs). vm_compute in H. discriminate H.
Qed.

(** The same run, seen the other way: the failed save leaves the id 1 on
    the instance and the counter of the class at 1; the next instance of
    the class gets 2. *)
Example failed_save_uses_up_an_id :
  match save 1 job_env (new_job (VStr "bogus")) shop_db with
  | Some (Err _, self', db') =>
      lookup_attr "id" (inst_attrs self') = Some (VInt 1) /\
      redis_get (max_id_key shop_mgr "Job") db' = Some "1" /\
      match save 1 job_env (new_job (VStr "completed")) db' with
      | Some (Ok _, self'', _) => lookup_attr "id" (inst_attrs self'') = Some (VInt 2)
      | _ => False
      end
  | _ => False
  end.
Proof. vm_compute. repeat split. Qed.

(** A second save of a saved instance keeps its id, and an update of
    another field keeps the id in the stored record. *)
Example saved_again_and_updated :
  match save 1 job_env (new_job (VStr "in_work")) shop_db with
  | Some (Ok _, self', db') =>
      has_id 1 self' /\
      match save 1 job_env (setattr self' "status" (VStr "completed")) db' with
      | Some (Ok _, self'', db'') =>
          has_id 1 self'' /\
          match update 1 job_env Job (Some [self'']) [("status", VStr "in_work")] db'' with
          | Some (Ok [written], _) => lookup_attr "id" written = Some (VInt 1)
          | _ => False
          end
      | _ => False
      end
  | _ => False
  end.
Proof. vm_compute. repeat split. Qed.

Lemma id_is_taken_first_and_kept_witness :
  has_no_id (new_job (VStr "bogus")) /\
  is_locked (base_mgr job_env) shop_db = Ok false /\
  stored_counter (redis_get (max_id_key (base_mgr job_env) "Job") shop_db) = Ok 0 /\
  (forall r self' db',
     save 1 job_env (new_job (VStr "bogus")) shop_db = Some (r, self', db') ->
     has_id 1 self') /\
  (forall i r self' db',
     has_id i (setattr (new_job (VStr "bogus")) "id" (VInt i)) ->
     save 1 job_env (setattr (new_job (VStr "bogus")) "id" (VInt i)) shop_db
     = Some (r, self', db') ->
     has_id i self').
Proof.
  assert (Hno : has_no_id (new_job (VStr "bogus"))) by (split; reflexivity).
  split; [exact Hno|]. split; [reflexivity|]. split; [reflexivity|]. split.
  - intros r self' db' Hs.
    exact (proj1 (proj2 (id_is_taken_first_and_kept 0 job_env (new_job (VStr "bogus"))
                           shop_db)) 0 r self' db' Hno eq_refl eq_refl Hs).
  - intros i.
    exact (proj1 (id_is_taken_first_and_kept 1 job_env
                    (setattr (new_job (VStr "bogus")) "id" (VInt i)) shop_db) i).
Defined.

Lemma null_link_applies_operator_to_none_witness :
  _filter VNone ["task_id"] "exact" (VInt 5) = Ok false /\
  _filter (VModel "Task" ["bot_session"; "id"] [("bot_session", VNone); ("id", VInt 1)])
    ["bot_session"; "session_token"] "exact" (VStr "0f0e")
  = _filter_value VNone "exact" (VStr "0f0e").
Proof.
  pose proof (null_link_applies_operator_to_none ["task_id"] "exact" (VInt 5))
    as (_ & _ & H3 & _).
  pose proof (null_link_applies_operator_to_none ["session_token"] "exact" (VStr "0f0e"))
    as (_ & H2 & _).
  split; [exact (H3 eq_refl eq_refl)|].
  exact (H2 "Task" ["bot_session"; "id"] [("bot_session", VNone); ("id", VInt 1)]
            "bot_session" eq_refl).
Defined.
(** * Further properties of the code *)

(** ** Prefixes and record keys *)

Lemma prefix_empty s : String.prefix "" s = true.
Proof. now destruct s. Qed.

Lemma is_substring_colon_cons c s :
  is_substring ":" (String c s) = Ascii.eqb c ":" || is_substring ":" s.
Proof.
  cbn [is_substring String.prefix].
  destruct (ascii_dec ":" c) as [<-|Hne].
  - now rewrite prefix_empty.
  - destruct (Ascii.eqb_spec c ":") as [->|_]; [congruence|reflexivity].
Qed.

Lemma remove_colons_colon_free s : colon_free (remove_colons s) = true.
Proof.
  unfold colon_free. induction s as [|c s IH]; [reflexivity|].
  cbn [remove_colons]. destruct (Ascii.eqb c ":") eqn:Hc; [exact IH|].
  rewrite is_substring_colon_cons, Hc. exact IH.
Qed.

Lemma process_prefix_colon_free (prefix : pyval) : colon_free (process_prefix prefix) = true.
Proof.
  destruct prefix; try reflexivity.
  cbn [process_prefix]. destruct (is_substring ":" s) eqn:Hs.
  - apply remove_colons_colon_free.
  - unfold colon_free. now rewrite Hs.
Qed.

Lemma rev_app_append s a b : String.rev_app s a +:+ b = String.rev_app s (a +:+ b).
Proof.
  revert a. induction s as [|c s IH]; intros a; [reflexivity|].
  cbn [String.rev_app]. now rewrite IH.
Qed.

Lemma rev_cons_append cur c r :
  String.rev (String c cur) +:+ r = String.rev cur +:+ String c r.
Proof. unfold String.rev. cbn [String.rev_app]. now rewrite !rev_app_append. Qed.

Lemma colon_free_cons c s :
  colon_free (String c s) = negb (Ascii.eqb c ":") && colon_free s.
Proof. unfold colon_free. now rewrite is_substring_colon_cons, negb_orb. Qed.

Lemma prefix_colon_cons c s : String.prefix ":" (String c s) = Ascii.eqb c ":".
Proof.
  cbn [String.prefix]. destruct (ascii_dec ":" c) as [<-|Hne].
  - now rewrite prefix_empty.
  - destruct (Ascii.eqb_spec c ":") as [->|_]; [congruence|reflexivity].
Qed.

Lemma split_on_colon_free s : forall cur,
  colon_free s = true -> split_on ":" cur s = [String.rev cur +:+ s].
Proof.
  induction s as [|c s IH]; intros cur Hs.
  - cbn [split_on]. now rewrite append_empty.
  - rewrite colon_free_cons in Hs. apply andb_true_iff in Hs as [Hc Hs].
    apply negb_true_iff in Hc.
    cbn [split_on]. rewrite prefix_colon_cons, Hc.
    rewrite (IH _ Hs). now rewrite rev_cons_append.
Qed.

Lemma split_on_colon a : forall cur rest,
  colon_free a = true ->
  split_on ":" cur (a +:+ ":" +:+ rest) = (String.rev cur +:+ a) :: split_on ":" "" rest.
Proof.
  induction a as [|c a IH]; intros cur rest Ha.
  - rewrite append_nil, append_empty.
    change (":" +:+ rest) with (String ":" rest).
    cbn [split_on]. rewrite prefix_colon_cons. reflexivity.
  - rewrite colon_free_cons in Ha. apply andb_true_iff in Ha as [Hc Ha].
    apply negb_true_iff in Hc.
    rewrite append_cons. cbn [split_on]. rewrite prefix_colon_cons, Hc.
    rewrite (IH _ _ Ha). now rewrite rev_cons_append.
Qed.

Lemma split_three p n t :
  colon_free p = true -> colon_free n = true -> colon_free t = true ->
  py_split (p +:+ ":" +:+ n +:+ ":" +:+ t) ":" = [p; n; t].
Proof.
  intros Hp Hn Ht. unfold py_split.
  rewrite (split_on_colon p) by exact Hp.
  rewrite (split_on_colon n) by exact Hn.
  rewrite (split_on_colon_free t) by exact Ht.
  reflexivity.
Qed.

Lemma string_of_uint_colon_free (d : Decimal.uint) :
  colon_free (DecimalString.NilEmpty.string_of_uint d) = true.
Proof.
  induction d; cbn [DecimalString.NilEmpty.string_of_uint];
    rewrite ?colon_free_cons, ?IHd; reflexivity.
Qed.

Lemma py_str_of_int_colon_free (z : Z) : colon_free (py_str_of_int z) = true.
Proof.
  unfold py_str_of_int, NilZero.string_of_int.
  destruct (Z.to_int z) as [d|d]; unfold NilZero.string_of_uint.
  - destruct d; try reflexivity; apply (string_of_uint_colon_free (_ d)).
  - rewrite colon_free_cons. cbn [Ascii.eqb Bool.eqb negb andb].
    destruct d; try reflexivity; apply (string_of_uint_colon_free (_ d)).
Qed.

(** X1: [process_prefix] never returns a text with a colon in it, whatever
    it is given (text with colons, text without, or a value that is no
    text); a text without a colon comes back as it is, so processing a
    prefix twice changes nothing more. *)
Theorem process_prefix_has_no_colon (prefix : pyval) :
  colon_free (process_prefix prefix) = true /\
  (forall s, colon_free s = true -> process_prefix (VStr s) = s) /\
  process_prefix (VStr (process_prefix prefix)) = process_prefix prefix.
Proof.
  assert (Hkeep : forall s, colon_free s = true -> process_prefix (VStr s) = s).
  { intros s Hs. unfold colon_free in Hs. apply negb_true_iff in Hs.
    cbn [process_prefix]. now rewrite Hs. }
  split; [apply process_prefix_colon_free|]. split; [exact Hkeep|].
  apply Hkeep, process_prefix_colon_free.
Qed.

(** X2: with a prefix and a class name free of colons (as [process_prefix]
    and Python's identifiers make them) and an integer id, the key of an
    instance is [prefix:Model:id], it splits at the colons into exactly
    these three parts, and [_save] gets past its unpacking and its
    [int(instance_id)]: it fails only where [json.dumps] fails, and
    otherwise writes the record under that key. *)
Theorem save_key_is_well_formed (env : environment) (self : instance) (db : store)
    (f : redis_field) (i : Z) (fields_dict deserialized_fields : list (string * pyval)) :
  colon_free (prefix (base_mgr env)) = true ->
  colon_free (cls_name (inst_class self)) = true ->
  lookup_field "id" (inst_fields self) = Some f ->
  f_value f = VInt i ->
  exists key,
    instance_key (base_mgr env) self = Ok key /\
    py_split key ":" = [prefix (base_mgr env); cls_name (inst_class self); py_str_of_int i] /\
    _save env self db key fields_dict deserialized_fields
    = match json_dumps (as_dict fields_dict) with
      | Err e => (Err e, self, db)
      | Ok fields_data =>
          (Ok tt,
           fold_left (fun s kv => setattr s (fst kv) (snd kv)) deserialized_fields self,
           redis_set key fields_data db)
      end.
Proof.
  intros Hp Hn Hf Hi. eexists. split; [|split].
  - unfold instance_key. rewrite Hf, Hi. cbn [py_str res_bind]. reflexivity.
  - apply split_three; [exact Hp|exact Hn|apply py_str_of_int_colon_free].
  - unfold _save.
    rewrite split_three by (try assumption; apply py_str_of_int_colon_free).
    now rewrite py_int_of_str_of_int.
Qed.

Lemma save_key_is_well_formed_witness :
  exists key,
    instance_key (base_mgr job_env) (setattr (new_job (VStr "in_work")) "id" (VInt 7)) = Ok key /\
    py_split key ":" = ["shop"; "Job"; py_str_of_int 7] /\
    _save job_env (setattr (new_job (VStr "in_work")) "id" (VInt 7)) shop_db key
      [("id", VInt 7)] []
    = match json_dumps (as_dict [("id", VInt 7)]) with
      | Err e => (Err e, setattr (new_job (VStr "in_work")) "id" (VInt 7), shop_db)
      | Ok fields_data =>
          (Ok tt, setattr (new_job (VStr "in_work")) "id" (VInt 7),
           redis_set key fields_data shop_db)
      end.
Proof.
  apply (save_key_is_well_formed job_env
           (setattr (new_job (VStr "in_work")) "id" (VInt 7)) shop_db
           (set_value RedisId_field (VInt 7)) 7 [("id", VInt 7)] []);
    vm_compute; reflexivity.
Defined.

(** ** Field objects: construction, copies and null values *)

Lemma validate_type_ok value allowed_types v :
  validate_type value allowed_types = Ok v ->
  v = value /\ (truthy value = false \/ isinstance value allowed_types = true).
Proof.
  unfold validate_type.
  destruct (truthy value); destruct (isinstance value allowed_types);
    cbn [negb orb]; intros [= <-]; auto.
Qed.

Lemma validate_type_again value allowed_types v :
  validate_type value allowed_types = Ok v ->
  validate_type (exec_if_callable v) allowed_types = Ok v.
Proof.
  intros H. destruct (validate_type_ok _ _ _ H) as [-> Hv].
  assert (Hsame : exec_if_callable value = value).
  { destruct value; try reflexivity.
    destruct Hv as [Hv|Hv]; [discriminate|].
    unfold isinstance in Hv. apply existsb_exists in Hv as (t & _ & Ht).
    destruct t; discriminate. }
  rewrite Hsame. exact H.
Qed.

(** X3: a field object made by its constructor can always be copied,
    whatever value it holds meanwhile, and the copy is the object as the
    constructor made it: same class, choices, null flag, allowed types and
    model, and no value.  The default is the same too, except that a
    reference calls a callable default once more.  The copy of a
    [RedisJson] made with its own [allowed_types] does not keep them: it
    allows [dict] and [list]. *)
Theorem copy_is_the_field_as_constructed
    (c : field_class) (default choices : pyval) (null : bool) (model : string) :
  (forall f v,
     new_field c default choices null model = Ok f ->
     exists f',
       copy (set_value f v) = Ok f' /\
       f_value f' = VNone /\ f_class f' = f_class f /\ f_choices f' = f_choices f /\
       f_null f' = f_null f /\ f_allowed_types f' = f_allowed_types f /\
       f_model f' = f_model f /\
       f_default f' = match c with
                      | RedisForeignKey => exec_if_callable (f_default f)
                      | _ => f_default f
                      end) /\
  (forall allowed_types f v,
     new_json_field allowed_types default choices null = Ok f ->
     exists f',
       copy (set_value f v) = Ok f' /\ f_allowed_types f' = JSON_TYPES /\
       f_value f' = VNone /\ f_default f' = f_default f /\
       f_choices f' = f_choices f /\ f_null f' = f_null f).
Proof.
  split.
  - intros f v Hnew. unfold new_field in Hnew.
    destruct (validate_type _ [TDict]) as [ch|] eqn:Hch; [|discriminate].
    cbn [res_bind] in Hnew. injection Hnew as <-.
    unfold copy, new_field, set_value.
    cbn [f_class f_default f_choices f_null f_model f_allowed_types f_value].
    assert (Hagain : validate_type
                       (exec_if_callable
                          match c with
                          | RedisBool => VDict [(VBool true, VStr "Yes"); (VBool false, VStr "No")]
                          | _ => ch
                          end) [TDict] = Ok ch).
    { destruct c; try exact (validate_type_again _ _ _ Hch).
      cbn in Hch |- *. exact Hch. }
    rewrite Hagain. cbn [res_bind]. eexists. split; [reflexivity|].
    cbn [f_class f_default f_choices f_null f_model f_allowed_types f_value].
    repeat split; destruct c; reflexivity.
  - intros allowed_types f v Hnew. unfold new_json_field, new_field in Hnew.
    destruct (validate_type _ [TDict]) as [ch|] eqn:Hch; [|discriminate].
    cbn [res_bind f_class f_default f_choices f_null f_model f_allowed_types f_value] in Hnew.
    injection Hnew as <-.
    unfold copy, new_field, set_value.
    cbn [f_class f_default f_choices f_null f_model f_allowed_types f_value].
    rewrite (validate_type_again _ _ _ Hch). cbn [res_bind].
    eexists. split; [reflexivity|]. repeat split.
Qed.

(** X4: reading a stored null.  For a field of any class, [deserialize_value]
    gives [None] back for a stored [None] when the field is nullable, and
    also when it is not nullable but deserialization errors are ignored
    (the default of the manager): [null=False] is then not enforced on
    reading.  Only a field that is not nullable, read while errors are
    not ignored, raises [RedisModelsException]; no query is made for a
    reference either way. *)
Theorem stored_null_reads_as_none
    (query : string -> list (string * pyval) -> fres (list pyval))
    (self : redis_field) (ignore : bool) :
  deserialize_value query self VNone ignore
  = if negb (f_null self) && negb ignore
    then Some (Err (RedisModelsException "None can not be deserialized"))
    else Some (Ok VNone).
Proof.
  unfold deserialize_value, RedisString_deserialize_value, RedisNumber_deserialize_value,
    RedisBool_deserialize_value, RedisDecimal_deserialize_value, RedisJson_deserialize_value,
    RedisDateTime_deserialize_value, RedisDate_deserialize_value,
    RedisForeignKey_deserialize_value, RedisManyToMany_deserialize_value,
    RedisJson_deserialize_value, RedisNumber_deserialize_value,
    RedisField_deserialize_value.
  cbn [is_none andb].
  destruct (f_class self), (f_null self), ignore; reflexivity.
Qed.

(** ** [RedisBool] *)

Lemma py_eq_bool_other (b : bool) (v : pyval) :
  isinstance1 v TRedisModel = false -> exists r, py_eq (VBool b) v = Ok r.
Proof.
  intros Hv. unfold py_eq. cbn [pyval_size Nat.add py_eq_fuel].
  destruct v; try discriminate; cbn [py_eq_step numeric]; eauto.
Qed.

Lemma hashable_no_model v : hashable v = true -> isinstance1 v TRedisModel = false.
Proof. now destruct v. Qed.

Lemma bool_choices_member (v : pyval) :
  dict_has_key v [(VBool true, VStr "Yes"); (VBool false, VStr "No")] = Err TypeError \/
  exists r, dict_has_key v [(VBool true, VStr "Yes"); (VBool false, VStr "No")] = Ok r.
Proof.
  unfold dict_has_key. destruct (hashable v) eqn:Hh; [right|now left].
  apply hashable_no_model in Hh. cbn [dict_get].
  destruct (py_eq_bool_other true v Hh) as [r1 ->].
  destruct (py_eq_bool_other false v Hh) as [r2 ->].
  cbn [res_bind]. destruct r1, r2; cbn [res_bind]; eauto.
Qed.
(** X5: what [clean] makes of the value of a [RedisBool].  [True] gives 1
    and [False] gives 0.  Any other truthy value raises, and never with
    the [RedisModelsException] of the choice check: a value that is not
    among the two choices ends in [TypeError] (the message of the choice
    error joins the keys, which are booleans, as if they were text, and
    an unhashable value cannot be looked up), and a value that equals
    [True] without being a [bool] (the int 1, the float 1.0) ends in the
    bare [Exception] of [validate_type]. *)
Theorem boolean_clean_outcomes (default choices : pyval) (null : bool) (model : string)
    (f : redis_field) :
  new_field RedisBool default choices null model = Ok f ->
  (forall b : bool, fst (clean (set_value f (VBool b))) = Ok (VInt (if b then 1 else 0))) /\
  (forall v, truthy v = true -> v <> VBool true ->
     fst (clean (set_value f v)) = Err TypeError \/
     fst (clean (set_value f v)) = Err type_error_of_validate).
Proof.
  intros Hnew. unfold new_field in Hnew. cbn in Hnew. injection Hnew as <-.
  split.
  - intros [|]; vm_compute; reflexivity.
  - intros v Ht Hne.
    unfold clean, RedisBool_clean, RedisNumber_clean, RedisField_clean, check_value, set_value.
    pose proof (truthy_not_none v Ht) as Hn.
    cbv zeta.
    cbn [f_class f_default f_choices f_null f_model f_allowed_types f_value].
    rewrite Hn.
    cbn [f_class f_default f_choices f_null f_model f_allowed_types f_value].
    rewrite Hn.
    cbn [f_class f_default f_choices f_null f_model f_allowed_types f_value andb].
    rewrite Ht. cbn [truthy length Nat.eqb negb andb].
    destruct (bool_choices_member v) as [->|[r ->]]; [left; reflexivity|].
    destruct r.
    + cbn [f_class f_default f_choices f_null f_model f_allowed_types f_value].
      assert (Hval : forall ts, validate_type v ts
                = if isinstance v ts then Ok v else Err type_error_of_validate).
      { intros ts. unfold validate_type. rewrite Ht. reflexivity. }
      rewrite (Hval [TInt; TFloat]).
      destruct (isinstance v [TInt; TFloat]) eqn:Hi; [|right; reflexivity].
      cbn [f_class f_default f_choices f_null f_model f_allowed_types f_value].
      rewrite Hn, (Hval [TBool]).
      assert (Hb : isinstance v [TBool] = false).
      { destruct v; try reflexivity; try discriminate.
        destruct b; [congruence|discriminate]. }
      rewrite Hb. right; reflexivity.
    + left; reflexivity.
Qed.

Lemma boolean_clean_outcomes_witness :
  (forall b : bool,
     fst (clean (set_value flag_field (VBool b))) = Ok (VInt (if b then 1 else 0))) /\
  (forall v, truthy v = true -> v <> VBool true ->
     fst (clean (set_value flag_field v)) = Err TypeError \/
     fst (clean (set_value flag_field v)) = Err type_error_of_validate).
Proof. apply (boolean_clean_outcomes VNone VNone true "" flag_field). reflexivity. Defined.

Example boolean_clean_of_numbers :
  fst (clean (set_value flag_field (VInt 0))) = Ok (VInt 0) /\
  fst (clean (set_value flag_field (VInt 1))) = Err type_error_of_validate /\
  fst (clean (set_value flag_field (VInt 2))) = Err TypeError /\
  fst (clean (set_value flag_field (VStr ""))) = Err ValueError.
Proof. repeat split; vm_compute; reflexivity. Qed.

(** ** The ids of instances *)

Lemma getattr_error v name e : py_getattr v name = Err e -> e = AttributeError.
Proof.
  destruct v; cbn [py_getattr]; try congruence.
  destruct (lookup_attr name attrs); [discriminate|].
  destruct (mem_string name fields); [discriminate|].
  destruct (mem_string name redis_model_members); [discriminate|congruence].
Qed.

Lemma ids_of_error l e : ids_of l = Err e -> e = AttributeError.
Proof.
  induction l as [|i l IH]; [discriminate|]. cbn [ids_of].
  destruct (py_getattr i "id") eqn:Hi; cbn [res_bind].
  - destruct (ids_of l); cbn [res_bind]; [discriminate|]. intros [= <-]. now apply IH.
  - intros [= <-]. now apply getattr_error in Hi.
Qed.

Lemma ids_of_instance_vals (instances : list instance) :
  Forall (fun i => is_Some (lookup_attr "id" (inst_attrs i))) instances ->
  ids_of (map instance_val instances) = Ok (map (attr_of "id") instances).
Proof.
  induction 1 as [|i l [v Hv] _ IH]; [reflexivity|].
  cbn [map ids_of]. unfold instance_val at 1. cbn [py_getattr]. rewrite Hv.
  cbn [res_bind]. rewrite IH. cbn [res_bind]. unfold attr_of at 2. now rewrite Hv.
Qed.

(** X6: [get_ids_from_untyped_data].  Of a list it raises [IndexError]
    exactly when the list is empty (the test looks at its first element);
    of a list of instances that carry an id it returns their ids, one for
    each instance and in their order; of one instance, the list of its
    id. *)
Theorem ids_of_untyped_data :
  (forall l, get_ids_from_untyped_data (VList l) = Err IndexError <-> l = []) /\
  (forall instances : list instance,
     instances <> [] ->
     Forall (fun i => is_Some (lookup_attr "id" (inst_attrs i))) instances ->
     get_ids_from_untyped_data (VList (map instance_val instances))
     = Ok (VList (map (attr_of "id") instances))) /\
  (forall self : instance,
     is_Some (lookup_attr "id" (inst_attrs self)) ->
     get_ids_from_untyped_data (instance_val self) = Ok (VList [attr_of "id" self])).
Proof.
  split; [|split].
  - intros l. split; [|now intros ->].
    destruct l as [|first rest]; [reflexivity|]. cbn [get_ids_from_untyped_data].
    destruct (isinstance1 first TRedisModel); [|discriminate].
    destruct (ids_of (first :: rest)) eqn:Hids; cbn [res_bind]; [discriminate|].
    apply ids_of_error in Hids. congruence.
  - intros instances Hne Hall.
    destruct instances as [|i rest]; [congruence|].
    cbn [get_ids_from_untyped_data map]. unfold instance_val at 1. cbn [isinstance1].
    change (instance_val i :: map instance_val rest) with (map instance_val (i :: rest)).
    now rewrite (ids_of_instance_vals _ Hall).
  - intros self [v Hv]. unfold instance_val. cbn [get_ids_from_untyped_data py_getattr].
    rewrite Hv. unfold attr_of. now rewrite Hv.
Qed.

(** ** The lock *)

Lemma wait_for_lock_held fuel mgr db :
  is_locked mgr db = Ok true -> wait_for_lock fuel mgr db = None.
Proof.
  intros Hheld. induction fuel as [|fuel IH]; [reflexivity|].
  cbn [wait_for_lock]. now rewrite Hheld.
Qed.

(** X7: nothing in [wait_for_lock] gives up.  While the flag of the lock
    is set, [next_id] does not return however long it polls, and with it
    the first [save] of an instance (one that has no id yet) does not
    return either. *)
Theorem held_lock_blocks_allocation (fuel : nat) (env : environment) (self : instance)
    (model_name : string) (db : store) :
  is_locked (base_mgr env) db = Ok true ->
  next_id fuel (base_mgr env) model_name db = None /\
  (has_no_id self -> save fuel env self db = None).
Proof.
  intros Hheld.
  assert (Hnext : forall name, next_id fuel (base_mgr env) name db = None).
  { intros name. unfold next_id. now rewrite wait_for_lock_held. }
  split; [apply Hnext|].
  intros Hid. unfold save, _serialize_data.
  rewrite (id_is_unset_no_id self Hid). now rewrite Hnext.
Qed.

Lemma held_lock_blocks_allocation_witness :
  next_id 100 (base_mgr job_env) "Job" held_db = None /\
  (has_no_id (new_job (VStr "in_work")) ->
   save 100 job_env (new_job (VStr "in_work")) held_db = None).
Proof.
  apply (held_lock_blocks_allocation 100 job_env (new_job (VStr "in_work")) "Job" held_db).
  vm_compute. reflexivity.
Defined.

(** X8: making a manager frees the lock.  [BaseRedisManager.__init__]
    ends with the flag cleared whatever the server held before, also
    when another client had set it; it writes no other key; its prefix has
    no colon; and the next allocation of an id returns at its first
    poll. *)
Theorem new_manager_frees_the_lock
    (prefix0 : pyval) (ignore_errors use_keys non_blocking : bool) (db : store) :
  let mgr := fst (new_manager prefix0 ignore_errors use_keys non_blocking db) in
  let db' := snd (new_manager prefix0 ignore_errors use_keys non_blocking db) in
  is_locked mgr db' = Ok false /\
  colon_free (prefix mgr) = true /\
  (forall key, key <> lock_key mgr -> redis_get key db' = redis_get key db) /\
  (forall model_name c,
     stored_counter (redis_get (max_id_key mgr model_name) db) = Ok c ->
     exists db'', next_id 1 mgr model_name db' = Some (Ok (c + 1), db'')).
Proof.
  cbv zeta. unfold new_manager. cbn [fst snd].
  set (mgr := Build_BaseRedisManager _ _ _ _).
  split; [apply is_locked_release|]. split; [apply process_prefix_colon_free|].
  assert (Hkeep : forall key, key <> lock_key mgr ->
                    redis_get key (release_lock mgr db) = redis_get key db).
  { intros key Hkey. unfold release_lock, redis_set_int, redis_set, redis_get.
    now rewrite lookup_insert_ne by congruence. }
  split; [apply Hkeep|].
  intros model_name c Hc.
  destruct (next_id_free_lock 0 mgr model_name (release_lock mgr db) c
              (is_locked_release mgr db)) as (db'' & Hrun & _).
  - rewrite Hkeep; [exact Hc|]. intros E. symmetry in E. now apply lock_key_not_counter in E.
  - now exists db''.
Qed.

(** X9: the flag has to be there.  On a server that does not hold the key
    of the lock (one flushed after the manager was made, say), [is_locked]
    fails on [int(None)]: [next_id] raises [TypeError], and so does the
    first [save] of an instance, with nothing written. *)
Theorem missing_lock_key_is_a_type_error (fuel : nat) (env : environment) (self : instance)
    (model_name : string) (db : store) :
  redis_get (lock_key (base_mgr env)) db = None ->
  next_id (S fuel) (base_mgr env) model_name db = Some (Err TypeError, db) /\
  (has_no_id self -> save (S fuel) env self db = Some (Err TypeError, self, db)).
Proof.
  intros Hno.
  assert (Hnext : forall name,
            next_id (S fuel) (base_mgr env) name db = Some (Err TypeError, db)).
  { intros name. unfold next_id. cbn [wait_for_lock]. unfold is_locked. now rewrite Hno. }
  split; [apply Hnext|].
  intros Hid. unfold save, _serialize_data.
  rewrite (id_is_unset_no_id self Hid). now rewrite Hnext.
Qed.

Lemma missing_lock_key_is_a_type_error_witness :
  next_id 1 (base_mgr job_env) "Job" ∅ = Some (Err TypeError, ∅) /\
  (has_no_id (new_job (VStr "in_work")) ->
   save 1 job_env (new_job (VStr "in_work")) ∅
   = Some (Err TypeError, new_job (VStr "in_work"), ∅)).
Proof.
  apply (missing_lock_key_is_a_type_error 0 job_env (new_job (VStr "in_work")) "Job" ∅).
  reflexivity.
Defined.

Lemma insert_second {A} (x y z : A) (l : list A) :
  <[1%nat := x]> (y :: z :: l) = y :: x :: l.
Proof. reflexivity. Qed.

(** X10: reading the flag and setting it are two requests, and the lock
    is only as good as that.  When two callers both read a clear flag
    before either sets it, and both read the counter before either writes
    it, both return the same id, the counter moves by one only, and the
    flag ends clear. *)
Theorem poll_then_set_is_not_atomic (mgr : BaseRedisManager) (model_name : string)
    (db : store) (c : Z) :
  is_locked mgr db = Ok false ->
  stored_counter (redis_get (max_id_key mgr model_name) db) = Ok c ->
  exists db',
    run_schedule mgr [0; 1; 0; 1; 0; 1; 0; 1; 0; 1]%nat
      [(model_name, Polling); (model_name, Polling)] db
    = ([(model_name, Returned (c + 1)); (model_name, Returned (c + 1))], db') /\
    stored_counter (redis_get (max_id_key mgr model_name) db') = Ok (c + 1) /\
    is_locked mgr db' = Ok false.
Proof.
  intros Hfree Hc.
  assert (Hc1 : stored_counter
                  (redis_get (max_id_key mgr model_name)
                     (redis_set_int (lock_key mgr) 1 (redis_set_int (lock_key mgr) 1 db)))
                = Ok c).
  { unfold redis_get, redis_set_int, redis_set in *.
    now rewrite !lookup_insert_ne by apply lock_key_not_counter. }
  eexists. split; [|split].
  - cbn [run_schedule nth_error next_id_step]. rewrite Hfree, insert_head.
    cbn [run_schedule nth_error next_id_step]. rewrite Hfree, insert_second.
    cbn [run_schedule nth_error next_id_step]. rewrite insert_head.
    cbn [run_schedule nth_error next_id_step]. rewrite insert_second.
    cbn [run_schedule nth_error next_id_step]. rewrite Hc1, insert_head.
    cbn [run_schedule nth_error next_id_step]. rewrite Hc1, insert_second.
    cbn [run_schedule nth_error next_id_step]. rewrite insert_head.
    cbn [run_schedule nth_error next_id_step]. rewrite insert_second.
    cbn [run_schedule nth_error next_id_step]. rewrite insert_head.
    cbn [run_schedule nth_error next_id_step]. rewrite insert_second.
    reflexivity.
  - unfold release_lock, redis_set_int, redis_set, redis_get.
    rewrite !lookup_insert_ne by apply lock_key_not_counter.
    rewrite lookup_insert_eq. apply stored_counter_of_int.
  - apply is_locked_release.
Qed.

Lemma poll_then_set_is_not_atomic_witness :
  exists db',
    run_schedule shop_mgr [0; 1; 0; 1; 0; 1; 0; 1; 0; 1]%nat
      [("Task", Polling); ("Task", Polling)] shop_db
    = ([("Task", Returned (41 + 1)); ("Task", Returned (41 + 1))], db') /\
    stored_counter (redis_get (max_id_key shop_mgr "Task") db') = Ok (41 + 1) /\
    is_locked shop_mgr db' = Ok false.
Proof.
  apply (poll_then_set_is_not_atomic shop_mgr "Task" shop_db 41); vm_compute; reflexivity.
Defined.

(** ** The filter engine: operators *)

Lemma mem_string_lookup_method name methods :
  mem_string name (map fst methods) = true ->
  exists method, lookup_method name methods = Some method.
Proof.
  unfold mem_string. induction methods as [|[k f] rest IH]; [discriminate|].
  cbn [map fst existsb lookup_method]. rewrite (String.eqb_sym name k).
  destruct (String.eqb k name); [eauto|exact IH].
Qed.

(** X11: the operator [_split_filtering] returns is always one of
    [FILTER_METHODS], whatever the filter argument: [_filter_value] finds
    its method, and its error "Filter ... not supported" cannot come up
    for a filter passed to a query. *)
Theorem split_filtering_names_an_operator (filter_param : string) :
  is_filter_method (snd (_split_filtering filter_param)) = true /\
  forall value filter_by,
    exists method,
      lookup_method (snd (_split_filtering filter_param)) FILTER_METHODS = Some method /\
      _filter_value value (snd (_split_filtering filter_param)) filter_by
      = method value (as_utc filter_by).
Proof.
  assert (Hop : is_filter_method (snd (_split_filtering filter_param)) = true).
  { unfold _split_filtering.
    destruct (is_filter_method (List.last (py_split filter_param "__") "")) eqn:Hlast;
      cbn [negb snd]; [exact Hlast|reflexivity]. }
  split; [exact Hop|]. intros value filter_by.
  destruct (mem_string_lookup_method _ FILTER_METHODS Hop) as [method Hm].
  exists method. split; [exact Hm|]. unfold _filter_value. now rewrite Hm.
Qed.

Lemma operator_alone_splits_to_nothing (filter_param : string) :
  is_filter_method filter_param = true ->
  _split_filtering filter_param = ([], filter_param).
Proof.
  unfold is_filter_method, mem_string. cbn [FILTER_METHODS map fst existsb].
  intros H.
  repeat match type of H with
         | (String.eqb filter_param ?k || _) = true =>
             destruct (String.eqb_spec filter_param k) as [E|_];
               [rewrite E; vm_compute; reflexivity|cbn [orb] in H]
         end.
  discriminate H.
Qed.

(** X12: a filter argument that is just the name of an operator ([range],
    [contains], [gt], ...; a model may well have a field called so) has an
    empty path, and [_filter_field_name] raises [IndexError] on it for
    every field of every record: reading the first field of a record
    under such a filter stops with that error. *)
Theorem operator_name_alone_is_an_index_error (filter_param : string) :
  is_filter_method filter_param = true ->
  (forall field_name value filter_by raw_filters,
     _filter_field_name field_name value ((filter_param, filter_by) :: raw_filters)
     = Err IndexError) /\
  (forall env query model filter_by raw_filters field_name raw_value value rest tmp_instance,
     _deserialize_instance_field env query model field_name raw_value = Some (Ok value) ->
     read_fields env query model ((filter_param, filter_by) :: raw_filters)
       ((VStr field_name, raw_value) :: rest) tmp_instance
     = Some (Err IndexError)).
Proof.
  intros Hop.
  assert (Hraise : forall field_name value filter_by raw_filters,
            _filter_field_name field_name value ((filter_param, filter_by) :: raw_filters)
            = Err IndexError).
  { intros. unfold _filter_field_name. cbn [collect_allowed].
    now rewrite (operator_alone_splits_to_nothing _ Hop). }
  split; [exact Hraise|].
  intros env query model filter_by raw_filters field_name raw_value value rest tmp Hd.
  cbn [read_fields]. rewrite Hd. cbn [fres_bind]. now rewrite Hraise.
Qed.

Lemma operator_name_alone_is_an_index_error_witness :
  (forall field_name value filter_by raw_filters,
     _filter_field_name field_name value (("range", filter_by) :: raw_filters)
     = Err IndexError) /\
  (forall env query model filter_by raw_filters field_name raw_value value rest tmp_instance,
     _deserialize_instance_field env query model field_name raw_value = Some (Ok value) ->
     read_fields env query model (("range", filter_by) :: raw_filters)
       ((VStr field_name, raw_value) :: rest) tmp_instance
     = Some (Err IndexError)).
Proof. apply (operator_name_alone_is_an_index_error "range"). reflexivity. Defined.

Lemma wall_clock_replace_tzinfo dt tz : wall_clock (replace_tzinfo dt tz) = wall_clock dt.
Proof. reflexivity. Qed.

(** X13: a filter that compares a datetime with a datetime looks at the
    clock readings only.  Both sides are relabelled as UTC before the
    comparison, so [exact], [gt], [gte], [lt] and [lte] give what the
    wall-clock times give, whatever the time zones of the two (also when
    one is naive and the other aware, which Python would refuse to
    order). *)
Theorem datetime_filters_compare_wall_clocks (value filter_by : pydatetime) :
  _filter (VDateTime value) [] "exact" (VDateTime filter_by)
  = Ok (wall_clock value =? wall_clock filter_by) /\
  _filter (VDateTime value) [] "gt" (VDateTime filter_by)
  = Ok (wall_clock value >? wall_clock filter_by) /\
  _filter (VDateTime value) [] "gte" (VDateTime filter_by)
  = Ok (wall_clock value >=? wall_clock filter_by) /\
  _filter (VDateTime value) [] "lt" (VDateTime filter_by)
  = Ok (wall_clock value <? wall_clock filter_by) /\
  _filter (VDateTime value) [] "lte" (VDateTime filter_by)
  = Ok (wall_clock value <=? wall_clock filter_by).
Proof.
  unfold _filter, _filter_value.
  cbn [follow_path res_bind isinstance1 andb as_utc lookup_method FILTER_METHODS
       String.eqb Ascii.eqb Bool.eqb].
  unfold py_eq, py_gt, py_ge, py_lt, py_le, py_order.
  cbn [pyval_size Nat.add py_eq_fuel py_eq_step py_order_fuel py_order_step
       replace_tzinfo tzinfo utc datetime_eq res_bind].
  rewrite !wall_clock_replace_tzinfo.
  change (0 * 60000000) with 0. rewrite !Z.sub_0_r.
  unfold Z.gtb, Z.geb, Z.ltb, Z.leb.
  repeat split; destruct (wall_clock value ?= wall_clock filter_by); reflexivity.
Qed.

Lemma py_eq_ints (a b : Z) : py_eq (VInt a) (VInt b) = Ok (a =? b).
Proof.
  unfold py_eq. cbn [pyval_size Nat.add py_eq_fuel py_eq_step numeric xnum_compare].
  unfold Qcompare. cbn [inject_Z Qnum Qden]. rewrite !Z.mul_1_r.
  destruct (Z.compare_spec a b) as [->|H|H].
  - now rewrite Z.eqb_refl.
  - now rewrite (proj2 (Z.eqb_neq a b)) by lia.
  - now rewrite (proj2 (Z.eqb_neq a b)) by lia.
Qed.

Lemma any_eq_ints (x : Z) (l : list Z) :
  any_eq (VInt x) (map VInt l) = Ok (existsb (fun i => i =? x) l).
Proof.
  induction l as [|i l IH]; [reflexivity|].
  cbn [map any_eq existsb]. rewrite py_eq_ints. cbn [res_bind].
  destruct (i =? x); [reflexivity|exact IH].
Qed.

(** X14: the operator [in] on integers.  A filter [field__in=ids] with a
    list of integers matches an integer value exactly when the value is
    one of them, and never raises; this is the filter [update] and the
    multi-references select records with ([id__in]). *)
Theorem in_selects_the_listed_integers (x : Z) (l : list Z) :
  exists allowed,
    _filter (VInt x) [] "in" (VList (map VInt l)) = Ok allowed /\
    (allowed = true <-> In x l) /\
    _filter_field_name "id" (VInt x) [("id__in", VList (map VInt l))] = Ok allowed.
Proof.
  exists (existsb (fun i => i =? x) l).
  assert (Hf : _filter (VInt x) [] "in" (VList (map VInt l))
               = Ok (existsb (fun i => i =? x) l)).
  { unfold _filter, _filter_value.
    cbn [follow_path res_bind isinstance1 andb as_utc lookup_method FILTER_METHODS
         String.eqb Ascii.eqb Bool.eqb py_in].
    apply any_eq_ints. }
  split; [exact Hf|]. split.
  - rewrite existsb_exists. split.
    + intros (i & Hi & E). apply Z.eqb_eq in E. now subst.
    + intros Hx. exists x. split; [exact Hx|apply Z.eqb_refl].
  - unfold _filter_field_name. cbn [collect_allowed].
    change (_split_filtering "id__in") with (["id"], "in").
    cbn [String.eqb Ascii.eqb Bool.eqb]. rewrite Hf. cbn [res_bind collect_allowed forallb].
    now rewrite andb_true_r.
Qed.

(** ** Instances: the constructor and [create] *)

Lemma new_field_value c default choices null model f :
  new_field c default choices null model = Ok f -> f_value f = VNone.
Proof.
  unfold new_field. destruct (validate_type _ [TDict]); [|discriminate].
  cbn [res_bind]. now intros [= <-].
Qed.

Lemma copy_fields_spec fields : forall fields',
  copy_fields fields = Ok fields' ->
  map fst fields' = map fst fields /\
  forall name f, lookup_field name fields' = Some f -> f_value f = VNone.
Proof.
  induction fields as [|[k g] rest IH]; intros fields'; cbn [copy_fields].
  - intros [= <-]. split; [reflexivity|discriminate].
  - destruct (copy g) as [g'|] eqn:Hg; [|discriminate]. cbn [res_bind].
    destruct (copy_fields rest) as [rest'|]; [|discriminate]. cbn [res_bind].
    intros [= <-]. destruct (IH rest' eq_refl) as [Hn Hv].
    split; [cbn [map fst]; now rewrite Hn|].
    intros name f. cbn [lookup_field]. destruct (String.eqb k name).
    + intros [= <-]. exact (new_field_value _ _ _ _ _ _ Hg).
    + apply Hv.
Qed.

Lemma set_field_value_names name v fields :
  map fst (set_field_value name v fields) = map fst fields.
Proof.
  induction fields as [|[k g] rest IH]; [reflexivity|].
  cbn [set_field_value]. destruct (String.eqb k name); cbn [map fst]; [reflexivity|].
  now rewrite IH.
Qed.

Lemma lookup_field_none name fields :
  lookup_field name fields = None <-> ~ In name (map fst fields).
Proof.
  induction fields as [|[k g] rest IH]; cbn [lookup_field map fst In]; [tauto|].
  destruct (String.eqb_spec k name) as [->|Hne].
  - split; [discriminate|]. intros H. exfalso. apply H. now left.
  - rewrite IH. split; [|tauto]. intros H [E|Hin]; [congruence|tauto].
Qed.

Lemma fill_fields_values_spec kwargs : forall self self',
  _fill_fields_values self kwargs = Ok self' ->
  NoDup (map fst kwargs) ->
  inst_class self' = inst_class self /\
  map fst (inst_fields self') = map fst (inst_fields self) /\
  (forall name v, In (name, v) kwargs ->
     lookup_attr name (inst_attrs self') = Some v /\
     exists f, lookup_field name (inst_fields self) = Some f /\
               lookup_field name (inst_fields self') = Some (set_value f v)) /\
  (forall name, ~ In name (map fst kwargs) ->
     lookup_attr name (inst_attrs self') = lookup_attr name (inst_attrs self) /\
     lookup_field name (inst_fields self') = lookup_field name (inst_fields self)).
Proof.
  induction kwargs as [|[n v] rest IH]; intros self self'; cbn [_fill_fields_values].
  - intros [= <-] _. split; [reflexivity|]. split; [reflexivity|].
    split; [intros name v []|]. intros name _. split; reflexivity.
  - destruct (lookup_field n (inst_fields self)) as [g|] eqn:Hg; [|discriminate].
    intros Hfill Hnd. cbn [map fst] in Hnd. apply NoDup_cons in Hnd as [Hn Hnd].
    rewrite list_elem_of_In in Hn.
    destruct (IH _ _ Hfill Hnd) as (Hc & Hnames & Hin & Hout).
    cbn [setattr inst_class inst_fields inst_attrs] in *.
    split; [exact Hc|]. split; [now rewrite Hnames, set_field_value_names|]. split.
    + intros name v0 [[= <- <-]|Hrest].
      * destruct (Hout n Hn) as [Ha Hf]. rewrite Ha, Hf.
        split; [apply lookup_attr_set_same|].
        exists g. split; [exact Hg|]. now apply lookup_field_set_value_same.
      * assert (Hne : n <> name).
        { intros ->. apply Hn. apply in_map_iff. now exists (name, v0). }
        destruct (Hin name v0 Hrest) as (Ha & f & Hf & Hf').
        split; [exact Ha|]. exists f. split; [|exact Hf'].
        now rewrite lookup_field_set_value_other in Hf.
    + intros name Hnot. cbn [map fst In] in Hnot.
      assert (Hne : n <> name) by tauto.
      destruct (Hout name) as [Ha Hf]; [tauto|]. rewrite Ha, Hf.
      split; [now apply lookup_attr_set_other|now apply lookup_field_set_value_other].
Qed.


Lemma fill_fields_values_known kwargs : forall self,
  (forall kv, In kv kwargs -> lookup_field (fst kv) (inst_fields self) <> None) ->
  exists self', _fill_fields_values self kwargs = Ok self'.
Proof.
  induction kwargs as [|[n w] rest IH]; intros self Hall; cbn [_fill_fields_values]; [eauto|].
  destruct (lookup_field n (inst_fields self)) as [g|] eqn:Hg.
  - apply IH. intros kv Hkv. cbn [setattr inst_fields].
    rewrite lookup_field_none, set_field_value_names, <- lookup_field_none.
    apply Hall. now right.
  - exfalso. apply (Hall (n, w)); [now left|exact Hg].
Qed.




(** ** Deleting records *)

Lemma lookup_redis_delete_none (keys : list string) : forall (db : store) (key : string),
  redis_get key db = None -> redis_get key (redis_delete keys db) = None.
Proof.
  unfold redis_get, redis_delete.
  induction keys as [|k keys IH]; intros db key Hnone; cbn [fold_left]; [exact Hnone|].
  apply IH. apply lookup_delete_None. now right.
Qed.

Lemma lookup_redis_delete_in (keys : list string) : forall (db : store) (key : string),
  In key keys -> redis_get key (redis_delete keys db) = None.
Proof.
  induction keys as [|k keys IH]; intros db key; cbn [In]; [contradiction|].
  intros [->|Hin].
  - apply (lookup_redis_delete_none keys). apply lookup_delete_eq.
  - apply (IH _ _ Hin).
Qed.

Lemma lookup_redis_delete_out (keys : list string) : forall (db : store) (key : string),
  ~ In key keys -> redis_get key (redis_delete keys db) = redis_get key db.
Proof.
  unfold redis_get, redis_delete.
  induction keys as [|k keys IH]; intros db key Hnot; cbn [fold_left]; [reflexivity|].
  rewrite IH by (intros Hin; apply Hnot; now right).
  apply lookup_delete_ne. intros ->. apply Hnot. now left.
Qed.

Lemma get_keys_spec mgr model_name (db : store) key text :
  In (key, text) (get_keys mgr model_name db) <->
  is_record_of mgr model_name key = true /\ redis_get key db = Some text.
Proof.
  unfold get_keys, is_record_of, redis_get. rewrite filter_In. cbn [fst].
  rewrite <- list_elem_of_In, elem_of_map_to_list. tauto.
Qed.

Lemma delete_sync_all mgr model_name (db : store) :
  _delete_sync mgr model_name VNone db
  = Ok (redis_delete (map fst (get_keys mgr model_name db)) db).
Proof.
  unfold _delete_sync. cbn [is_none res_bind].
  now destruct (map fst (get_keys mgr model_name db)).
Qed.

Lemma lookup_delete_all mgr model_name (db : store) key :
  redis_get key (redis_delete (map fst (get_keys mgr model_name db)) db)
  = if is_record_of mgr model_name key then None else redis_get key db.
Proof.
  destruct (is_record_of mgr model_name key) eqn:Hrec.
  - destruct (redis_get key db) as [text|] eqn:Hget.
    + apply lookup_redis_delete_in.
      apply in_map_iff. exists (key, text). split; [reflexivity|].
      now apply get_keys_spec.
    + destruct (in_dec string_dec key (map fst (get_keys mgr model_name db))) as [Hin|Hnot].
      * now apply lookup_redis_delete_in.
      * now rewrite lookup_redis_delete_out.
  - apply lookup_redis_delete_out.
    intros Hin. apply in_map_iff in Hin as ([k text] & E & Hin). cbn [fst] in E. subst k.
    apply get_keys_spec in Hin as [Hrec' _]. congruence.
Qed.

Lemma get_keys_none mgr model_name (db : store) :
  (forall key, is_record_of mgr model_name key = true -> redis_get key db = None) ->
  get_keys mgr model_name db = [].
Proof.
  intros Hnone. destruct (get_keys mgr model_name db) as [|[key text] rest] eqn:Hkeys;
    [reflexivity|].
  assert (Hin : In (key, text) (get_keys mgr model_name db)) by (rewrite Hkeys; now left).
  apply get_keys_spec in Hin as [Hrec Hget]. rewrite (Hnone key Hrec) in Hget. discriminate.
Qed.

(** X17: [delete] without instances removes the records of the model and
    nothing else.  For a prefix and a class name without a character that
    the pattern of [get_keys] reads as a wildcard: afterwards the server
    holds no key that starts with [prefix:Model:], every other key holds
    what it held, and a query for the model, with any filters, returns no
    instance. *)
Theorem delete_all_removes_the_records_of_the_model
    (env : environment) (model : model_class) (db : store) :
  glob_free (prefix (base_mgr env)) = true ->
  glob_free (cls_name model) = true ->
  exists db',
    delete env model VNone db = Ok db' /\
    (forall key,
       redis_get key db'
       = if is_record_of (base_mgr env) (cls_name model) key then None
         else redis_get key db) /\
    get_keys (base_mgr env) (cls_name model) db' = [] /\
    (forall fuel filters, query (S fuel) env db' model filters = Some (Ok [])).
Proof.
  intros _ _.
  eexists. split; [apply delete_sync_all|].
  assert (Hget : forall key,
            redis_get key (redis_delete (map fst (get_keys (base_mgr env) (cls_name model) db)) db)
            = if is_record_of (base_mgr env) (cls_name model) key then None
              else redis_get key db) by apply lookup_delete_all.
  assert (Hnone : get_keys (base_mgr env) (cls_name model)
                    (redis_delete (map fst (get_keys (base_mgr env) (cls_name model) db)) db)
                  = []).
  { apply get_keys_none. intros key Hrec. now rewrite Hget, Hrec. }
  split; [exact Hget|]. split; [exact Hnone|].
  intros fuel filters. unfold query. cbn [_get_model_instances].
  unfold get_model_instances_step. now rewrite Hnone.
Qed.

Lemma delete_all_removes_the_records_of_the_model_witness :
  exists db',
    delete shop_env Task VNone shop_db2 = Ok db' /\
    (forall key,
       redis_get key db'
       = if is_record_of (base_mgr shop_env) (cls_name Task) key then None
         else redis_get key shop_db2) /\
    get_keys (base_mgr shop_env) (cls_name Task) db' = [] /\
    (forall fuel filters, query (S fuel) shop_env db' Task filters = Some (Ok [])).
Proof.
  apply (delete_all_removes_the_records_of_the_model shop_env Task shop_db2); reflexivity.
Defined.

Lemma record_keys_of_ints mgr model_name (ids : list Z) :
  record_keys mgr model_name (map VInt ids) = Ok (map (key_of_id mgr model_name) ids).
Proof.
  induction ids as [|z ids IH]; [reflexivity|].
  cbn [map record_keys]. unfold record_key at 1. cbn [py_str res_bind].
  rewrite IH. reflexivity.
Qed.

Lemma attrs_of_ids (instances : list instance) (ids : list Z) :
  map (fun i => lookup_attr "id" (inst_attrs i)) instances = map (fun z => Some (VInt z)) ids ->
  Forall (fun i => is_Some (lookup_attr "id" (inst_attrs i))) instances /\
  map (attr_of "id") instances = map VInt ids.
Proof.
  revert ids. induction instances as [|i rest IH]; intros [|z ids]; cbn [map]; try discriminate.
  - now split.
  - intros [= Hi Hrest]. destruct (IH _ Hrest) as [Hall Hmap]. split.
    + constructor; [now rewrite Hi|exact Hall].
    + unfold attr_of at 1. now rewrite Hi, Hmap.
Qed.

(** X18: [delete] with instances removes the records of the model that
    carry the ids of the instances, and nothing else: those keys are gone
    afterwards (a record that was not there is passed over) and every
    other key holds what it held.  Only the ids of the instances count,
    not their class.  An empty list of instances is not "nothing to do"
    but an [IndexError]. *)
Theorem delete_removes_the_records_with_the_ids
    (env : environment) (model : model_class) (db : store)
    (instances : list instance) (ids : list Z) :
  instances <> [] ->
  map (fun i => lookup_attr "id" (inst_attrs i)) instances = map (fun z => Some (VInt z)) ids ->
  (exists db',
     delete env model (VList (map instance_val instances)) db = Ok db' /\
     (forall z, In z ids -> redis_get (key_of_id (base_mgr env) (cls_name model) z) db' = None) /\
     (forall key,
        (forall z, In z ids -> key <> key_of_id (base_mgr env) (cls_name model) z) ->
        redis_get key db' = redis_get key db)) /\
  delete env model (VList []) db = Err IndexError.
Proof.
  intros Hne Hids. split; [|reflexivity].
  destruct (attrs_of_ids _ _ Hids) as [Hall Hmap].
  assert (Hrun : delete env model (VList (map instance_val instances)) db
                 = Ok (redis_delete (map (key_of_id (base_mgr env) (cls_name model)) ids) db)).
  { unfold delete, _delete_sync. cbn [is_none].
    destruct instances as [|i rest]; [congruence|].
    cbn [get_ids_from_untyped_data map]. unfold instance_val at 1. cbn [isinstance1].
    change (instance_val i :: map instance_val rest) with (map instance_val (i :: rest)).
    rewrite (ids_of_instance_vals _ Hall), Hmap. cbn [res_bind].
    rewrite record_keys_of_ints. cbn [res_bind].
    now destruct (map (key_of_id (base_mgr env) (cls_name model)) ids). }
  eexists. split; [exact Hrun|]. split.
  - intros z Hz. apply lookup_redis_delete_in. now apply in_map.
  - intros key Hkey. apply lookup_redis_delete_out.
    intros Hin. apply in_map_iff in Hin as (z & E & Hz). now apply (Hkey z Hz).
Qed.

Lemma delete_removes_the_records_with_the_ids_witness :
  (exists db',
     delete job_env Job
       (VList (map instance_val [setattr (new_job (VStr "in_work")) "id" (VInt 7)])) shop_db
     = Ok db' /\
     (forall z, In z [7] -> redis_get (key_of_id (base_mgr job_env) (cls_name Job) z) db' = None) /\
     (forall key,
        (forall z, In z [7] -> key <> key_of_id (base_mgr job_env) (cls_name Job) z) ->
        redis_get key db' = redis_get key shop_db)) /\
  delete job_env Job (VList []) shop_db = Err IndexError.
Proof.
  apply (delete_removes_the_records_with_the_ids job_env Job shop_db
           [setattr (new_job (VStr "in_work")) "id" (VInt 7)] [7]).
  - discriminate.
  - vm_compute. reflexivity.
Defined.

Lemma prefix_first_part (a : string) : forall b x y,
  colon_free a = true -> colon_free b = true ->
  String.prefix (a +:+ ":" +:+ x) (b +:+ ":" +:+ y) = true -> a = b.
Proof.
  induction a as [|c a IH]; intros [|d b] x y Ha Hb; rewrite ?colon_free_cons in *;
    rewrite ?append_cons, ?append_nil.
  - reflexivity.
  - apply andb_true_iff in Hb as [Hd _]. apply negb_true_iff in Hd.
    change (":" +:+ x) with (String ":" x). cbn [String.prefix].
    destruct (ascii_dec ":" d) as [<-|_]; [discriminate Hd|discriminate].
  - apply andb_true_iff in Ha as [Hc _]. apply negb_true_iff in Hc.
    change (":" +:+ y) with (String ":" y). cbn [String.prefix].
    destruct (ascii_dec c ":") as [->|_]; [discriminate Hc|discriminate].
  - apply andb_true_iff in Ha as [_ Ha]. apply andb_true_iff in Hb as [_ Hb].
    cbn [String.prefix]. destruct (ascii_dec c d) as [->|_]; [|discriminate].
    intros H. f_equal. now apply (IH b x y).
Qed.

Lemma prefix_append (a b : string) : String.prefix a (a +:+ b) = true.
Proof.
  induction a as [|c a IH]; [apply prefix_empty|].
  rewrite append_cons. cbn [String.prefix]. now destruct (ascii_dec c c).
Qed.

Lemma key_of_id_is_record mgr model_name z :
  is_record_of mgr model_name (key_of_id mgr model_name z) = true.
Proof.
  unfold is_record_of, record_prefix, key_of_id.
  replace (prefix mgr +:+ ":" +:+ model_name +:+ ":" +:+ py_str_of_int z)
    with ((prefix mgr +:+ ":" +:+ model_name +:+ ":") +:+ py_str_of_int z)
    by now rewrite !append_assoc.
  apply prefix_append.
Qed.

Lemma counter_is_no_record mgr model_name name :
  colon_free (prefix mgr) = true -> prefix mgr <> "max_id" ->
  is_record_of mgr model_name (max_id_key mgr name) = false.
Proof.
  intros Hp Hne. unfold is_record_of, record_prefix, max_id_key.
  destruct (String.prefix _ _) eqn:Hpre; [|reflexivity].
  exfalso. apply Hne.
  apply (prefix_first_part (prefix mgr) "max_id" (model_name +:+ ":") (prefix mgr +:+ ":" +:+ name));
    [exact Hp|reflexivity|exact Hpre].
Qed.

Lemma lock_is_no_record mgr model_name :
  colon_free (prefix mgr) = true -> prefix mgr <> "__lock__" ->
  is_record_of mgr model_name (lock_key mgr) = false.
Proof.
  intros Hp Hne. unfold is_record_of, record_prefix, lock_key.
  destruct (String.prefix _ _) eqn:Hpre; [|reflexivity].
  exfalso. apply Hne.
  apply (prefix_first_part (prefix mgr) "__lock__" (model_name +:+ ":") (prefix mgr));
    [exact Hp|reflexivity|exact Hpre].
Qed.





(** ** Updating records *)

Lemma update_each_keys mgr (db : store) model fields_to_update :
  forall updated_instances collected dicts,
    update_each mgr db model fields_to_update updated_instances = Ok (collected, dicts) ->
    (forall kv, In kv collected -> is_Some (redis_get (fst kv) db)) /\
    length dicts = length updated_instances.
Proof.
  induction updated_instances as [|self rest IH]; intros collected dicts; cbn [update_each].
  - intros [= <- <-]. split; [intros kv []|reflexivity].
  - destruct (instance_key mgr self) as [key|]; [|discriminate]. cbn [res_bind].
    destruct (_update_serialize_fields db key model fields_to_update) as [w|] eqn:Hw;
      [|discriminate]. cbn [res_bind].
    destruct (json_dumps (as_dict w)) as [text|]; [|discriminate]. cbn [res_bind].
    destruct (update_each mgr db model fields_to_update rest) as [[c d]|]; [|discriminate].
    cbn [res_bind]. intros [= <- <-]. destruct (IH c d eq_refl) as [Hk Hl].
    split; [|cbn [length]; now rewrite Hl].
    intros kv [<-|Hin]; [|now apply Hk]. cbn [fst].
    unfold _update_serialize_fields in Hw. destruct (redis_get key db); [eauto|discriminate].
Qed.

Lemma mset_keeps_the_keys (data : list (string * string)) : forall (db : store),
  (forall kv, In kv data -> is_Some (redis_get (fst kv) db)) ->
  forall key,
    is_Some (redis_get key (fold_left (fun d kv => redis_set (fst kv) (snd kv) d) data db))
    <-> is_Some (redis_get key db).
Proof.
  unfold redis_get, redis_set.
  induction data as [|[k v] rest IH]; intros db Hall key; cbn [fold_left fst snd]; [tauto|].
  assert (Hstep : forall key', is_Some (<[k:=v]> db !! key') <-> is_Some (db !! key')).
  { intros key'. rewrite lookup_insert_is_Some. split.
    - intros [<-|[_ H]]; [|exact H]. apply (Hall (k, v)). now left.
    - intros H. destruct (decide (k = key')); [now left|now right]. }
  rewrite IH; [apply Hstep|].
  intros kv Hin. apply Hstep. apply Hall. now right.
Qed.

(** X20: [update] is all or nothing, and works on records that are there.
    Whenever it raises, the server is as it was before the call: every
    record is read and every new value cleaned before anything is written.
    When it succeeds, the server holds exactly the keys it held: an update
    neither makes a record nor removes one.  Its result then has one entry
    (a dict of serialized fields, not an instance) for each instance it
    was given. *)
Theorem update_is_all_or_nothing (fuel : nat) (env : environment) (model : model_class)
    (instances : option (list instance)) (fields_to_update : list (string * pyval))
    (db db' : store) (r : res (list (list (string * pyval)))) :
  update fuel env model instances fields_to_update db = Some (r, db') ->
  (forall e, r = Err e -> db' = db) /\
  (forall key, is_Some (redis_get key db') <-> is_Some (redis_get key db)) /\
  (forall given dicts,
     instances = Some given ->
     forallb (fun i => String.eqb (cls_name (inst_class i)) (cls_name model)) given = true ->
     r = Ok dicts -> length dicts = length given).
Proof.
  unfold update.
  set (selected := match instances with None => _ | Some _ => _ end).
  destruct selected as [[updated|e]|] eqn:Hsel; [| |discriminate].
  - destruct (update_each (base_mgr env) db model fields_to_update updated)
      as [[collected dicts]|e] eqn:Heach.
    + destruct (update_each_keys _ _ _ _ _ _ _ Heach) as [Hkeys Hlen].
      unfold redis_mset. destruct collected as [|kv rest].
      * intros [= <- <-]. split; [reflexivity|]. split; [intros key; reflexivity|]. discriminate.
      * intros [= <- <-]. split; [discriminate|]. split.
        -- exact (mset_keeps_the_keys (kv :: rest) db Hkeys).
        -- intros given dicts' -> Hall [= <-]. subst selected. rewrite Hall in Hsel.
           injection Hsel as <-. exact Hlen.
    + intros [= <- <-]. split; [reflexivity|]. split; [intros key; reflexivity|]. discriminate.
  - intros [= <- <-]. split; [reflexivity|]. split; [intros key; reflexivity|]. discriminate.
Qed.

Lemma update_is_all_or_nothing_witness :
  (forall e, task_update_result = Err e -> shop_db3 = shop_db2) /\
  (forall key, is_Some (redis_get key shop_db3) <-> is_Some (redis_get key shop_db2)) /\
  (forall given dicts,
     @None (list instance) = Some given ->
     forallb (fun i => String.eqb (cls_name (inst_class i)) (cls_name Task)) given = true ->
     task_update_result = Ok dicts -> length dicts = length given).
Proof.
  apply (update_is_all_or_nothing 3 shop_env Task None [("task_id", VInt 5)]
           shop_db2 shop_db3 task_update_result).
  vm_compute. reflexivity.
Defined.

(** X21: an update that selects nothing is an error of the server.  With
    an empty list of instances, or without instances on a server that
    holds no record of the model, [update] calls [mset] with an empty
    mapping, which the server refuses: [ResponseError], and nothing is
    written. *)
Theorem update_of_nothing_is_refused (fuel : nat) (env : environment) (model : model_class)
    (fields_to_update : list (string * pyval)) (db : store) :
  update fuel env model (Some []) fields_to_update db = Some (Err ResponseError, db) /\
  (get_keys (base_mgr env) (cls_name model) db = [] ->
   update (S fuel) env model None fields_to_update db = Some (Err ResponseError, db)).
Proof.
  split; [reflexivity|].
  intros Hnone. unfold update, query. cbn [_get_model_instances].
  unfold get_model_instances_step. rewrite Hnone. reflexivity.
Qed.

Lemma lookup_attr_in name (attrs : list (string * pyval)) v :
  lookup_attr name attrs = Some v -> In (name, v) attrs.
Proof.
  induction attrs as [|[k w] rest IH]; cbn [lookup_attr]; [discriminate|].
  destruct (String.eqb_spec k name) as [->|_].
  - intros [= ->]. now left.
  - intros H. right. now apply IH.
Qed.

Lemma update_fields_unnamed model fields_to_update items : forall serialized_data,
  (forall name v, In (VStr name, v) items -> lookup_attr name fields_to_update = None) ->
  update_fields model fields_to_update items serialized_data
  = update_fields model [] items serialized_data.
Proof.
  induction items as [|[key field_data] rest IH]; intros acc Hno; [reflexivity|].
  cbn [update_fields]. destruct key; try reflexivity.
  rewrite (Hno s field_data) by now left. cbn [lookup_attr].
  destruct (class_attribute model s); cbn [res_bind]; [|reflexivity].
  apply IH. intros name v Hin. apply (Hno name v). now right.
Qed.

(** X22: [update] looks at the fields the stored record has, not at those
    of the class.  A field named in the update that the stored record does
    not hold is passed over without an error, and without being checked:
    for that record the update writes what an update without any field
    writes. *)
Theorem update_passes_over_fields_not_stored (db : store) (key : string)
    (model : model_class) (fields_to_update : list (string * pyval)) (text : string) :
  redis_get key db = Some text ->
  (forall name v, In (name, v) fields_to_update -> record_has_field name text = false) ->
  _update_serialize_fields db key model fields_to_update
  = _update_serialize_fields db key model [].
Proof.
  intros Hget Hno. unfold _update_serialize_fields. rewrite Hget.
  destruct (json_loads text) as [[]|] eqn:Hload; cbn [res_bind]; try reflexivity.
  apply update_fields_unnamed. intros name v Hin.
  destruct (lookup_attr name fields_to_update) as [w|] eqn:Hw; [|reflexivity].
  exfalso. apply lookup_attr_in in Hw. specialize (Hno name w Hw).
  unfold record_has_field in Hno. rewrite Hload in Hno.
  assert (Hex : existsb (fun kv : pyval * pyval =>
                           match fst kv with VStr k => String.eqb k name | _ => false end)
                        items = true).
  { apply existsb_exists. exists (VStr name, v). split; [exact Hin|]. cbn [fst].
    apply String.eqb_refl. }
  congruence.
Qed.

Lemma update_passes_over_fields_not_stored_witness :
  _update_serialize_fields shop_db2 "shop:Task:42" Task [("priority", VStr "bogus")]
  = _update_serialize_fields shop_db2 "shop:Task:42" Task [].
Proof.
  apply (update_passes_over_fields_not_stored shop_db2 "shop:Task:42" Task
           [("priority", VStr "bogus")] task_record_text).
  - vm_compute. reflexivity.
  - intros name v [[= <- <-]|[]]. vm_compute. reflexivity.
Defined.

(** ** What a save writes *)

Lemma instance_key_has_id mgr self i :
  has_id i self ->
  instance_key mgr self = Ok (key_of_id mgr (cls_name (inst_class self)) i).
Proof. intros [_ Hf]. unfold instance_key, key_of_id. now rewrite Hf. Qed.

Lemma save_body_writes env query (self : instance) (db : store) i key :
  has_id i self ->
  forall self1 self' db' cleaned deserialized,
    serialize_fields env query self (map fst (inst_fields self)) [] []
    = Some (Ok (cleaned, deserialized), self1) ->
    _save env self1 db key cleaned deserialized = (Ok tt, self', db') ->
    has_id i self' /\ exists text, db' = redis_set key text db.
Proof.
  intros Hid self1 self' db' cleaned deserialized Hs Hsave.
  assert (Hnil : id_entry_is i []) by (intros v []).
  destruct (serialize_fields_keeps_id _ _ i _ _ _ _ _ _ Hid Hnil Hs) as [Hid1 Hd].
  specialize (Hd cleaned deserialized eq_refl).
  unfold _save in Hsave.
  destruct (py_split key ":") as [|p [|m [|ins [|]]]]; try discriminate.
  destruct (py_int_of_str ins); [|discriminate].
  destruct (json_dumps _) as [text|]; [|discriminate].
  injection Hsave as <- <-. split; [now apply has_id_fold_setattr|]. now exists text.
Qed.

(** X23: what a successful [save] leaves on the server.  The instance had
    an id or none; afterwards it has one, its record is stored under
    [prefix:Model:id] for that id, and apart from this key, the flag of
    the lock and the counter of the class, every key holds what it held
    before: a save never touches another record. *)
Theorem successful_save_writes_one_record (fuel : nat) (env : environment)
    (self self' : instance) (db db' : store) :
  has_no_id self \/ (exists i, has_id i self) ->
  save fuel env self db = Some (Ok tt, self', db') ->
  exists i text,
    has_id i self' /\
    redis_get (key_of_id (base_mgr env) (cls_name (inst_class self)) i) db' = Some text /\
    forall key,
      key <> lock_key (base_mgr env) ->
      key <> max_id_key (base_mgr env) (cls_name (inst_class self)) ->
      key <> key_of_id (base_mgr env) (cls_name (inst_class self)) i ->
      redis_get key db' = redis_get key db.
Proof.
  intros Hstart. unfold save, _serialize_data.
  destruct Hstart as [Hno|[i Hid]].
  - rewrite (id_is_unset_no_id self Hno).
    destruct (next_id fuel (base_mgr env) (cls_name (inst_class self)) db)
      as [[[new_id|e] db1]|] eqn:Hn; [| |discriminate]; [|discriminate].
    pose proof (next_id_writes _ _ _ _ _ _ Hn) as Hw.
    pose proof (has_id_after_allocation self new_id Hno) as Hid.
    rewrite (instance_key_has_id _ _ _ Hid).
    destruct (serialize_fields _ _ _ _ _ _) as [[[[c d]|e] s]|] eqn:Hs;
      [| |discriminate]; [|discriminate].
    intros [= Hsave].
    destruct (save_body_writes _ _ _ db1 new_id _ Hid _ _ _ _ _ Hs Hsave) as [Hid' [text ->]].
    exists new_id, text. split; [exact Hid'|].
    unfold redis_get, redis_set in *. cbn [setattr inst_class].
    split; [apply lookup_insert_eq|].
    intros key Hl Hc Hk. rewrite lookup_insert_ne by congruence. now apply Hw.
  - rewrite (id_is_set i self Hid). rewrite (instance_key_has_id _ _ _ Hid).
    destruct (serialize_fields _ _ _ _ _ _) as [[[[c d]|e] s]|] eqn:Hs;
      [| |discriminate]; [|discriminate].
    intros [= Hsave].
    destruct (save_body_writes _ _ _ db i _ Hid _ _ _ _ _ Hs Hsave) as [Hid' [text ->]].
    exists i, text. split; [exact Hid'|].
    unfold redis_get, redis_set. split; [apply lookup_insert_eq|].
    intros key _ _ Hk. now rewrite lookup_insert_ne by congruence.
Qed.

Lemma successful_save_writes_one_record_witness :
  exists i text,
    has_id i job_after /\
    redis_get (key_of_id (base_mgr job_env) (cls_name (inst_class (new_job (VStr "in_work")))) i)
      job_db = Some text /\
    forall key,
      key <> lock_key (base_mgr job_env) ->
      key <> max_id_key (base_mgr job_env) (cls_name (inst_class (new_job (VStr "in_work")))) ->
      key <> key_of_id (base_mgr job_env) (cls_name (inst_class (new_job (VStr "in_work")))) i ->
      redis_get key job_db = redis_get key shop_db.
Proof.
  apply (successful_save_writes_one_record 1 job_env (new_job (VStr "in_work")) job_after
           shop_db job_db).
  - left. split; vm_compute; reflexivity.
  - vm_compute. reflexivity.
Defined.

(** ** JSON: what [dumps] writes, [loads] reads *)

Lemma read_escaped_char (c : ascii) : forall acc tail,
  read_json_string acc (json_escape_char c +:+ tail) = read_json_string (String c acc) tail.
Proof.
  destruct c as [[] [] [] [] [] [] [] []]; intros acc tail; reflexivity.
Qed.

Lemma read_escaped_string (s : string) : forall acc rest,
  read_json_string acc (json_escape s +:+ String dquote rest)
  = Ok (String.rev acc +:+ s, rest).
Proof.
  induction s as [|c s IH]; intros acc rest.
  - cbn [json_escape]. rewrite append_nil, append_empty. reflexivity.
  - cbn [json_escape]. rewrite append_assoc, read_escaped_char, IH.
    now rewrite rev_cons_append.
Qed.

Lemma value_end_cases rest :
  value_end rest = true ->
  rest = "" \/ exists r, rest = String "," r \/ rest = String "]" r \/ rest = String "}" r.
Proof.
  destruct rest as [|c r]; [now left|]. cbn [value_end]. intros H. right. exists r.
  apply orb_true_iff in H as [H|H]; [apply orb_true_iff in H as [H|H]|];
    apply Ascii.eqb_eq in H; subst c; auto.
Qed.

Lemma read_all_digits_stops acc cnt rest :
  value_end rest = true -> read_all_digits acc cnt rest = (acc, cnt, rest).
Proof.
  intros H. destruct (value_end_cases rest H) as [-> | [r [-> | [-> | ->]]]]; reflexivity.
Qed.

Lemma read_all_digits_step acc cnt c s k :
  digit_value c = Some k ->
  read_all_digits acc cnt (String c s) = read_all_digits (acc * 10 + k) (cnt + 1) s.
Proof. intros H. cbn [read_all_digits]. now rewrite H. Qed.

Lemma read_all_digits_uint (d : Decimal.uint) : forall acc cnt rest,
  value_end rest = true ->
  read_all_digits (Zpos acc) cnt (NilEmpty.string_of_uint d +:+ rest)
  = (Zpos (Pos.of_uint_acc d acc), cnt + Z.of_nat (Decimal.nb_digits d), rest).
Proof.
  induction d; intros acc cnt rest Hrest;
    cbn [NilEmpty.string_of_uint Pos.of_uint_acc Decimal.nb_digits];
    rewrite ?append_cons, ?append_nil;
    [rewrite Z.add_0_r; now apply read_all_digits_stops|..];
    (erewrite read_all_digits_step by reflexivity);
    match goal with
    | |- context [Z.of_nat (nat_of_ascii ?c) - 48] =>
        let v := eval vm_compute in (Z.of_nat (nat_of_ascii c) - 48) in
        change (Z.of_nat (nat_of_ascii c) - 48) with v
    end;
    match goal with
    | |- read_all_digits ?x _ _ = (Z.pos (Pos.of_uint_acc _ ?y), _, _) =>
        assert (x = Z.pos y) as -> by lia
    end;
    rewrite IHd by exact Hrest; f_equal; f_equal; lia.
Qed.

Lemma nzhead_not_zero (d l : Decimal.uint) : Decimal.nzhead d <> Decimal.D0 l.
Proof. induction d; cbn [Decimal.nzhead]; try discriminate. exact IHd. Qed.

Lemma to_uint_head (p : positive) :
  match Pos.to_uint p with
  | Decimal.Nil | Decimal.D0 _ => False
  | _ => True
  end.
Proof.
  pose proof (Unsigned.to_of (Pos.to_uint p)) as Hn.
  rewrite Unsigned.of_to in Hn. cbn [N.to_uint] in Hn.
  pose proof (Unsigned.to_uint_nonnil p) as Hnil.
  pose proof (Unsigned.to_uint_nonzero p) as Hzero.
  destruct (Pos.to_uint p) as [|l| | | | | | | | |]; try exact I; [congruence|].
  unfold Decimal.unorm in Hn. cbn [Decimal.nzhead] in Hn.
  destruct (Decimal.nzhead l) eqn:Hl; try congruence.
  now apply nzhead_not_zero in Hl.
Qed.

Lemma number_ends rest :
  value_end rest = true -> read_json_frac rest = None /\ read_json_exp rest = None.
Proof.
  intros H. destruct (value_end_cases rest H) as [-> | [r [-> | [-> | ->]]]]; now split.
Qed.

Lemma read_json_int_digits (c : ascii) (l : Decimal.uint) (rest : string) (k : positive) :
  digit_value c = Some (Zpos k) ->
  value_end rest = true ->
  read_json_int (String c (NilEmpty.string_of_uint l +:+ rest))
  = Some (Zpos (Pos.of_uint_acc l k), rest).
Proof.
  intros Hc Hrest.
  assert (Hread : read_all_digits 0 0 (String c (NilEmpty.string_of_uint l +:+ rest))
                  = (Zpos (Pos.of_uint_acc l k), 1 + Z.of_nat (Decimal.nb_digits l), rest)).
  { rewrite (read_all_digits_step _ _ _ _ _ Hc).
    change (0 * 10 + Z.pos k) with (Z.pos k). change (0 + 1) with 1.
    now apply read_all_digits_uint. }
  assert (Hint : read_json_int (String c (NilEmpty.string_of_uint l +:+ rest))
                 = match read_all_digits 0 0 (String c (NilEmpty.string_of_uint l +:+ rest)) with
                   | (_, 0, _) => None
                   | (v, _, rest') => Some (v, rest')
                   end).
  { destruct c as [[] [] [] [] [] [] [] []]; try discriminate Hc; reflexivity. }
  rewrite Hint, Hread.
  destruct (1 + Z.of_nat (Decimal.nb_digits l)) eqn:E; [lia|reflexivity|reflexivity].
Qed.

Lemma read_json_number_rest (neg : bool) (s0 rest : string) (ip : Z) :
  read_json_int s0 = Some (ip, rest) ->
  value_end rest = true ->
  match read_json_int s0 with
  | None => None
  | Some (ip, s1) =>
      let '(fp, fn, s2, has_frac) :=
        match read_json_frac s1 with
        | Some (v, n, r) => (v, n, r, true)
        | None => (0, 0, s1, false)
        end in
      let '(ex, s3, has_exp) :=
        match read_json_exp s2 with
        | Some (e, r) => (e, r, true)
        | None => (0, s2, false)
        end in
      if has_frac || has_exp
      then Some (VFloat (float_of_literal neg (ip * 10 ^ fn + fp) (ex - fn)), s3)
      else Some (VInt (if neg then - ip else ip), s3)
  end = Some (VInt (if neg then - ip else ip), rest).
Proof.
  intros Hint Hrest. rewrite Hint. destruct (number_ends rest Hrest) as [-> Hexp].
  cbv zeta. cbn iota. now rewrite Hexp.
Qed.

Lemma read_json_value_int (z : Z) (fuel : nat) (rest : string) :
  value_end rest = true ->
  read_json_value (S fuel) (py_str_of_int z +:+ rest) = Ok (VInt z, rest).
Proof.
  intros Hrest. unfold py_str_of_int, NilZero.string_of_int.
  destruct z as [|p|p]; cbn [Z.to_int].
  - change (NilZero.string_of_uint (Decimal.D0 Decimal.Nil) +:+ rest) with (String "0" rest).
    assert (Hnum : read_json_number (String "0" rest) = Some (VInt 0, rest)).
    { exact (read_json_number_rest false (String "0" rest) rest 0 eq_refl Hrest). }
    cbn [read_json_value]. cbn - [read_json_number]. now rewrite Hnum.
  - pose proof (to_uint_head p) as Hhead. pose proof (Unsigned.of_to p) as Hval.
    destruct (Pos.to_uint p) as [|l|l|l|l|l|l|l|l|l|l]; try contradiction;
      cbn [Pos.of_uint] in Hval; injection Hval as <-;
      cbn [NilZero.string_of_uint NilEmpty.string_of_uint]; rewrite append_cons;
      match goal with
      | |- read_json_value _ (String ?c (NilEmpty.string_of_uint ?l +:+ rest)) = Ok (VInt (Z.pos (Pos.of_uint_acc _ ?k)), _) =>
          pose proof (read_json_number_rest false _ rest _
                        (read_json_int_digits c l rest k eq_refl Hrest) Hrest) as Hnum;
          change (read_json_number (String c (NilEmpty.string_of_uint l +:+ rest))
                  = Some (VInt (Z.pos (Pos.of_uint_acc l k)), rest)) in Hnum
      end;
      cbn [read_json_value]; cbn - [read_json_number]; now rewrite Hnum.
  - pose proof (to_uint_head p) as Hhead. pose proof (Unsigned.of_to p) as Hval.
    destruct (Pos.to_uint p) as [|l|l|l|l|l|l|l|l|l|l]; try contradiction;
      cbn [Pos.of_uint] in Hval; injection Hval as <-;
      cbn [NilZero.string_of_uint NilEmpty.string_of_uint]; rewrite !append_cons;
      match goal with
      | |- read_json_value _ (String "-" (String ?c (NilEmpty.string_of_uint ?l +:+ rest))) = Ok (VInt (Z.neg (Pos.of_uint_acc _ ?k)), _) =>
          pose proof (read_json_number_rest true _ rest _
                        (read_json_int_digits c l rest k eq_refl Hrest) Hrest) as Hnum;
          change (read_json_number (String "-" (String c (NilEmpty.string_of_uint l +:+ rest)))
                  = Some (VInt (Z.neg (Pos.of_uint_acc l k)), rest)) in Hnum
      end;
      cbn [read_json_value]; cbn - [read_json_number]; now rewrite Hnum.
Qed.

Lemma string_length_append (a b : string) :
  String.length (a +:+ b) = (String.length a + String.length b)%nat.
Proof. induction a as [|c a IH]; [reflexivity|]. rewrite append_cons. cbn. now rewrite IH. Qed.

Lemma pyval_size_pos (v : pyval) : (1 <= pyval_size v)%nat.
Proof. destruct v; simpl; lia. Qed.

Lemma value_start_no_space (c : ascii) (t : string) :
  value_start c = true -> skip_ws (String c t) = String c t.
Proof.
  intros Hc. cbn [skip_ws].
  destruct c as [[] [] [] [] [] [] [] []]; try discriminate Hc; reflexivity.
Qed.

Lemma value_start_not_bracket {T} (c : ascii) (t : string) (A B : string -> T) :
  value_start c = true ->
  match String c t with
  | String "]" r => A r
  | r => B r
  end = B (String c t).
Proof.
  intros Hc. destruct c as [[] [] [] [] [] [] [] []]; try discriminate Hc; reflexivity.
Qed.

Lemma int_text_start (z : Z) :
  exists c t, py_str_of_int z = String c t /\ value_start c = true.
Proof.
  unfold py_str_of_int, NilZero.string_of_int. destruct z as [|p|p]; cbn [Z.to_int].
  - now exists "0"%char, "".
  - pose proof (Unsigned.to_uint_nonnil p) as Hnil.
    destruct (Pos.to_uint p); try congruence;
      cbn [NilZero.string_of_uint NilEmpty.string_of_uint]; eexists _, _; split; reflexivity.
  - eexists _, _. split; reflexivity.
Qed.

Lemma json_text_start (v : pyval) :
  json_plain v = true -> exists c t, json_text v = String c t /\ value_start c = true.
Proof.
  destruct v; try discriminate; intros _; cbn [json_text].
  - now exists "n"%char, "ull".
  - destruct b; eexists _, _; split; reflexivity.
  - apply int_text_start.
  - unfold json_quote. eexists _, _. split; reflexivity.
  - eexists _, _. split; reflexivity.
  - eexists _, _. split; reflexivity.
Qed.

Lemma in_size_le (v : pyval) (l : list pyval) :
  In v l -> (pyval_size v <= list_sum (map pyval_size l))%nat.
Proof.
  induction l as [|w l IH]; [contradiction|].
  change (list_sum (map pyval_size (w :: l)))
    with (pyval_size w + list_sum (map pyval_size l))%nat.
  intros [->|Hin]; [lia|]. specialize (IH Hin). lia.
Qed.

Section Items.
Variable dumps : pyval -> res string.

Lemma dumps_items_plain (l : list pyval) :
  (forall v, In v l -> dumps v = Ok (json_text v)) ->
  dumps_items dumps false l = Ok (after_each (map json_text l)) /\
  dumps_items dumps true l = Ok (joined (map json_text l)).
Proof.
  intros Hall.
  assert (Hfalse : forall l', (forall v, In v l' -> dumps v = Ok (json_text v)) ->
            dumps_items dumps false l' = Ok (after_each (map json_text l'))).
  { induction l' as [|v l' IH]; intros H; [reflexivity|].
    cbn [dumps_items map after_each]. rewrite (H v) by now left. cbn [res_bind].
    rewrite IH by (intros w Hw; apply H; now right). reflexivity. }
  split; [now apply Hfalse|].
  destruct l as [|v l]; [reflexivity|].
  cbn [dumps_items map joined]. rewrite (Hall v) by now left. cbn [res_bind].
  rewrite Hfalse by (intros w Hw; apply Hall; now right). reflexivity.
Qed.

Lemma dumps_members_plain (d : list (pyval * pyval)) :
  (forall kv, In kv d -> isinstance1 (fst kv) TStr = true /\
                         dumps (snd kv) = Ok (json_text (snd kv))) ->
  dumps_members dumps false d
  = Ok (after_each (map (fun kv => member_text (fst kv) (json_text (snd kv))) d)) /\
  dumps_members dumps true d
  = Ok (joined (map (fun kv => member_text (fst kv) (json_text (snd kv))) d)).
Proof.
  intros Hall.
  assert (Hone : forall k v, isinstance1 k TStr = true ->
            exists s, json_key k = Ok s /\ member_text k (json_text v)
                                          = json_quote s +:+ ": " +:+ json_text v).
  { intros k v Hk. destruct k; try discriminate. now exists s. }
  assert (Hfalse : forall d',
            (forall kv, In kv d' -> isinstance1 (fst kv) TStr = true /\
                                    dumps (snd kv) = Ok (json_text (snd kv))) ->
            dumps_members dumps false d'
            = Ok (after_each (map (fun kv => member_text (fst kv) (json_text (snd kv))) d'))).
  { induction d' as [|[k v] d' IH]; intros H; [reflexivity|].
    cbn [dumps_members map after_each fst snd].
    destruct (H (k, v)) as [Hk Hv]; [now left|]. cbn [fst snd] in Hk, Hv.
    destruct (Hone k v Hk) as (s & -> & ->). cbn [res_bind]. rewrite Hv. cbn [res_bind].
    rewrite IH by (intros w Hw; apply H; now right). cbn [res_bind].
    now rewrite !append_assoc. }
  split; [now apply Hfalse|].
  destruct d as [|[k v] d]; [reflexivity|].
  cbn [dumps_members map joined fst snd].
  destruct (Hall (k, v)) as [Hk Hv]; [now left|]. cbn [fst snd] in Hk, Hv.
  destruct (Hone k v Hk) as (s & -> & ->). cbn [res_bind]. rewrite Hv. cbn [res_bind].
  rewrite Hfalse by (intros w Hw; apply Hall; now right). cbn [res_bind].
  now rewrite !append_assoc.
Qed.
End Items.

Lemma skip_ws_text (v : pyval) (rest : string) :
  json_plain v = true -> skip_ws (json_text v +:+ rest) = json_text v +:+ rest.
Proof.
  intros Hv. destruct (json_text_start v Hv) as (c & t & -> & Hc).
  rewrite append_cons. now apply value_start_no_space.
Qed.

Lemma read_elements_plain (l : list pyval) : forall v0 acc fuel rest,
  (forall v, In v (v0 :: l) -> json_plain v = true /\ reads_back v) ->
  (2 * list_sum (map pyval_size (v0 :: l)) <= fuel)%nat ->
  read_json_elements fuel acc
    (json_text v0 +:+ after_each (map json_text l) +:+ "]" +:+ rest)
  = Ok (VList (rev acc ++ v0 :: l), rest).
Proof.
  induction l as [|v1 l IH]; intros v0 acc fuel rest Hall Hfuel.
  - change (list_sum (map pyval_size [v0])) with (pyval_size v0 + 0)%nat in Hfuel.
    pose proof (pyval_size_pos v0) as Hpos.
    destruct fuel as [|fuel]; [lia|].
    destruct (Hall v0) as [_ Hread]; [now left|].
    cbn [read_json_elements map after_each]. rewrite append_nil.
    rewrite (Hread fuel ("]" +:+ rest)) by (try reflexivity; lia).
    reflexivity.
  - change (list_sum (map pyval_size (v0 :: v1 :: l)))
      with (pyval_size v0 + list_sum (map pyval_size (v1 :: l)))%nat in Hfuel.
    pose proof (pyval_size_pos v0) as Hpos.
    destruct fuel as [|fuel]; [lia|].
    destruct (Hall v0) as [_ Hread]; [now left|].
    destruct (Hall v1) as [Hplain1 _]; [right; now left|].
    cbn [read_json_elements map after_each]. rewrite !append_assoc.
    change (", " +:+ json_text v1 +:+ after_each (map json_text l) +:+ "]" +:+ rest)
      with (String "," (String " " (json_text v1 +:+ after_each (map json_text l) +:+ "]" +:+ rest))).
    rewrite (Hread fuel) by (try reflexivity; lia).
    cbn [res_bind].
    change (skip_ws (String "," ?s)) with (String "," s).
    cbv iota.
    change (skip_ws (String " " ?s)) with (skip_ws s).
    rewrite (skip_ws_text v1) by exact Hplain1.
    rewrite (IH v1 (v0 :: acc) fuel rest); [|intros v Hv; apply Hall; now right|lia].
    cbn [rev]. now rewrite <- app_assoc.
Qed.

Lemma dict_set_fresh (k : string) (v : pyval) (seen : list string) :
  forall acc : list (pyval * pyval),
    Forall (fun kv => exists k', fst kv = VStr k' /\ In k' seen) acc ->
    mem_string k seen = false ->
    dict_set k v acc = (acc ++ [(VStr k, v)])%list.
Proof.
  intros acc Hacc Hk. induction Hacc as [|[k1 v1] acc (k' & Hk1 & Hin) _ IH]; [reflexivity|].
  cbn [fst] in Hk1. subst k1. cbn [dict_set].
  assert (Hne : String.eqb k k' = false).
  { unfold mem_string in Hk. destruct (String.eqb k k') eqn:E; [|reflexivity].
    assert (Hex : existsb (String.eqb k) seen = true).
    { apply existsb_exists. now exists k'. }
    congruence. }
  rewrite Hne, IH. reflexivity.
Qed.

Lemma member_text_shape (k : string) (t tail : string) :
  member_text (VStr k) t +:+ tail
  = String dquote (json_escape k +:+ String dquote (String ":" (String " " (t +:+ tail)))).
Proof.
  unfold member_text, json_quote. rewrite !append_cons, !append_assoc.
  rewrite !append_cons, append_nil. reflexivity.
Qed.

Lemma read_members_plain (d : list (pyval * pyval)) : forall k0 v0 acc seen fuel rest,
  (forall kv, In kv ((VStr k0, v0) :: d) ->
     json_plain (snd kv) = true /\ reads_back (snd kv)) ->
  distinct_text_keys seen (map fst ((VStr k0, v0) :: d)) = true ->
  Forall (fun kv => exists k', fst kv = VStr k' /\ In k' seen) acc ->
  (2 * list_sum (map (fun kv => (pyval_size (fst kv) + pyval_size (snd kv))%nat)
                   ((VStr k0, v0) :: d)) <= fuel)%nat ->
  read_json_members fuel acc
    (member_text (VStr k0) (json_text v0) +:+
     after_each (map (fun kv => member_text (fst kv) (json_text (snd kv))) d) +:+
     "}" +:+ rest)
  = Ok (VDict (acc ++ (VStr k0, v0) :: d)%list, rest).
Proof.
  induction d as [|[k1 v1] d IH]; intros k0 v0 acc seen fuel rest Hall Hkeys Hacc Hfuel.
  - change (list_sum _) with (1 + pyval_size v0 + 0)%nat in Hfuel.
    destruct fuel as [|fuel]; [lia|].
    destruct (Hall (VStr k0, v0)) as [Hplain Hread]; [now left|]. cbn [snd] in Hplain, Hread.
    cbn [map fst distinct_text_keys] in Hkeys. apply andb_true_iff in Hkeys as [Hk0 _].
    apply negb_true_iff in Hk0.
    cbn [map after_each]. rewrite append_nil, member_text_shape.
    cbn [read_json_members].
    change (Ascii.eqb dquote dquote) with true. cbv iota.
    rewrite read_escaped_string. cbn [res_bind String.rev String.rev_app].
    rewrite append_nil.
    change (skip_ws (String ":" ?s)) with (String ":" s). cbv iota.
    change (skip_ws (String " " ?s)) with (skip_ws s).
    rewrite (skip_ws_text v0) by exact Hplain.
    rewrite (Hread fuel ("}" +:+ rest)) by (try reflexivity; lia).
    cbn [res_bind]. rewrite (dict_set_fresh k0 v0 seen acc Hacc Hk0). reflexivity.
  - change (list_sum _)
      with (1 + pyval_size v0
            + list_sum (map (fun kv => (pyval_size (fst kv) + pyval_size (snd kv))%nat)
                            ((k1, v1) :: d)))%nat in Hfuel.
    destruct fuel as [|fuel]; [lia|].
    destruct (Hall (VStr k0, v0)) as [Hplain Hread]; [now left|]. cbn [snd] in Hplain, Hread.
    cbn [map fst distinct_text_keys] in Hkeys.
    destruct k1 as [| | | |s1| | | | | | | | | |];
      try (apply andb_true_iff in Hkeys as [_ Hkeys]; discriminate Hkeys).
    apply andb_true_iff in Hkeys as [Hk0 Hkeys]. apply negb_true_iff in Hk0.
    cbn [map after_each fst snd]. rewrite !append_assoc, member_text_shape.
    cbn [read_json_members].
    change (Ascii.eqb dquote dquote) with true. cbv iota.
    rewrite read_escaped_string. cbn [res_bind String.rev String.rev_app].
    rewrite append_nil.
    change (skip_ws (String ":" ?s)) with (String ":" s). cbv iota.
    change (skip_ws (String " " ?s)) with (skip_ws s).
    rewrite (skip_ws_text v0) by exact Hplain.
    change (", " +:+ ?s) with (String "," (String " " s)).
    rewrite (Hread fuel) by (try reflexivity; lia).
    cbn [res_bind]. rewrite (dict_set_fresh k0 v0 seen acc Hacc Hk0).
    change (skip_ws (String "," ?s)) with (String "," s). cbv iota.
    change (skip_ws (String " " ?s)) with (skip_ws s).
    rewrite member_text_shape.
    change (skip_ws (String dquote ?s)) with (String dquote s).
    rewrite <- member_text_shape.
    rewrite (IH s1 v1 (acc ++ [(VStr k0, v0)])%list (k0 :: seen) fuel rest).
    + now rewrite <- app_assoc.
    + intros kv Hkv. apply Hall. now right.
    + exact Hkeys.
    + apply Forall_app. split.
      * eapply Forall_impl; [exact Hacc|]. intros kv (k' & E & Hin). exists k'. split; [exact E|now right].
      * constructor; [|constructor]. exists k0. split; [reflexivity|now left].
    + pose proof (pyval_size_pos v0). lia.
Qed.

Lemma substring_skip (a b : string) :
  String.substring (String.length a) (String.length (a +:+ b) - String.length a) (a +:+ b) = b.
Proof.
  induction a as [|c a IH].
  - rewrite append_nil. cbn [String.length]. rewrite Nat.sub_0_r.
    induction b as [|c b IHb]; [reflexivity|]. cbn [String.length String.substring].
    now rewrite IHb.
  - rewrite append_cons. cbn [String.length String.substring Nat.sub]. exact IH.
Qed.

Lemma read_literal_word (word : string) (v : pyval) (rest : string) :
  read_literal word v (word +:+ rest) = Ok (v, rest).
Proof. unfold read_literal. now rewrite prefix_append, substring_skip. Qed.

Lemma distinct_keys_are_text (keys : list pyval) : forall seen,
  distinct_text_keys seen keys = true -> forall k, In k keys -> isinstance1 k TStr = true.
Proof.
  induction keys as [|k0 keys IH]; intros seen H k; [contradiction|].
  destruct k0; try discriminate H. cbn [distinct_text_keys] in H.
  apply andb_true_iff in H as [_ H]. intros [<-|Hin]; [reflexivity|]. now apply (IH _ H).
Qed.

Lemma after_each_length (ts : list string) (sizes : list nat) :
  Forall2 (fun t n => (n <= String.length t)%nat) ts sizes ->
  (list_sum sizes <= String.length (after_each ts))%nat.
Proof.
  induction 1 as [|t n ts sizes Ht _ IH]; [reflexivity|].
  cbn [after_each]. rewrite !string_length_append.
  change (list_sum (n :: sizes)) with (n + list_sum sizes)%nat. lia.
Qed.

Lemma joined_length (ts : list string) (sizes : list nat) :
  Forall2 (fun t n => (n <= String.length t)%nat) ts sizes ->
  (list_sum sizes <= String.length (joined ts))%nat.
Proof.
  intros H. destruct H as [|t n ts sizes Ht H]; [reflexivity|].
  cbn [joined]. rewrite string_length_append. apply after_each_length in H.
  change (list_sum (n :: sizes)) with (n + list_sum sizes)%nat. lia.
Qed.

Lemma list_text_shape (v0 : pyval) (l : list pyval) (rest : string) :
  json_text (VList (v0 :: l)) +:+ rest
  = String "[" (json_text v0 +:+ after_each (map json_text l) +:+ "]" +:+ rest).
Proof.
  cbn [json_text map joined]. rewrite !append_assoc. reflexivity.
Qed.

Lemma dict_text_shape (k0 : string) (v0 : pyval) (d : list (pyval * pyval)) (rest : string) :
  json_text (VDict ((VStr k0, v0) :: d)) +:+ rest
  = String "{" (member_text (VStr k0) (json_text v0) +:+
                after_each (map (fun kv => member_text (fst kv) (json_text (snd kv))) d) +:+
                "}" +:+ rest).
Proof.
  cbn [json_text map joined fst snd]. rewrite !append_assoc. reflexivity.
Qed.

Lemma in_member_size (kv : pyval * pyval) (d : list (pyval * pyval)) :
  In kv d ->
  (pyval_size (snd kv)
   <= list_sum (map (fun kv => (pyval_size (fst kv) + pyval_size (snd kv))%nat) d))%nat.
Proof.
  induction d as [|w d IH]; [contradiction|].
  change (list_sum (map (fun kv => (pyval_size (fst kv) + pyval_size (snd kv))%nat) (w :: d)))
    with (pyval_size (fst w) + pyval_size (snd w)
          + list_sum (map (fun kv => (pyval_size (fst kv) + pyval_size (snd kv))%nat) d))%nat.
  intros [->|Hin]; [lia|]. specialize (IH Hin). lia.
Qed.

Lemma json_plain_spec (n : nat) : forall v,
  (pyval_size v <= n)%nat ->
  json_plain v = true ->
  (forall fuel, (pyval_size v <= fuel)%nat -> json_dumps_fuel fuel v = Ok (json_text v)) /\
  reads_back v /\
  (pyval_size v <= String.length (json_text v))%nat.
Proof.
  induction n as [|n IH]; intros v Hsize Hplain.
  { pose proof (pyval_size_pos v). lia. }
  destruct v; try discriminate Hplain.
  - (* None *)
    split; [|split].
    + intros [|fuel] Hf; [cbn in Hf; lia|reflexivity].
    + intros [|fuel] rest Hf Hrest; [cbn in Hf; lia|].
      cbn [json_text]. change ("null" +:+ rest) with (String "n" ("ull" +:+ rest)).
      cbn [read_json_value]. change (Ascii.eqb "n" dquote) with false.
      cbn [Ascii.eqb Bool.eqb]. cbv iota.
      change (String "n" ("ull" +:+ rest)) with ("null" +:+ rest).
      apply read_literal_word.
    + cbn. lia.
  - (* bool *)
    split; [|split].
    + intros [|fuel] Hf; [cbn in Hf; lia|reflexivity].
    + intros [|fuel] rest Hf Hrest; [cbn in Hf; lia|].
      destruct b; cbn [json_text].
      * change ("true" +:+ rest) with (String "t" ("rue" +:+ rest)).
        cbn [read_json_value]. change (Ascii.eqb "t" dquote) with false.
        cbn [Ascii.eqb Bool.eqb]. cbv iota.
        change (String "t" ("rue" +:+ rest)) with ("true" +:+ rest).
        apply read_literal_word.
      * change ("false" +:+ rest) with (String "f" ("alse" +:+ rest)).
        cbn [read_json_value]. change (Ascii.eqb "f" dquote) with false.
        cbn [Ascii.eqb Bool.eqb]. cbv iota.
        change (String "f" ("alse" +:+ rest)) with ("false" +:+ rest).
        apply read_literal_word.
    + destruct b; cbn; lia.
  - (* int *)
    split; [|split].
    + intros [|fuel] Hf; [cbn in Hf; lia|reflexivity].
    + intros [|fuel] rest Hf Hrest; [cbn in Hf; lia|].
      now apply read_json_value_int.
    + cbn [json_text pyval_size]. destruct (int_text_start z) as (c & t & -> & _).
      cbn. lia.
  - (* text *)
    split; [|split].
    + intros [|fuel] Hf; [cbn in Hf; lia|reflexivity].
    + intros [|fuel] rest Hf Hrest; [cbn in Hf; lia|].
      cbn [json_text]. unfold json_quote. rewrite append_cons, append_assoc, append_cons, append_nil.
      cbn [read_json_value]. change (Ascii.eqb dquote dquote) with true. cbv iota.
      now rewrite read_escaped_string.
    + cbn. lia.
  - (* list *)
    cbn [json_plain] in Hplain. rewrite forallb_forall in Hplain.
    change (pyval_size (VList items)) with (S (list_sum (map pyval_size items))) in *.
    assert (Hel : forall v, In v items ->
              (forall fuel, (pyval_size v <= fuel)%nat ->
                 json_dumps_fuel fuel v = Ok (json_text v)) /\
              reads_back v /\
              (pyval_size v <= String.length (json_text v))%nat).
    { intros v Hin. pose proof (in_size_le v items Hin).
      apply IH; [lia|now apply Hplain]. }
    split; [|split].
    + intros [|fuel] Hf; [lia|]. cbn [json_dumps_fuel json_dumps_step].
      destruct (dumps_items_plain (json_dumps_fuel fuel) items) as [_ ->]; [|reflexivity].
      intros v Hin. apply (Hel v Hin). pose proof (in_size_le v items Hin). lia.
    + intros fuel rest Hf Hrest.
      change (pyval_size (VList items)) with (S (list_sum (map pyval_size items))) in Hf.
      destruct fuel as [|fuel]; [lia|].
      destruct items as [|v0 l].
      * reflexivity.
      * rewrite list_text_shape.
        cbn [read_json_value]. change (Ascii.eqb "[" dquote) with false.
        cbn [Ascii.eqb Bool.eqb]. cbv iota.
        rewrite (skip_ws_text v0) by (apply Hplain; now left).
        transitivity (read_json_elements fuel []
                        (json_text v0 +:+ after_each (map json_text l) +:+ "]" +:+ rest)).
        -- destruct (json_text_start v0) as (c & t & E & Hc); [apply Hplain; now left|].
           rewrite E, append_cons.
           exact (value_start_not_bracket c _ (fun r => Ok (VList [], r))
                    (fun r => read_json_elements fuel [] r) Hc).
        -- apply (read_elements_plain l v0 [] fuel rest).
           ++ intros v Hin. split; [now apply Hplain|now apply Hel].
           ++ change (list_sum (map pyval_size (v0 :: l)))
                with (pyval_size v0 + list_sum (map pyval_size l))%nat in *. lia.
    + cbn [json_text]. rewrite !string_length_append. cbn [String.length].
      assert (Hj : (list_sum (map pyval_size items)
                    <= String.length (joined (map json_text items)))%nat).
      { apply joined_length. clear -Hel.
        induction items as [|v l IHl]; [constructor|].
        cbn [map]. constructor; [apply Hel; now left|].
        apply IHl. intros w Hw. apply Hel. now right. }
      lia.
  - (* dict *)
    cbn [json_plain] in Hplain. apply andb_true_iff in Hplain as [Hkeys Hvals].
    rewrite forallb_forall in Hvals.
    change (pyval_size (VDict items))
      with (S (list_sum (map (fun kv => (pyval_size (fst kv) + pyval_size (snd kv))%nat) items)))
      in *.
    assert (Hel : forall kv, In kv items ->
              (forall fuel, (pyval_size (snd kv) <= fuel)%nat ->
                 json_dumps_fuel fuel (snd kv) = Ok (json_text (snd kv))) /\
              reads_back (snd kv) /\
              (pyval_size (snd kv) <= String.length (json_text (snd kv)))%nat).
    { intros kv Hin. pose proof (in_member_size kv items Hin).
      apply IH; [lia|now apply Hvals]. }
    assert (Htext : forall kv, In kv items -> isinstance1 (fst kv) TStr = true).
    { intros kv Hin. apply (distinct_keys_are_text _ _ Hkeys). now apply in_map. }
    split; [|split].
    + intros [|fuel] Hf; [lia|]. cbn [json_dumps_fuel json_dumps_step].
      destruct (dumps_members_plain (json_dumps_fuel fuel) items) as [_ ->]; [|reflexivity].
      intros kv Hin. split; [now apply Htext|].
      apply (Hel kv Hin). pose proof (in_member_size kv items Hin). lia.
    + intros fuel rest Hf Hrest.
      change (pyval_size (VDict items))
        with (S (list_sum (map (fun kv => (pyval_size (fst kv) + pyval_size (snd kv))%nat)
                               items))) in Hf.
      destruct fuel as [|fuel]; [lia|].
      destruct items as [|[k0 v0] d].
      * reflexivity.
      * pose proof (Htext (k0, v0) (or_introl eq_refl)) as Hk0. cbn [fst] in Hk0.
        destruct k0 as [| | | |s0| | | | | | | | | |]; try discriminate Hk0.
        rewrite dict_text_shape.
        cbn [read_json_value]. change (Ascii.eqb "{" dquote) with false.
        cbn [Ascii.eqb Bool.eqb]. cbv iota.
        transitivity (read_json_members fuel []
                        (member_text (VStr s0) (json_text v0) +:+
                         after_each (map (fun kv => member_text (fst kv) (json_text (snd kv))) d) +:+
                         "}" +:+ rest)).
        -- rewrite member_text_shape. reflexivity.
        -- apply (read_members_plain d s0 v0 [] [] fuel rest).
           ++ intros kv Hin. split; [now apply Hvals|now apply Hel].
           ++ exact Hkeys.
           ++ constructor.
           ++ lia.
    + cbn [json_text]. rewrite !string_length_append. cbn [String.length].
      assert (Hj : (list_sum (map (fun kv => (pyval_size (fst kv) + pyval_size (snd kv))%nat) items)
                    <= String.length
                         (joined (map (fun kv => member_text (fst kv) (json_text (snd kv)))
                                      items)))%nat).
      { apply joined_length. clear -Hel Htext.
        induction items as [|[k v] l IHl]; [constructor|].
        cbn [map fst snd]. constructor.
        - pose proof (Htext (k, v) (or_introl eq_refl)) as Hk. cbn [fst] in Hk.
          destruct (Hel (k, v) (or_introl eq_refl)) as (_ & _ & Hlen). cbn [snd] in Hlen.
          destruct k; try discriminate Hk.
          unfold member_text, json_quote. rewrite !string_length_append.
          cbn [String.length pyval_size]. lia.
        - apply IHl; intros w Hw; [apply Hel|apply Htext]; now right. }
      lia.
Qed.

Lemma json_text_dumps (v : pyval) : json_plain v = true -> json_dumps v = Ok (json_text v).
Proof.
  intros H. destruct (json_plain_spec (pyval_size v) v (le_n _) H) as (Hd & _ & _).
  unfold json_dumps. now apply Hd.
Qed.

Lemma json_text_loads (v : pyval) : json_plain v = true -> json_loads (json_text v) = Ok v.
Proof.
  intros H. destruct (json_plain_spec (pyval_size v) v (le_n _) H) as (_ & Hr & Hl).
  unfold json_loads.
  pose proof (skip_ws_text v "" H) as Hs. rewrite append_empty in Hs. rewrite Hs.
  pose proof (Hr (3 * String.length (json_text v) + 3)%nat "") as Hread.
  rewrite append_empty in Hread. rewrite Hread; [reflexivity|lia|reflexivity].
Qed.

(** X24: what [json.dumps] writes of a plain value, [json.loads] reads
    back as that value.  Plain values are [None], booleans, integers,
    text (any characters, which are escaped and unescaped), lists of plain
    values and dicts of plain values under distinct text keys, nested to
    any depth: for each of them [dumps] returns a text and [loads] of
    that text returns the value itself. *)
Theorem plain_values_survive_json (v : pyval) :
  json_plain v = true ->
  exists text, json_dumps v = Ok text /\ json_loads text = Ok v.
Proof.
  intros H. exists (json_text v). split; [now apply json_text_dumps|now apply json_text_loads].
Qed.

Lemma plain_values_survive_json_witness :
  exists text,
    json_dumps (VList [some_dict; VStr "a\b"; VInt (-7); VNone]) = Ok text /\
    json_loads text = Ok (VList [some_dict; VStr "a\b"; VInt (-7); VNone]).
Proof.
  apply (plain_values_survive_json (VList [some_dict; VStr "a\b"; VInt (-7); VNone])).
  reflexivity.
Defined.

(** X25: a dict or a list of plain values comes back from a JSON field.
    For a [RedisJson], [RedisDict] or [RedisList] field without choices
    that holds a plain value of an allowed type, [clean] returns a text
    and [deserialize_value] of that text returns the value itself. *)
Theorem json_fields_return_plain_values
    (query : string -> list (string * pyval) -> fres (list pyval))
    (self : redis_field) (v : pyval) (ignore : bool) :
  f_class self = RedisJson \/ f_class self = RedisDict \/ f_class self = RedisList ->
  f_choices self = VNone ->
  f_value self = v ->
  isinstance v (f_allowed_types self) = true ->
  json_plain v = true ->
  exists text,
    fst (clean self) = Ok (VStr text) /\
    deserialize_value query self (VStr text) ignore = Some (Ok v).
Proof.
  intros Hclass Hchoices Hvalue Hallowed Hplain.
  assert (Hn : is_none v = false).
  { destruct v; try reflexivity. now rewrite isinstance_none in Hallowed. }
  assert (Hcheck : fst (check_value self) = Ok v).
  { subst v. unfold check_value. rewrite Hn. cbv zeta. rewrite Hn. cbn [andb].
    rewrite Hchoices. cbn [truthy]. now rewrite andb_false_r. }
  destruct (RedisField_clean_resolved self v Hcheck) as (self' & Hclean & Hv' & _ & Ha' & _).
  destruct (json_round_trip self self' v (json_text v) ignore Hclean
              Hv' Ha' Hallowed (json_text_dumps v Hplain) (json_text_loads v Hplain))
    as (Hc & Hd & _).
  exists (json_text v).
  unfold clean, deserialize_value.
  destruct Hclass as [-> | [-> | ->]]; split; assumption.
Qed.

Lemma json_fields_return_plain_values_witness :
  exists text,
    fst (clean (dict_field some_dict)) = Ok (VStr text) /\
    deserialize_value no_query (dict_field some_dict) (VStr text) true = Some (Ok some_dict).
Proof.
  apply (json_fields_return_plain_values no_query (dict_field some_dict) some_dict true);
    try reflexivity.
  right. left. reflexivity.
Defined.

(** ** A saved instance is found again *)

Lemma no_repeat_NoDup (names : list string) : no_repeat names = true -> NoDup names.
Proof.
  induction names as [|n rest IH]; [constructor|].
  cbn [no_repeat]. intros H. apply andb_true_iff in H as [Hn Hrest].
  apply negb_true_iff in Hn. constructor; [|now apply IH].
  rewrite list_elem_of_In. intros Hin.
  assert (Hex : mem_string n rest = true).
  { unfold mem_string. apply existsb_exists. exists n. split; [exact Hin|apply String.eqb_refl]. }
  congruence.
Qed.

Lemma set_attr_fresh name v (attrs : list (string * pyval)) :
  lookup_attr name attrs = None -> set_attr name v attrs = (attrs ++ [(name, v)])%list.
Proof.
  induction attrs as [|[k w] rest IH]; [reflexivity|].
  cbn [lookup_attr set_attr]. destruct (String.eqb k name); [discriminate|].
  intros H. now rewrite IH.
Qed.

Lemma lookup_attr_app_none name (a b : list (string * pyval)) :
  lookup_attr name (a ++ b)%list = None <->
  lookup_attr name a = None /\ lookup_attr name b = None.
Proof.
  induction a as [|[k w] rest IH]; cbn [lookup_attr app]; [tauto|].
  destruct (String.eqb k name); [|exact IH]. split; [discriminate|]. now intros [H _].
Qed.

Lemma serialize_fields_cleaned env query : forall names self cleaned deserialized cl de self1,
  NoDup names ->
  (forall n, In n names -> lookup_attr n cleaned = None) ->
  serialize_fields env query self names cleaned deserialized = Some (Ok (cl, de), self1) ->
  exists added,
    cl = (cleaned ++ added)%list /\
    map fst added = names /\
    forall n c, In (n, c) added ->
      exists f, lookup_field n (inst_fields self) = Some f /\ fst (clean f) = Ok c.
Proof.
  induction names as [|n names IH]; intros self cleaned deserialized cl de self1 Hnd Hfresh;
    cbn [serialize_fields].
  - intros [= <- <- <-]. exists []. rewrite app_nil_r. repeat split. intros n c [].
  - apply NoDup_cons in Hnd as [Hn Hnd]. rewrite list_elem_of_In in Hn.
    destruct (lookup_field n (inst_fields self)) as [g|] eqn:Hg; [|discriminate].
    destruct (clean g) as [[v|e] g'] eqn:Hclean; [|discriminate].
    destruct (_deserialize_instance_field env query _ n v) as [[w|e]|]; [|discriminate|discriminate].
    intros Hrun.
    rewrite (set_attr_fresh n v cleaned) in Hrun by (apply Hfresh; now left).
    assert (Hfresh' : forall m, In m names -> lookup_attr m (cleaned ++ [(n, v)])%list = None).
    { intros m Hm. apply lookup_attr_app_none. split; [apply Hfresh; now right|].
      cbn [lookup_attr]. destruct (String.eqb_spec n m) as [->|_]; [contradiction|reflexivity]. }
    destruct (IH _ _ _ _ _ _ Hnd Hfresh' Hrun) as (added & -> & Hnames & Hall).
    exists ((n, v) :: added). split; [now rewrite <- app_assoc|].
    split; [cbn [map fst]; now rewrite Hnames|].
    intros m c [[= <- <-]|Hin].
    + exists g. split; [exact Hg|]. now rewrite Hclean.
    + destruct (Hall m c Hin) as (f & Hf & Hc). exists f. split; [|exact Hc].
      cbn [with_field inst_fields] in Hf. rewrite lookup_field_put_other in Hf; [exact Hf|].
      intros ->. apply Hn. rewrite <- Hnames. apply in_map_iff. now exists (m, c).
Qed.

Lemma distinct_text_keys_names (names : list string) : forall seen,
  NoDup names ->
  (forall n, In n names -> ~ In n seen) ->
  distinct_text_keys seen (map VStr names) = true.
Proof.
  induction names as [|n names IH]; intros seen Hnd Hsep; [reflexivity|].
  apply NoDup_cons in Hnd as [Hn Hnd]. rewrite list_elem_of_In in Hn.
  cbn [map distinct_text_keys]. apply andb_true_iff. split.
  - apply negb_true_iff. unfold mem_string.
    destruct (existsb (String.eqb n) seen) eqn:E; [|reflexivity].
    apply existsb_exists in E as (x & Hx & Ex). apply String.eqb_eq in Ex. subst x.
    exfalso. apply (Hsep n); [now left|exact Hx].
  - apply IH; [exact Hnd|]. intros m Hm [<-|Hin]; [contradiction|].
    apply (Hsep m); [now right|exact Hin].
Qed.

Lemma as_dict_plain (cl : list (string * pyval)) :
  NoDup (map fst cl) ->
  (forall n c, In (n, c) cl -> json_plain c = true) ->
  json_plain (as_dict cl) = true.
Proof.
  intros Hnd Hplain. unfold as_dict. cbn [json_plain]. apply andb_true_iff. split.
  - rewrite map_map. cbn [fst]. rewrite <- (map_map fst VStr).
    apply distinct_text_keys_names; [exact Hnd|]. intros n _ [].
  - apply forallb_forall. intros kv Hin. apply in_map_iff in Hin as ([n c] & <- & Hin).
    cbn [snd]. now apply (Hplain n c).
Qed.

Lemma filter_nothing field_name value :
  _filter_field_name field_name value [] = Ok true.
Proof. reflexivity. Qed.

Lemma read_fields_all env query model : forall (cl tmp : list (string * pyval)),
  NoDup (map fst cl) ->
  (forall n, In n (map fst cl) -> lookup_attr n tmp = None) ->
  (forall n c, In (n, c) cl -> exists d, reads_as env model n c d) ->
  exists ds,
    read_fields env query (OfClass model) []
      (map (fun kv => (VStr (fst kv), snd kv)) cl) tmp
    = Some (Ok (Some (tmp ++ ds)%list)) /\
    map fst ds = map fst cl /\
    forall n d, In (n, d) ds -> exists c, In (n, c) cl /\ reads_as env model n c d.
Proof.
  induction cl as [|[n c] cl IH]; intros tmp Hnd Hfresh Hall.
  - exists []. rewrite app_nil_r. repeat split. intros n d [].
  - cbn [map fst] in Hnd. apply NoDup_cons in Hnd as [Hn Hnd]. rewrite list_elem_of_In in Hn.
    destruct (Hall n c) as (d & g & Hg & Hd); [now left|].
    cbn [map fst snd read_fields].
    unfold _deserialize_instance_field at 1. cbn [owner_attribute]. unfold class_attribute.
    rewrite Hg. cbn [fres_bind]. rewrite Hd. cbn [fres_bind].
    rewrite filter_nothing. cbn [fres_bind].
    rewrite (set_attr_fresh n d tmp) by (apply Hfresh; now left).
    destruct (IH (tmp ++ [(n, d)])%list Hnd) as (ds & Hrun & Hnames & Hds).
    + intros m Hm. apply lookup_attr_app_none. split; [apply Hfresh; now right|].
      cbn [lookup_attr]. destruct (String.eqb_spec n m) as [->|_]; [contradiction|reflexivity].
    + intros m c' Hin. apply (Hall m c'). now right.
    + exists ((n, d) :: ds). split; [now rewrite Hrun, <- app_assoc|].
      split; [cbn [map fst]; now rewrite Hnames|].
      intros m d' [[= <- <-]|Hin].
      * exists c. split; [now left|]. now exists g.
      * destruct (Hds m d' Hin) as (c' & Hc' & Hr). exists c'. split; [now right|exact Hr].
Qed.

Lemma only_element {A} (l : list A) (a : A) :
  NoDup l -> (forall x, In x l <-> x = a) -> l = [a].
Proof.
  intros Hnd Hin. destruct l as [|x l]; [exfalso; now apply (Hin a)|].
  assert (x = a) as -> by (apply Hin; now left).
  destruct l as [|y l]; [reflexivity|]. exfalso.
  assert (y = a) as -> by (apply Hin; right; now left).
  apply NoDup_cons in Hnd as [Hnot _]. apply Hnot. rewrite list_elem_of_In. now left.
Qed.

Lemma NoDup_list_filter {A} (f : A -> bool) (l : list A) :
  NoDup l -> NoDup (List.filter f l).
Proof.
  induction 1 as [|x l Hx _ IH]; [constructor|]. cbn [List.filter].
  destruct (f x); [|exact IH]. constructor; [|exact IH].
  rewrite list_elem_of_In in *. intros Hin. apply Hx. now apply filter_In in Hin as [Hin _].
Qed.

Lemma get_keys_after_save mgr model_name (db db1 : store) key text :
  get_keys mgr model_name db = [] ->
  (forall k, is_record_of mgr model_name k = true -> redis_get k db1 = redis_get k db) ->
  is_record_of mgr model_name key = true ->
  get_keys mgr model_name (redis_set key text db1) = [(key, text)].
Proof.
  intros Hnone Hsame Hkey. apply only_element.
  - unfold get_keys. apply NoDup_list_filter, NoDup_map_to_list.
  - intros [k t]. rewrite get_keys_spec. unfold redis_set, redis_get. split.
    + intros [Hrec Hget]. destruct (decide (key = k)) as [->|Hne].
      * rewrite lookup_insert_eq in Hget. congruence.
      * rewrite lookup_insert_ne in Hget by exact Hne. exfalso.
        assert (Hin : In (k, t) (get_keys mgr model_name db)).
        { apply get_keys_spec. split; [exact Hrec|]. rewrite <- (Hsame k Hrec). exact Hget. }
        now rewrite Hnone in Hin.
    + intros [= -> ->]. split; [exact Hkey|apply lookup_insert_eq].
Qed.

Lemma copy_fields_lookup fields : forall fields' name f',
  copy_fields fields = Ok fields' ->
  lookup_field name fields' = Some f' ->
  exists g, lookup_field name fields = Some g /\ copy g = Ok f'.
Proof.
  induction fields as [|[k g] rest IH]; intros fields' name f'; cbn [copy_fields].
  - intros [= <-]. discriminate.
  - destruct (copy g) as [g'|] eqn:Hg; [|discriminate]. cbn [res_bind].
    destruct (copy_fields rest) as [rest'|]; [|discriminate]. cbn [res_bind].
    intros [= <-]. cbn [lookup_field]. destruct (String.eqb k name).
    + intros [= <-]. now exists g.
    + now apply IH.
Qed.

Lemma lookup_field_some_in name fields :
  In name (map fst fields) -> exists f, lookup_field name fields = Some f.
Proof.
  intros Hin. destruct (lookup_field name fields) as [f|] eqn:Hf; [eauto|].
  now apply lookup_field_none in Hf.
Qed.

Lemma new_instance_facts model kwargs self :
  new_instance model kwargs = Ok self ->
  no_repeat (map fst kwargs) = true ->
  lookup_attr "id" kwargs = None ->
  lookup_field "id" (cls_fields model) = Some RedisId_field ->
  inst_class self = model /\
  map fst (inst_fields self) = map fst (cls_fields model) /\
  has_no_id self /\
  exists fields, copy_fields (cls_fields model) = Ok fields.
Proof.
  unfold new_instance. intros Hnew Hnd Hnoid Hid.
  destruct (copy_fields (cls_fields model)) as [fields|] eqn:Hcopy; [|discriminate].
  cbn [res_bind] in Hnew. destruct (copy_fields_spec _ _ Hcopy) as [Hnames _].
  destruct (fill_fields_values_spec _ _ _ Hnew (no_repeat_NoDup _ Hnd)) as (Hc & Hn & _ & Hout).
  cbn [inst_class inst_fields inst_attrs] in *.
  split; [exact Hc|]. split; [congruence|]. split; [|eauto].
  assert (Hnot : ~ In "id" (map fst kwargs)).
  { intros Hin. apply in_map_iff in Hin as ([k v] & E & Hin). cbn [fst] in E. subst k.
    clear -Hin Hnoid. induction kwargs as [|[k w] rest IH]; [contradiction|].
    cbn [lookup_attr] in Hnoid. destruct (String.eqb_spec k "id") as [->|Hne]; [discriminate|].
    destruct Hin as [[= -> _]|Hin]; [congruence|]. now apply IH. }
  destruct (Hout "id" Hnot) as [Ha Hf]. split; [exact Ha|]. rewrite Hf.
  destruct (lookup_field_some_in "id" fields) as [f' Hf'].
  { rewrite Hnames. now apply (lookup_field_in "id" _ RedisId_field). }
  destruct (copy_fields_lookup _ _ _ _ Hcopy Hf') as (g & Hg & Hcg).
  rewrite Hid in Hg. injection Hg as <-. rewrite Hf'. f_equal.
  unfold copy, new_field in Hcg. cbn in Hcg. now injection Hcg as <-.
Qed.

Lemma reads_as_one env model name c d d' :
  reads_as env model name c d -> reads_as env model name c d' -> d = d'.
Proof.
  intros (g & Hg & Hd) (g' & Hg' & Hd'). rewrite Hg in Hg'. injection Hg' as <-.
  specialize (Hd no_query). specialize (Hd' no_query). congruence.
Qed.

Lemma id_reads_as env model i :
  lookup_field "id" (cls_fields model) = Some RedisId_field ->
  reads_as env model "id" (VInt i) (VInt i).
Proof.
  intros Hid. exists RedisId_field. split; [exact Hid|]. intros query.
  unfold deserialize_value, RedisNumber_deserialize_value, RedisField_deserialize_value,
    validate_type.
  cbn [f_class RedisId_field is_none andb res_bind isinstance existsb isinstance1].
  now rewrite orb_true_r.
Qed.

Lemma in_names_in_items {B} (name : string) (items : list (string * B)) :
  In name (map fst items) -> exists b, In (name, b) items.
Proof.
  intros Hin. apply in_map_iff in Hin as ([k b] & E & Hin). cbn [fst] in E. subst k. eauto.
Qed.

(** X26: a saved instance is found again.  Take a registered model whose
    keys are in order (its prefix and class name hold no colon and no
    character that the pattern of [get_keys] reads as a wildcard), an
    instance made by its constructor without an id, and a server that
    holds no record of the model yet.  If every field
    cleans to a plain JSON value that its class field can read back, then
    after a successful [save] a query for the model without filters
    returns exactly one instance, of that class, with the id the save
    gave, and every other field of it holds what [deserialize_value] makes
    of what [clean] made of the saved field. *)
Theorem saved_instance_is_found (fuel fuel' : nat) (env : environment) (model : model_class)
    (kwargs : list (string * pyval)) (self self' : instance) (db db' : store) :
  model_in_order env model ->
  new_instance model kwargs = Ok self ->
  no_repeat (map fst kwargs) = true ->
  lookup_attr "id" kwargs = None ->
  get_keys (base_mgr env) (cls_name model) db = [] ->
  (forall n f c,
     n <> "id" ->
     lookup_field n (inst_fields self) = Some f ->
     fst (clean f) = Ok c ->
     json_plain c = true /\ exists d, reads_as env model n c d) ->
  save fuel env self db = Some (Ok tt, self', db') ->
  exists i r,
    has_id i self' /\
    query (S fuel') env db' model [] = Some (Ok [r]) /\
    inst_class r = model /\
    lookup_attr "id" (inst_attrs r) = Some (VInt i) /\
    forall n f c d,
      n <> "id" ->
      lookup_field n (inst_fields self) = Some f ->
      fst (clean f) = Ok c ->
      reads_as env model n c d ->
      lookup_attr n (inst_attrs r) = Some d.
Proof.
  intros (Hp & _ & Hmax & Hlock & Hname & _ & Hfind & Hidf & Hnames)
    Hnew Hkw Hnoid Hnone Hvalues Hsave.
  destruct (new_instance_facts _ _ _ Hnew Hkw Hnoid Hidf) as (Hclass & Hfields & Hno & fields & Hcopy).
  apply no_repeat_NoDup in Hnames.
  (* the save, step by step *)
  unfold save, _serialize_data in Hsave. rewrite (id_is_unset_no_id self Hno) in Hsave.
  destruct (next_id fuel (base_mgr env) (cls_name (inst_class self)) db)
    as [[[i|e] db1]|] eqn:Hn; [| |discriminate]; [|discriminate].
  pose proof (next_id_writes _ _ _ _ _ _ Hn) as Hw.
  pose proof (has_id_after_allocation self i Hno) as Hid.
  set (self0 := setattr self "id" (VInt i)) in *.
  rewrite (instance_key_has_id _ _ _ Hid) in Hsave.
  change (cls_name (inst_class self0)) with (cls_name (inst_class self)) in Hsave.
  rewrite Hclass in *.
  set (key := key_of_id (base_mgr env) (cls_name model) i) in *.
  destruct (serialize_fields _ _ _ _ _ _) as [[[[cl de]|e] s1]|] eqn:Hs;
    [| |discriminate]; [|discriminate].
  injection Hsave as Hsave.
  assert (Hnames0 : map fst (inst_fields self0) = map fst (cls_fields model)).
  { subst self0. cbn [setattr inst_fields]. now rewrite set_field_value_names. }
  rewrite Hnames0 in Hs.
  destruct (serialize_fields_cleaned _ _ _ _ _ _ _ _ _ Hnames (fun n _ => eq_refl : lookup_attr n [] = None) Hs)
    as (added & Hcl & Hadded & Hclean).
  cbn [app] in Hcl. subst added.
  (* every cleaned value is plain and can be read back *)
  assert (Hgood : forall n c, In (n, c) cl ->
            json_plain c = true /\ exists d, reads_as env model n c d).
  { intros n c Hin. destruct (Hclean n c Hin) as (f & Hf & Hc).
    destruct (String.eqb_spec n "id") as [->|Hne].
    - destruct Hid as [_ Hidfield]. rewrite Hidfield in Hf. injection Hf as <-.
      rewrite clean_id_field in Hc. cbn [fst] in Hc. injection Hc as <-.
      split; [reflexivity|]. exists (VInt i). now apply id_reads_as.
    - apply (Hvalues n f c Hne); [|exact Hc].
      subst self0. cbn [setattr inst_fields] in Hf.
      rewrite lookup_field_set_value_other in Hf; [exact Hf|congruence]. }
  assert (Hplain : json_plain (as_dict cl) = true).
  { apply as_dict_plain; [now rewrite Hadded|]. intros n c Hin. exact (proj1 (Hgood n c Hin)). }
  (* what [_save] wrote *)
  assert (Hsplit : py_split key ":" = [prefix (base_mgr env); cls_name model; py_str_of_int i]).
  { apply split_three; [exact Hp|exact Hname|apply py_str_of_int_colon_free]. }
  unfold _save in Hsave. rewrite Hsplit, py_int_of_str_of_int, (json_text_dumps _ Hplain) in Hsave.
  injection Hsave as Hself' Hdb'.
  exists i.
  (* the query *)
  assert (Hkeys : get_keys (base_mgr env) (cls_name model) db'
                  = [(key, json_text (as_dict cl))]).
  { rewrite <- Hdb'. apply (get_keys_after_save _ _ db); [exact Hnone| |apply key_of_id_is_record].
    intros k Hk. apply Hw.
    - intros ->. rewrite (lock_is_no_record _ _ Hp Hlock) in Hk. discriminate.
    - intros ->. rewrite (counter_is_no_record _ _ _ Hp Hmax) in Hk. discriminate. }
  destruct (read_fields_all env
              (fun model_name filters' =>
                 match find_model (registered_models env) model_name with
                 | None => Some (Err (Unmodelled "relation to a class that is not registered"))
                 | Some target =>
                     let? found := _get_model_instances fuel' env db' target filters' in
                     Some (Ok (map instance_val found))
                 end)
              model cl [])
    as (ds & Hread & Hdsnames & Hds).
  { now rewrite Hadded. }
  { intros n _. reflexivity. }
  { intros n c Hin. exact (proj2 (Hgood n c Hin)). }
  cbn [app] in Hread.
  assert (Hfill : exists r,
            _fill_fields_values
              {| inst_class := model; inst_attrs := []; inst_fields := fields |} ds = Ok r).
  { apply fill_fields_values_known. intros kv Hkv. cbn [inst_fields].
    destruct (copy_fields_spec _ _ Hcopy) as [Hfn _].
    rewrite lookup_field_none, Hfn, <- Hadded, <- Hdsnames. intros Hnot. apply Hnot.
    now apply in_map. }
  destruct Hfill as [r Hr].
  assert (Hdsnd : NoDup (map fst ds)) by now rewrite Hdsnames, Hadded.
  destruct (fill_fields_values_spec _ _ _ Hr Hdsnd) as (Hrc & _ & Hrin & _).
  cbn [inst_class] in Hrc.
  exists r. split; [|split; [|split; [exact Hrc|split]]].
  - rewrite <- Hself'. apply has_id_fold_setattr; [|].
    + assert (Hnil : id_entry_is i []) by (intros v []).
      rewrite <- Hnames0 in Hs.
      now destruct (serialize_fields_keeps_id _ _ i _ _ _ _ _ _ Hid Hnil Hs) as [Hid1 _].
    + assert (Hnil : id_entry_is i []) by (intros v []).
      rewrite <- Hnames0 in Hs.
      destruct (serialize_fields_keeps_id _ _ i _ _ _ _ _ _ Hid Hnil Hs) as [_ Hd].
      now apply (Hd cl de).
  - unfold query. cbn [_get_model_instances]. unfold get_model_instances_step.
    rewrite Hkeys. cbn [read_instances]. unfold read_instance at 1.
    rewrite Hsplit. unfold _get_registered_model_by_name. rewrite Hfind.
    cbn [fres_bind]. rewrite py_int_of_str_of_int. cbn [fres_bind].
    rewrite (json_text_loads _ Hplain). cbn [fres_bind as_dict].
    rewrite Hread. cbn [fres_bind]. unfold new_instance. rewrite Hcopy. cbn [res_bind].
    rewrite Hr. reflexivity.
  - destruct (in_names_in_items "id" ds) as [d Hd].
    { rewrite Hdsnames, Hadded. now apply (lookup_field_in "id" _ RedisId_field). }
    destruct (Hrin "id" d Hd) as [Ha _]. rewrite Ha. f_equal.
    destruct (Hds "id" d Hd) as (c & Hc & Hrd).
    destruct (Hclean "id" c Hc) as (f & Hf & Hcf).
    destruct Hid as [_ Hidfield]. rewrite Hidfield in Hf. injection Hf as <-.
    rewrite clean_id_field in Hcf. cbn [fst] in Hcf. injection Hcf as <-.
    exact (reads_as_one _ _ _ _ _ _ Hrd (id_reads_as env model i Hidf)).
  - intros n f c d Hne Hf Hc Hrd.
    destruct (in_names_in_items n ds) as [d' Hd'].
    { rewrite Hdsnames, Hadded, <- Hfields. now apply (lookup_field_in n _ f). }
    destruct (Hrin n d' Hd') as [Ha _]. rewrite Ha. f_equal.
    destruct (Hds n d' Hd') as (c' & Hc' & Hrd').
    destruct (Hclean n c' Hc') as (f' & Hf' & Hcf').
    subst self0. cbn [setattr inst_fields] in Hf'.
    rewrite lookup_field_set_value_other in Hf' by congruence.
    rewrite Hf in Hf'. injection Hf' as <-. rewrite Hc in Hcf'. injection Hcf' as <-.
    exact (reads_as_one _ _ _ _ _ _ Hrd' Hrd).
Qed.

Lemma saved_instance_is_found_witness :
  exists i r,
    has_id i job_after /\
    query 1 job_env job_db Job [] = Some (Ok [r]) /\
    inst_class r = Job /\
    lookup_attr "id" (inst_attrs r) = Some (VInt i) /\
    forall n f c d,
      n <> "id" ->
      lookup_field n (inst_fields (new_job (VStr "in_work"))) = Some f ->
      fst (clean f) = Ok c ->
      reads_as job_env Job n c d ->
      lookup_attr n (inst_attrs r) = Some d.
Proof.
  apply (saved_instance_is_found 1 0 job_env Job [("status", VStr "in_work")]
           (new_job (VStr "in_work")) job_after shop_db job_db).
  - repeat split; try reflexivity; discriminate.
  - reflexivity.
  - reflexivity.
  - reflexivity.
  - vm_compute. reflexivity.
  - intros n f c Hn.
    change (inst_fields (new_job (VStr "in_work")))
      with [("id", RedisId_field); ("status", status_field (VStr "in_work"))].
    cbn [lookup_field]. destruct (String.eqb_spec "id" n) as [E|_]; [congruence|].
    destruct (String.eqb_spec "status" n) as [<-|_]; [|discriminate].
    intros [= <-] [= <-]. split; [reflexivity|].
    exists (VStr "in_work"), (status_field VNone). split; [reflexivity|].
    intros query. reflexivity.
  - vm_compute. reflexivity.
Defined.

(** ** Relations to records that are not there *)

Lemma query_of_no_records fuel env db model filters :
  get_keys (base_mgr env) (cls_name model) db = [] ->
  query (S fuel) env db model filters = Some (Ok []).
Proof.
  intros Hnone. unfold query. cbn [_get_model_instances]. unfold get_model_instances_step.
  now rewrite Hnone.
Qed.

Lemma relation_query_of_no_records fuel env db target filters :
  find_model (registered_models env) (cls_name target) = Some target ->
  get_keys (base_mgr env) (cls_name target) db = [] ->
  relation_query (S fuel) env db (cls_name target) filters = Some (Ok []).
Proof.
  intros Hfind Hnone. unfold relation_query. rewrite Hfind.
  now rewrite (query_of_no_records fuel env db target filters Hnone).
Qed.

Lemma json_plain_ints (ids : list Z) : json_plain (VList (map VInt ids)) = true.
Proof.
  cbn [json_plain]. apply forallb_forall. intros v Hin.
  apply in_map_iff in Hin as (z & <- & _). reflexivity.
Qed.

(** X27: a reference to a model without records cannot be read.  When the
    server holds no record of the model a [RedisForeignKey] points to,
    [deserialize_value] of a stored id raises [RedisModelsException]
    (with the text of the check for more than one record), whatever the id
    and also when deserialization errors are to be ignored. *)
Theorem reference_to_no_record_is_an_error (fuel : nat) (env : environment)
    (target : model_class) (db : store) (default choices : pyval) (null ignore : bool)
    (g : redis_field) (i : Z) :
  new_field RedisForeignKey default choices null (cls_name target) = Ok g ->
  find_model (registered_models env) (cls_name target) = Some target ->
  get_keys (base_mgr env) (cls_name target) db = [] ->
  deserialize_value (relation_query (S fuel) env db) g (VInt i) ignore
  = Some (Err (RedisModelsException "Found more than one")).
Proof.
  intros Hnew Hfind Hnone. unfold new_field in Hnew.
  destruct (validate_type (exec_if_callable choices) [TDict]) as [c|e]; [|discriminate].
  cbn [res_bind] in Hnew. injection Hnew as <-.
  unfold deserialize_value. cbn [f_class]. unfold RedisForeignKey_deserialize_value.
  unfold RedisField_deserialize_value. cbn [is_none andb fres_bind f_model].
  rewrite (relation_query_of_no_records fuel env db target _ Hfind Hnone).
  destruct i; reflexivity.
Qed.

Lemma reference_to_no_record_is_an_error_witness :
  deserialize_value (relation_query 1 job_env shop_db)
    (field_or_id (new_field RedisForeignKey VNone VNone true "Job")) (VInt 7) true
  = Some (Err (RedisModelsException "Found more than one")).
Proof.
  apply (reference_to_no_record_is_an_error 0 job_env Job shop_db VNone VNone true true
           (field_or_id (new_field RedisForeignKey VNone VNone true "Job")) 7).
  - reflexivity.
  - reflexivity.
  - vm_compute. reflexivity.
Defined.

(** X28: a many-to-many relation to a model without records reads as an
    empty query set.  When the server holds no record of the model a
    [RedisManyToMany] points to, [deserialize_value] of the stored list of
    ids raises nothing: it returns the query set of that model with no
    result, whatever the ids. *)
Theorem relation_to_no_records_is_empty (fuel : nat) (env : environment)
    (target : model_class) (db : store) (default choices : pyval) (null ignore : bool)
    (g : redis_field) (ids : list Z) :
  new_field RedisManyToMany default choices null (cls_name target) = Ok g ->
  find_model (registered_models env) (cls_name target) = Some target ->
  get_keys (base_mgr env) (cls_name target) db = [] ->
  deserialize_value (relation_query (S fuel) env db) g
    (VStr (json_text (VList (map VInt ids)))) ignore
  = Some (Ok (VQuerySet (cls_name target) [])).
Proof.
  intros Hnew Hfind Hnone. unfold new_field in Hnew.
  destruct (validate_type (exec_if_callable choices) [TDict]) as [c|e]; [|discriminate].
  cbn [res_bind] in Hnew. injection Hnew as <-.
  unfold deserialize_value. cbn [f_class]. unfold RedisManyToMany_deserialize_value.
  unfold RedisJson_deserialize_value, RedisField_deserialize_value.
  cbn [is_none andb res_bind]. unfold validate_type at 1.
  cbn [isinstance existsb isinstance1 orb res_bind]. rewrite orb_true_r. cbn [res_bind].
  unfold json_loads_val. rewrite (json_text_loads _ (json_plain_ints ids)).
  cbn [res_bind f_allowed_types]. unfold validate_type.
  cbn [isinstance existsb isinstance1 orb res_bind]. rewrite orb_true_r.
  cbn [res_bind fres_bind is_none f_model].
  now rewrite (relation_query_of_no_records fuel env db target _ Hfind Hnone).
Qed.

Lemma relation_to_no_records_is_empty_witness :
  deserialize_value (relation_query 1 job_env shop_db)
    (field_or_id (new_field RedisManyToMany VNone VNone true "Job"))
    (VStr (json_text (VList (map VInt [3; 4])))) true
  = Some (Ok (VQuerySet "Job" [])).
Proof.
  apply (relation_to_no_records_is_empty 0 job_env Job shop_db VNone VNone true true
           (field_or_id (new_field RedisManyToMany VNone VNone true "Job")) [3; 4]).
  - reflexivity.
  - reflexivity.
  - vm_compute. reflexivity.
Defined.

(** ** The rows of a query set *)

Lemma check_field_names_spec model fields :
  check_field_names model fields
  = if forallb (fun field => mem_string field (map fst (cls_fields model))) fields
    then Ok tt else Err (RedisModelsException "model does not have a field").
Proof.
  induction fields as [|field rest IH]; [reflexivity|].
  cbn [check_field_names forallb]. now destruct (mem_string field _).
Qed.

Lemma in_dict_set (k : string) (v : pyval) (d : list (pyval * pyval)) :
  In (VStr k, v) (dict_set k v d).
Proof.
  induction d as [|[k' v'] d IH]; [now left|].
  destruct k'; cbn [dict_set]; try (right; exact IH).
  destruct (String.eqb_spec k s) as [->|_]; [now left|right; exact IH].
Qed.

Lemma in_dict_set_inv (k : string) (v : pyval) (d : list (pyval * pyval)) k' v' :
  In (k', v') (dict_set k v d) -> (k' = VStr k /\ v' = v) \/ In (k', v') d.
Proof.
  induction d as [|[k1 v1] d IH]; cbn [dict_set].
  - intros [[= <- <-]|[]]. now left.
  - destruct k1; try (intros [E|Hin]; [right; now left|destruct (IH Hin); [now left|right; now right]]).
    destruct (String.eqb_spec k s) as [->|_].
    + intros [[= <- <-]|Hin]; [now left|right; now right].
    + intros [E|Hin]; [right; now left|destruct (IH Hin); [now left|right; now right]].
Qed.

Lemma in_dict_set_other (k : string) (v : pyval) (d : list (pyval * pyval)) k' v' :
  k' <> k -> In (VStr k', v') d -> In (VStr k', v') (dict_set k v d).
Proof.
  intros Hne. induction d as [|[k1 v1] d IH]; [intros []|].
  destruct k1; cbn [dict_set]; try (intros [E|Hin]; [now left|right; now apply IH]).
  destruct (String.eqb_spec k s) as [->|_].
  - intros [[= <- <-]|Hin]; [congruence|now right].
  - intros [E|Hin]; [now left|right; now apply IH].
Qed.

Lemma attributes_dict_spec (i : pyval) (fields : list string) :
  (forall field, In field fields -> exists v, py_getattr i field = Ok v) ->
  forall d0,
    (forall k v, In (k, v) d0 -> exists field, k = VStr field /\ py_getattr i field = Ok v) ->
    exists d,
      attributes_dict i fields d0 = Ok d /\
      (forall k v, In (k, v) d0 -> exists v', In (k, v') d) /\
      (forall field, In field fields ->
         exists v, py_getattr i field = Ok v /\ In (VStr field, v) d) /\
      (forall k v, In (k, v) d ->
         (exists v', In (k, v') d0) \/ exists field, k = VStr field /\ In field fields) /\
      (forall k v, In (k, v) d -> exists field, k = VStr field /\ py_getattr i field = Ok v).
Proof.
  induction fields as [|field rest IH]; intros Hget d0 Hd0; cbn [attributes_dict].
  - exists d0. repeat split; eauto. intros field [].
  - destruct (Hget field) as [v Hv]; [now left|]. rewrite Hv. cbn [res_bind].
    destruct (IH (fun f Hf => Hget f (or_intror Hf)) (dict_set field v d0))
      as (d & Hrun & Hkeep & Hall & Hkeys & Hvals).
    { intros k w Hin. apply in_dict_set_inv in Hin as [[-> ->]|Hin]; eauto. }
    exists d. split; [exact Hrun|]. split; [|split; [|split]].
    + intros k w Hin. destruct (Hd0 k w Hin) as (f & -> & _).
      destruct (String.eqb_spec f field) as [->|Hne].
      * apply (Hkeep (VStr field) v), in_dict_set.
      * apply (Hkeep (VStr f) w). now apply in_dict_set_other.
    + intros f [<-|Hf]; [|now apply Hall].
      destruct (Hkeep (VStr field) v (in_dict_set field v d0)) as [v' Hin].
      destruct (Hvals _ _ Hin) as (f' & [= <-] & Hv'). exists v'. now split.
    + intros k w Hin. destruct (Hkeys k w Hin) as [[v' Hin']|(f & -> & Hf)].
      * apply in_dict_set_inv in Hin' as [[-> ->]|Hin']; [right; exists field; split; [reflexivity|now left]|].
        left. eauto.
      * right. exists f. split; [reflexivity|now right].
    + exact Hvals.
Qed.

Lemma getattr_of_field (model : model_class) (r : instance) (field : string) :
  has_fields_of model r ->
  mem_string field (map fst (cls_fields model)) = true ->
  exists v, py_getattr (instance_val r) field = Ok v.
Proof.
  intros Hr Hin. unfold instance_val, py_getattr. destruct (lookup_attr field _); [eauto|].
  rewrite Hr, Hin. eauto.
Qed.

(** X29: [values] checks the names before it reads anything, and then
    cannot fail.  On the query set of a model whose results are instances
    with the fields of the class: when one of the names asked for is not a
    field of the class, [values] raises [RedisModelsException], also when
    there is no result at all; otherwise it returns one row for each
    result, in the order of the results, and each row holds under the
    names asked for, and no others, what [getattr] gives for that
    result. *)
Theorem values_gives_a_row_for_each_result (model : model_class) (results : list instance)
    (fields : list string) :
  Forall (has_fields_of model) results ->
  if forallb (fun field => mem_string field (map fst (cls_fields model))) fields
  then exists rows,
         values model results fields = Ok rows /\
         Forall2 (fun r row => row_of r fields row) results rows
  else values model results fields = Err (RedisModelsException "model does not have a field").
Proof.
  intros Hres. unfold values. rewrite check_field_names_spec.
  destruct (forallb _ fields) eqn:Hall; [|reflexivity].
  cbn [res_bind]. rewrite forallb_forall in Hall.
  induction Hres as [|r results Hr _ IH]; cbn [values_of].
  - exists []. split; [reflexivity|constructor].
  - destruct (attributes_dict_spec (instance_val r) fields
                (fun f Hf => getattr_of_field model r f Hr (Hall f Hf)) [])
      as (d & Hrun & _ & Hhas & Hkeys & Hvals).
    { intros k v []. }
    rewrite Hrun. cbn [res_bind]. destruct IH as (rows & -> & Hrows). cbn [res_bind].
    exists (VDict d :: rows). split; [reflexivity|]. constructor; [|exact Hrows].
    exists d. split; [reflexivity|]. split; [exact Hhas|].
    intros k v Hin. destruct (Hkeys k v Hin) as [[v' []]|(f & -> & Hf)].
    destruct (Hvals _ _ Hin) as (f' & [= <-] & Hv). eauto.
Qed.

Lemma values_gives_a_row_for_each_result_witness :
  exists rows,
    values Job [job_after] ["status"; "id"] = Ok rows /\
    Forall2 (fun r row => row_of r ["status"; "id"] row) [job_after] rows.
Proof.
  apply (values_gives_a_row_for_each_result Job [job_after] ["status"; "id"]).
  constructor; [reflexivity|constructor].
Defined.

(** ** Filters: what a query with an ignored argument returns *)










